(** * Polygon offsetting over a Voronoi diagram: libslic3r/VoronoiOffset.cpp

    A shallow embedding of the active code path of VoronoiOffset.cpp
    (the [#if 0] variant is not modelled) and the properties its
    specification states about it.

    Numbers.  The code computes in C++ [double] over integer ([coord_t])
    input points.  The arithmetic the code uses is collected in the class
    [Scalar]; every function of the source is written once, over any
    [Scalar].  Two instances are given: IEEE binary64 (the kernel's
    primitive floats), on which every definition runs, and the real
    numbers, on which the geometric statements are proved.

    Assertions.  In a build without [NDEBUG] an [assert] that fails ends
    the run, which the
    functions render as the result [None]; with [NDEBUG] the assertions are
    compiled out.  The flag is a parameter of every function that asserts. *)

From Stdlib Require Import ZArith List Bool Lia Reals Lra Psatz.
From Stdlib Require PrimFloat FloatOps SpecFloat Uint63.
Import ListNotations.

Set Implicit Arguments.

(** ** The arithmetic of the source *)

Class Scalar (T : Type) : Type := {
  s_add   : T -> T -> T;
  s_sub   : T -> T -> T;
  s_mul   : T -> T -> T;
  s_div   : T -> T -> T;
  s_opp   : T -> T;
  s_sqrt  : T -> T;
  s_abs   : T -> T;
  s_ltb   : T -> T -> bool;       (* x < y  *)
  s_leb   : T -> T -> bool;       (* x <= y *)
  s_eqb   : T -> T -> bool;       (* x == y *)
  of_coord : Z -> T;              (* double(coord_t) *)
  to_coord : T -> Z;              (* coord_t(double): truncation *)
  max_value : T                   (* std::numeric_limits<double>::max() *)
}.

Declare Scope scalar_scope.
Delimit Scope scalar_scope with sc.
Notation "x + y" := (s_add x y) : scalar_scope.
Notation "x - y" := (s_sub x y) : scalar_scope.
Notation "x * y" := (s_mul x y) : scalar_scope.
Notation "x / y" := (s_div x y) : scalar_scope.
Notation "- x" := (s_opp x) : scalar_scope.
Notation "x <? y" := (s_ltb x y) (at level 70, no associativity) : scalar_scope.
Notation "x <=? y" := (s_leb x y) (at level 70, no associativity) : scalar_scope.
Notation "x =? y" := (s_eqb x y) (at level 70, no associativity) : scalar_scope.
Notation "x >? y" := (s_ltb y x) (at level 70, no associativity) : scalar_scope.
Notation "x >=? y" := (s_leb y x) (at level 70, no associativity) : scalar_scope.

(** *** IEEE binary64 *)

Module F64.

Definition of_Z (z : Z) : PrimFloat.float :=
  match z with
  | Z0 => PrimFloat.zero
  | Zpos _ => PrimFloat.of_uint63 (Uint63.of_Z z)
  | Zneg _ => PrimFloat.opp (PrimFloat.of_uint63 (Uint63.of_Z (Z.opp z)))
  end.

(* A conversion of a NaN or an infinity to an integer is undefined in C++;
   x86-64 yields the least 64-bit integer, which is what is taken here. *)
Definition to_Z (f : PrimFloat.float) : Z :=
  match FloatOps.Prim2SF f with
  | SpecFloat.S754_zero _ => 0%Z
  | SpecFloat.S754_finite s m e =>
      let mag := match e with
                 | Z0 => Zpos m
                 | Zpos p => Z.shiftl (Zpos m) (Zpos p)
                 | Zneg p => Z.shiftr (Zpos m) (Zpos p)
                 end in
      if s then Z.opp mag else mag
  | _ => (- 2 ^ 63)%Z
  end.

(* The largest finite binary64 number. *)
Definition dbl_max : PrimFloat.float :=
  Eval vm_compute in PrimFloat.next_down PrimFloat.infinity.

#[global] Instance scalar : Scalar PrimFloat.float := {|
  s_add := PrimFloat.add; s_sub := PrimFloat.sub;
  s_mul := PrimFloat.mul; s_div := PrimFloat.div;
  s_opp := PrimFloat.opp; s_sqrt := PrimFloat.sqrt; s_abs := PrimFloat.abs;
  s_ltb := PrimFloat.ltb; s_leb := PrimFloat.leb; s_eqb := PrimFloat.eqb;
  of_coord := of_Z; to_coord := to_Z;
  max_value := dbl_max |}.

End F64.

(** *** Real numbers *)

Module Real.

Definition ltb (x y : R) : bool := if Rlt_dec x y then true else false.
Definition leb (x y : R) : bool := if Rle_dec x y then true else false.
Definition eqb (x y : R) : bool := if Req_dec_T x y then true else false.

(* Truncation toward zero. *)
Definition to_Z (x : R) : Z :=
  if Rlt_dec x 0 then Z.opp (Int_part (- x)) else Int_part x.

#[global] Instance scalar : Scalar R := {|
  s_add := Rplus; s_sub := Rminus; s_mul := Rmult; s_div := Rdiv;
  s_opp := Ropp; s_sqrt := sqrt; s_abs := Rabs;
  s_ltb := ltb; s_leb := leb; s_eqb := eqb;
  of_coord := IZR; to_coord := to_Z;
  max_value := IZR (2 ^ 1024 - 2 ^ 971) |}.

Lemma ltb_true x y : ltb x y = true <-> (x < y)%R.
Proof. unfold ltb; destruct (Rlt_dec x y); split; intros; try easy. Qed.

Lemma ltb_false x y : ltb x y = false <-> (y <= x)%R.
Proof.
  unfold ltb; destruct (Rlt_dec x y); split; intros; try easy; lra.
Qed.

Lemma leb_true x y : leb x y = true <-> (x <= y)%R.
Proof. unfold leb; destruct (Rle_dec x y); split; intros; try easy. Qed.

Lemma eqb_true x y : eqb x y = true <-> x = y.
Proof. unfold eqb; destruct (Req_dec_T x y); split; intros; try easy. Qed.

Lemma eqb_false x y : eqb x y = false <-> x <> y.
Proof. unfold eqb; destruct (Req_dec_T x y); split; intros; try easy. Qed.

End Real.

(** ** Points, vectors and lines *)

(** [Slic3r::Point]: integer ([coord_t]) coordinates.  Coordinates are taken
    in the range where [coord_t] arithmetic does not overflow. *)
Record Point : Type := mkPoint { px : Z; py : Z }.

(** [Slic3r::Line]: the oriented segment from [la] to [lb]. *)
Record Line : Type := mkLine { la : Point; lb : Point }.

(** [Vec2d]. *)
Record Vec2 (T : Type) : Type := mkVec { vx : T; vy : T }.

Definition point_eqb (p q : Point) : bool :=
  (Z.eqb (px p) (px q) && Z.eqb (py p) (py q))%bool.

Definition point_sub (p q : Point) : Point :=
  mkPoint (px p - px q) (py p - py q).

(** [assert(b)], followed by [k].  With [NDEBUG] defined the assertion is
    compiled out; without it a failed assertion ends the run. *)
Definition assert {A : Type} (NDEBUG : bool) (b : bool) (k : option A) : option A :=
  if NDEBUG then k else if b then k else None.

Notation "'let?' x ':=' c 'in' k" :=
  (match c with Some x => k | None => None end)
  (at level 61, x pattern, c at next level, right associativity).

Section Geometry.

Context {T : Type} `{Scalar T}.
Local Open Scope scalar_scope.

Definition lit (n : Z) : T := of_coord n.
Definition half : T := lit 1 / lit 2.
Definition quarter : T := lit 1 / lit 4.

(** [std::numeric_limits<double>::quiet_NaN()] and [std::isnan]. *)
Definition nan : T := lit 0 / lit 0.
Definition isnan (x : T) : bool := negb (x =? x).

Definition s_max (x y : T) : T := if x <? y then y else x.   (* std::max *)
Definition s_min (x y : T) : T := if y <? x then y else x.   (* std::min *)

(** Modelled from the spec: [Slic3r::clamp(low, high, value)] (libslic3r.h is
    not part of the sources): [value] brought into [[low, high]]. *)
Definition clamp (low high value : T) : T := s_max low (s_min high value).

Definition cast (p : Point) : Vec2 T := mkVec (of_coord (px p)) (of_coord (py p)).
Definition vadd (u v : Vec2 T) : Vec2 T := mkVec (vx u + vx v) (vy u + vy v).
Definition vsub (u v : Vec2 T) : Vec2 T := mkVec (vx u - vx v) (vy u - vy v).
Definition vopp (u : Vec2 T) : Vec2 T := mkVec (- vx u) (- vy u).
Definition vscale (k : T) (u : Vec2 T) : Vec2 T := mkVec (k * vx u) (k * vy u).
Definition dot (u v : Vec2 T) : T := vx u * vx v + vy u * vy v.
Definition squaredNorm (u : Vec2 T) : T := dot u u.
Definition norm (u : Vec2 T) : T := s_sqrt (squaredNorm u).
Definition normalized (u : Vec2 T) : Vec2 T :=
  let n := norm u in mkVec (vx u / n) (vy u / n).
Definition swap_xy (u : Vec2 T) : Vec2 T := mkVec (vy u) (vx u).

(** [cross2]: the z coordinate of the cross product. *)
Definition cross2 (u v : Vec2 T) : T := vx u * vy v - vy u * vx v.

(** [Slic3r::lerp(a, b, t)]. *)
Definition lerp (a b : Vec2 T) (t : T) : Vec2 T :=
  vadd (vscale (lit 1 - t) a) (vscale t b).

(** Modelled from the spec: [Geometry::foot_pt] (Geometry.hpp is not part of
    the sources): the foot point of [pt] on the line through [ray_pt] with
    direction [ray_v]. *)
Definition foot_pt (ray_pt ray_v pt : Vec2 T) : Vec2 T :=
  vadd ray_pt (vscale (dot (vsub pt ray_pt) ray_v / squaredNorm ray_v) ray_v).

(** Modelled from the spec: [Geometry::ray_point_distance] (Geometry.hpp is
    not part of the sources): the perpendicular distance of [pt] from the
    line through [ray_pt] with direction [ray_v]. *)
Definition ray_point_distance (ray_pt ray_v pt : Vec2 T) : T :=
  norm (vsub (foot_pt ray_pt ray_v pt) pt).

End Geometry.

(** ** Geometric kernels ([namespace detail]) *)

(** [detail::Intersections]. *)
Record Intersections (T : Type) : Type :=
  mkIntersections { count : Z; pts0 : Vec2 T; pts1 : Vec2 T }.

Section Kernels.

Context {T : Type} `{Scalar T}.
Local Open Scope scalar_scope.

(** Whether the build defines [NDEBUG]. *)
Variable NDEBUG : bool.
Local Notation "'assert!' b ;; k" := (assert NDEBUG b k)
  (at level 61, b at next level, right associativity).

(** The tolerances of libslic3r.h, which is not part of the sources. *)
Variable EPSILON : T.
Variable SCALED_EPSILON : T.

(** A default-constructed [Vec2d] is taken to be the zero vector. *)
Definition Vec2d0 : Vec2 T := mkVec (lit 0) (lit 0).

(** [detail::first_circle_segment_intersection_parameter]. *)
Definition first_circle_segment_intersection_parameter
    (center : Vec2 T) (r : T) (pt v : Vec2 T) : option T :=
  let d := vsub pt center in
  let d0 := norm (vsub pt center) in
  let d1 := norm (vsub (vadd pt v) center) in
  assert! (r <? s_max d0 d1 + EPSILON) ;;
  let a := squaredNorm v in
  let b := lit 2 * dot d v in
  let c := squaredNorm d - r * r in
  let u := b * b - lit 4 * a * c in
  assert! (u >? - EPSILON) ;;
  if u <=? lit 0 then
    let t := (- b) / (lit 2 * a) in
    assert! ((t >=? - EPSILON) && (t <=? lit 1 + EPSILON)) ;;
    Some (clamp (lit 0) (lit 1) t)
  else
    let u := s_sqrt u in
    let t0 := (- b - u) / (lit 2 * a) in
    let t1 := (- b + u) / (lit 2 * a) in
    assert! (((t0 >=? - EPSILON) && (t0 <=? lit 1 + EPSILON))
             || ((t1 >=? - EPSILON) && (t1 <=? lit 1 + EPSILON))) ;;
    if t1 <? lit 0 then Some (lit 0)
    else if t0 >? lit 1 then Some (lit 1)
    else Some (if t0 >? lit 0 then t0 else t1).

(** [detail::point_point_equal_distance_points], up to its closing
    assertions, which are [point_point_checks]. *)
Definition point_point_equal_distance_points
    (pt1 pt2 : Point) (d : T) : Intersections T :=
  let cx := of_coord (px pt1 - px pt2) in
  let cy := of_coord (py pt1 - py pt2) in
  let cl := cx * cx + cy * cy in
  let discr := lit 4 * d * d - cl in
  if discr <? lit 0 then mkIntersections 0 Vec2d0 Vec2d0
  else
    let xy_swapped := s_abs cx <? s_abs cy in
    let '(cx, cy) := if xy_swapped then (cy, cx) else (cx, cy) in
    let '(cnt, u) :=
      if discr =? lit 0 then (1%Z, lit 0)
      else (2%Z, half * cx * s_sqrt (cl * discr) / cl) in
    let v := half * cy - u in
    let w := lit 2 * cy in
    let e := half / cx in
    let f := half * cy + u in
    let p0 := mkVec (- e * (v * w - cl)) v in
    let p1 := mkVec (- e * (w * f - cl)) f in
    let '(p0, p1) := if xy_swapped then (swap_xy p0, swap_xy p1) else (p0, p1) in
    mkIntersections cnt (vadd p0 (cast pt2)) (vadd p1 (cast pt2)).

(** The assertions closing [point_point_equal_distance_points]; the early
    return with no point passes none of them. *)
Definition point_point_checks (pt1 pt2 : Point) (d : T) (out : Intersections T) : bool :=
  if Z.eqb (count out) 0 then true
  else
    (s_abs (norm (vsub (pts0 out) (cast pt1)) - d) <? SCALED_EPSILON)
    && (s_abs (norm (vsub (pts1 out) (cast pt1)) - d) <? SCALED_EPSILON)
    && (s_abs (norm (vsub (pts0 out) (cast pt2)) - d) <? SCALED_EPSILON)
    && (s_abs (norm (vsub (pts1 out) (cast pt2)) - d) <? SCALED_EPSILON).

(** The line coefficients [(lv, c)] of [line_point_equal_distance_points]:
    [lv] is turned so that [c >= 0]. *)
Definition line_point_coefficients (line : Line) (ipt : Point) : Vec2 T * T :=
  let lv := cast (point_sub (lb line) (la line)) in
  let lpv := cast (point_sub (la line) ipt) in
  let c := cross2 lpv lv in
  if c <? lit 0 then (vopp lv, - c) else (lv, c).

(** [detail::line_point_equal_distance_points], up to its assertions, which
    are [line_point_requires] and [line_point_checks]. *)
Definition line_point_equal_distance_points
    (line : Line) (ipt : Point) (d : T) : Intersections T :=
  let pt := cast ipt in
  let l2 := squaredNorm (cast (point_sub (lb line) (la line))) in
  let '(lv, c) := line_point_coefficients line ipt in
  let a := - vy lv in
  let b := vx lv in
  let dscaled := d * s_sqrt l2 in
  let s := c * (lit 2 * dscaled - c) in
  if s <? lit 0 then mkIntersections 0 Vec2d0 Vec2d0
  else
    let xy_swapped := s_abs a <? s_abs b in
    let '(a, b) := if xy_swapped then (b, a) else (a, b) in
    let '(cnt, u) :=
      if s =? lit 0 then (1%Z, lit 0)
      else (2%Z, a * s_sqrt s / l2) in
    let e := dscaled - c in
    let f := b * e / l2 in
    let g := f - u in
    let h := f + u in
    let p0 := mkVec ((- b * g + e) / a) g in
    let p1 := mkVec ((- b * h + e) / a) h in
    let '(p0, p1) := if xy_swapped then (swap_xy p0, swap_xy p1) else (p0, p1) in
    mkIntersections cnt (vadd p0 pt) (vadd p1 pt).

(** The assertions at the head of [line_point_equal_distance_points]: [ipt]
    is no end point of [line], the shifted line point is on the line, the
    normal [(a, b)] points towards [ipt], and the point half way between
    [ipt] and its foot point is at equal distance from both. *)
Definition line_point_requires (line : Line) (ipt : Point) : bool :=
  let pt := cast ipt in
  let l2 := squaredNorm (cast (point_sub (lb line) (la line))) in
  let lpv := cast (point_sub (la line) ipt) in
  let '(lv, c) := line_point_coefficients line ipt in
  let a := - vy lv in
  let b := vx lv in
  let ft := foot_pt (cast (la line)) (cast (point_sub (lb line) (la line))) pt in
  let centerpt := vsub (vscale half (vadd ft pt)) pt in
  let dcenter := half * norm (vsub ft pt) in
  negb (point_eqb (la line) ipt) && negb (point_eqb (lb line) ipt)
  && (s_abs (vx lpv * a + vy lpv * b + c) <? SCALED_EPSILON)
  && (a * vx lpv + b * vy lpv <? - SCALED_EPSILON)
  && (s_abs (vx centerpt * a + vy centerpt * b + c - dcenter * s_sqrt l2)
        <? SCALED_EPSILON * s_sqrt l2).

(** The assertions closing [line_point_equal_distance_points]. *)
Definition line_point_checks (line : Line) (ipt : Point) (d : T) (out : Intersections T) : bool :=
  if Z.eqb (count out) 0 then true
  else
    let ra := cast (la line) in
    let rv := cast (point_sub (lb line) (la line)) in
    (s_abs (ray_point_distance ra rv (pts0 out) - d) <? SCALED_EPSILON)
    && (s_abs (ray_point_distance ra rv (pts1 out) - d) <? SCALED_EPSILON)
    && (s_abs (norm (vsub (pts0 out) (cast ipt)) - d) <? SCALED_EPSILON)
    && (s_abs (norm (vsub (pts1 out) (cast ipt)) - d) <? SCALED_EPSILON).

End Kernels.


(** ** Squared distance of two real points *)



(** ** The Voronoi diagram ([VD]) *)

(** [boost::polygon::SourceCategory]. *)
Inductive SourceCategory : Type :=
| SOURCE_CATEGORY_SINGLE_POINT
| SOURCE_CATEGORY_SEGMENT_START_POINT
| SOURCE_CATEGORY_SEGMENT_END_POINT
| SOURCE_CATEGORY_INITIAL_SEGMENT
| SOURCE_CATEGORY_REVERSE_SEGMENT.

(** Entities are referred to by their index in the diagram's arrays, which
    is what the source's pointers to them amount to; a null vertex pointer
    is [None]. *)
Record Vertex (T : Type) : Type := mkVertex {
  v_x : T;
  v_y : T;
  v_incident_edge : nat
}.

(** A half-edge.  As in boost, only the start vertex is stored: the end
    vertex is the start vertex of the twin, and [rot_next] is the twin of
    [prev]. *)
Record Edge : Type := mkEdge {
  e_vertex0 : option nat;
  e_twin : nat;
  e_next : nat;
  e_prev : nat;
  e_cell : nat;
  e_is_linear : bool;
  e_is_primary : bool
}.

Record Cell : Type := mkCell {
  c_incident_edge : nat;
  c_source_index : nat;
  c_source_category : SourceCategory
}.

Record VD (T : Type) : Type := mkVD {
  vertices : list (Vertex T);
  edges : list Edge;
  cells : list Cell
}.

Definition Lines : Type := list Line.

Definition default_edge : Edge := mkEdge None 0 0 0 0 true true.
Definition default_cell : Cell := mkCell 0 0 SOURCE_CATEGORY_SINGLE_POINT.
Definition default_line : Line := mkLine (mkPoint 0 0) (mkPoint 0 0).

(** Array access; an index outside the array does not occur in a diagram
    whose pointers are valid. *)
Definition line_at (lines : Lines) (i : nat) : Line := nth i lines default_line.

(** [v[i] = x]. *)
Fixpoint set_nth {A : Type} (i : nat) (x : A) (l : list A) : list A :=
  match l, i with
  | [], _ => []
  | _ :: t, O => x :: t
  | h :: t, S j => h :: set_nth j x t
  end.

(** Modelled from the spec: the categories of VoronoiOffset.hpp, which is
    not part of the sources (section 3, annotation state). *)
Inductive VertexCategory : Type :=
| VertexUnknown | VertexInside | VertexOutside | VertexOnContour.

Inductive EdgeCategory : Type :=
| EdgeUnknown | PointsInside | PointsOutside | PointsToContour.

Inductive CellCategory : Type :=
| CellUnknown | CellInside | CellOutside | CellBoundary.

Definition vertex_category_eqb (a b : VertexCategory) : bool :=
  match a, b with
  | VertexUnknown, VertexUnknown | VertexInside, VertexInside
  | VertexOutside, VertexOutside | VertexOnContour, VertexOnContour => true
  | _, _ => false
  end.

Definition edge_category_eqb (a b : EdgeCategory) : bool :=
  match a, b with
  | EdgeUnknown, EdgeUnknown | PointsInside, PointsInside
  | PointsOutside, PointsOutside | PointsToContour, PointsToContour => true
  | _, _ => false
  end.

Definition cell_category_eqb (a b : CellCategory) : bool :=
  match a, b with
  | CellUnknown, CellUnknown | CellInside, CellInside
  | CellOutside, CellOutside | CellBoundary, CellBoundary => true
  | _, _ => false
  end.

(** The categories the source keeps in the [color] field of the boost
    entities, as side arrays indexed like the entities. *)
Record Colors : Type := mkColors {
  vertex_colors : list VertexCategory;
  edge_colors : list EdgeCategory;
  cell_colors : list CellCategory
}.

Definition vertex_category (k : Colors) (v : nat) : VertexCategory :=
  nth v (vertex_colors k) VertexUnknown.
Definition edge_category (k : Colors) (e : nat) : EdgeCategory :=
  nth e (edge_colors k) EdgeUnknown.
Definition cell_category (k : Colors) (c : nat) : CellCategory :=
  nth c (cell_colors k) CellUnknown.

Definition set_vertex_category (k : Colors) (v : nat) (c : VertexCategory) : Colors :=
  mkColors (set_nth v c (vertex_colors k)) (edge_colors k) (cell_colors k).
Definition set_edge_category (k : Colors) (e : nat) (c : EdgeCategory) : Colors :=
  mkColors (vertex_colors k) (set_nth e c (edge_colors k)) (cell_colors k).
Definition set_cell_category (k : Colors) (c : nat) (cc : CellCategory) : Colors :=
  mkColors (vertex_colors k) (edge_colors k) (set_nth c cc (cell_colors k)).

Section Diagram.

Context {T : Type} `{Scalar T}.
Variable vd : VD T.

Definition default_vertex : Vertex T := mkVertex (lit 0) (lit 0) 0.

Definition vertex_at (i : nat) : Vertex T := nth i (vertices vd) default_vertex.
Definition edge_at (i : nat) : Edge := nth i (edges vd) default_edge.
Definition cell_at (i : nat) : Cell := nth i (cells vd) default_cell.

Definition num_edges : nat := length (edges vd).

Definition vertex0 (e : nat) : option nat := e_vertex0 (edge_at e).
Definition twin (e : nat) : nat := e_twin (edge_at e).
Definition vertex1 (e : nat) : option nat := vertex0 (twin e).
Definition next (e : nat) : nat := e_next (edge_at e).
Definition prev (e : nat) : nat := e_prev (edge_at e).
Definition rot_next (e : nat) : nat := twin (prev e).
Definition cell (e : nat) : nat := e_cell (edge_at e).
Definition is_linear (e : nat) : bool := e_is_linear (edge_at e).
Definition is_primary (e : nat) : bool := e_is_primary (edge_at e).
Definition is_secondary (e : nat) : bool := negb (is_primary e).
Definition is_finite (e : nat) : bool :=
  match vertex0 e, vertex1 e with Some _, Some _ => true | _, _ => false end.
Definition is_infinite (e : nat) : bool := negb (is_finite e).

Definition source_index (c : nat) : nat := c_source_index (cell_at c).
Definition source_category (c : nat) : SourceCategory := c_source_category (cell_at c).
Definition incident_edge (c : nat) : nat := c_incident_edge (cell_at c).

(** [cell.contains_point()], [cell.contains_segment()]: by the geometry
    bit of the source category. *)
Definition contains_point (c : nat) : bool :=
  match source_category c with
  | SOURCE_CATEGORY_SINGLE_POINT
  | SOURCE_CATEGORY_SEGMENT_START_POINT
  | SOURCE_CATEGORY_SEGMENT_END_POINT => true
  | _ => false
  end.
Definition contains_segment (c : nat) : bool := negb (contains_point c).

(** [vertex_point(v)]. *)
Definition vertex_point (v : nat) : Vec2 T :=
  mkVec (v_x (vertex_at v)) (v_y (vertex_at v)).

(** [contour_point(cell, line)]: the end point of [line] the point cell
    stands for (the expression the source also writes out in [offset]). *)
Definition contour_point (c : nat) (line : Line) : Point :=
  match source_category c with
  | SOURCE_CATEGORY_SEGMENT_START_POINT => la line
  | _ => lb line
  end.

(** [contour_point(cell, lines)]. *)
Definition contour_point_of (c : nat) (lines : Lines) : Point :=
  contour_point c (line_at lines (source_index c)).

(** The half-edges come in pairs: the twin of a half-edge of the array is
    another half-edge of the array, whose twin is the first. *)
Definition twins_paired : bool :=
  forallb (fun e => Nat.ltb (twin e) num_edges
                    && Nat.eqb (twin (twin e)) e
                    && negb (Nat.eqb (twin e) e))
    (seq 0 num_edges).

End Diagram.


(** ** Annotation of the diagram: inside, outside, on the contour *)

Section Annotation.

Context {T : Type} `{Scalar T}.
Local Open Scope scalar_scope.

Variable NDEBUG : bool.
Local Notation "'assert!' b ;; k" := (assert NDEBUG b k)
  (at level 61, b at next level, right associativity).

Variable vd : VD T.
Variable lines : Lines.

(** [debug::verify_twin_halfedges_successive]: the conjunction of its
    assertions over the pairs of half-edges [(i, i + 1)], [i] even. *)
Definition verify_twin_pair (e e2 : nat) : bool :=
  Nat.eqb (twin vd e) e2 && Nat.eqb (twin vd e2) e
  && Bool.eqb (is_secondary vd e) (is_secondary vd e2)
  && (if is_secondary vd e then
        negb (Bool.eqb (contains_point vd (cell vd e)) (contains_point vd (cell vd e2)))
        && (let ex := if contains_point vd (cell vd e) then e else e2 in
            let line0 := line_at lines (source_index vd (cell vd ex)) in
            let line1 := line_at lines (source_index vd (cell vd (twin vd ex))) in
            let pt := match source_category vd (cell vd ex) with
                      | SOURCE_CATEGORY_SEGMENT_START_POINT => la line0
                      | _ => lb line0
                      end in
            point_eqb pt (la line1) || point_eqb pt (lb line1))
      else true).

Fixpoint verify_twin_pairs (n i : nat) : bool :=
  match n with
  | O => true
  | S n' => verify_twin_pair i (i + 1) && verify_twin_pairs n' (i + 2)
  end.

Definition verify_twin_halfedges_successive : bool :=
  verify_twin_pairs (Nat.div2 (num_edges vd + 1)) 0.

(** [reset_inside_outside_annotations]. *)
Definition reset_inside_outside_annotations : Colors :=
  mkColors (map (fun _ => VertexUnknown) (vertices vd))
           (map (fun _ => EdgeUnknown) (edges vd))
           (map (fun _ => CellUnknown) (cells vd)).

(** The lambda [annotate_vertex]. *)
Definition annotate_vertex (k : Colors) (v : nat) (c : VertexCategory) : option Colors :=
  let vc := vertex_category k v in
  assert! (vertex_category_eqb vc VertexUnknown || vertex_category_eqb vc c) ;;
  assert! (negb (vertex_category_eqb c VertexUnknown)) ;;
  Some (set_vertex_category k v c).

(** The lambda [annotate_edge]. *)
Definition annotate_edge (k : Colors) (e : nat) (c : EdgeCategory) : option Colors :=
  let ec := edge_category k e in
  assert! (edge_category_eqb ec EdgeUnknown || edge_category_eqb ec c) ;;
  assert! (negb (edge_category_eqb c EdgeUnknown)) ;;
  Some (set_edge_category k e c).

(** The lambda [annotate_cell]; the boolean tells whether the category of
    the cell was modified. *)
Definition annotate_cell (k : Colors) (c : nat) (new_cell_category : CellCategory)
  : option (Colors * bool) :=
  let cc := cell_category k c in
  assert! (negb (cell_category_eqb new_cell_category CellUnknown)) ;;
  match cc with
  | CellBoundary => Some (k, false)
  | _ =>
      let new_cell_category :=
        match cc, new_cell_category with
        | CellOutside, CellInside => CellBoundary
        | CellInside, CellOutside => CellBoundary
        | _, n => n
        end in
      if negb (cell_category_eqb cc new_cell_category)
      then Some (set_cell_category k c new_cell_category, true)
      else Some (k, false)
  end.

(** [coord_t(v->x() + 0.5) == pt.x() && coord_t(v->y() + 0.5) == pt.y()]. *)
Definition rounds_to (v : nat) (pt : Point) : bool :=
  Z.eqb (to_coord (v_x (vertex_at vd v) + half)) (px pt)
  && Z.eqb (to_coord (v_y (vertex_at vd v) + half)) (py pt).

Definition inside_outside (side_positive : bool) : VertexCategory :=
  if side_positive then VertexOutside else VertexInside.

Definition edge_of_vertex_category (vc : VertexCategory) : EdgeCategory :=
  match vc with VertexOutside => PointsOutside | _ => PointsInside end.

Definition cell_of_vertex_category (vc : VertexCategory) : CellCategory :=
  match vc with VertexOutside => CellOutside | _ => CellInside end.

(** The contour point an end of the edge lies on, if any
    ([pt_on_contour]), for the segment cell [cell] found for [edge]. *)
Definition find_pt_on_contour (edge cell_ cell2 : nat) (line : Line) : option (option Point) :=
  if Nat.eqb cell_ (cell vd edge) && contains_segment vd (cell vd (twin vd edge)) then
    (* Constrained bisector of two segments. *)
    assert! (is_linear vd edge) ;;
    let line2 := line_at lines (source_index vd cell2) in
    if point_eqb (la line) (lb line2) then Some (Some (la line))
    else if point_eqb (lb line) (la line2) then Some (Some (lb line))
    else Some None
  else if is_secondary vd edge then
    assert! (is_linear vd edge) ;;
    assert! (negb (Bool.eqb (contains_point vd (cell vd edge))
                     (contains_point vd (cell vd (twin vd edge))))) ;;
    let line2 := line_at lines (source_index vd cell2) in
    Some (Some (contour_point vd cell2 line2))
  else Some None.

(** Whether [v1] is the end of the edge on the contour point. *)
Definition find_v1_on_contour (v0 v1 : nat) (pt : Point) : option bool :=
  if rounds_to v0 pt then
    if rounds_to v1 pt then
      (* The degenerate case: both ends round to the contour point. *)
      assert! false ;;
      let vec0 := vsub (vertex_point vd v0) (cast pt) in
      let vec1 := vsub (vertex_point vd v1) (cast pt) in
      Some (squaredNorm vec0 >? squaredNorm vec1)
    else Some false
  else
    assert! (rounds_to v1 pt) ;;
    Some true.

(** First loop of [annotate_inside_outside], the body for one half-edge. *)
Definition annotate_from_segments (k : Colors) (edge : nat) : option Colors :=
  match vertex1 vd edge with
  | None =>
      (* Infinite edge. *)
      assert! (is_infinite vd edge) ;;
      assert! (is_linear vd edge) ;;
      match vertex0 vd edge with
      | None => None
      | Some v0 =>
          let? k := annotate_edge k edge PointsOutside in
          let? k := annotate_edge k (twin vd edge) PointsToContour in
          let? k := annotate_vertex k v0 VertexOnContour in
          if is_secondary vd edge then
            let cell_ := cell vd edge in
            let cell2 := cell vd (twin vd edge) in
            let '(cell_, cell2) :=
              if contains_segment vd cell_ then (cell2, cell_) else (cell_, cell2) in
            assert! (contains_point vd cell_) ;;
            let? (k, _) := annotate_cell k cell_ CellOutside in
            assert! (contains_segment vd cell2) ;;
            let? (k, _) := annotate_cell k cell2 CellBoundary in
            Some k
          else Some k
      end
  | Some v1 =>
      match vertex0 vd edge with
      | None => Some k
      | Some v0 =>
          assert! (is_finite vd edge) ;;
          let cell_ := cell vd edge in
          let cell_ := if contains_segment vd cell_ then cell_ else cell vd (twin vd edge) in
          if contains_segment vd cell_ then
            let line := line_at lines (source_index vd cell_) in
            let cell2 := if Nat.eqb cell_ (cell vd edge)
                         then cell vd (twin vd edge) else cell vd edge in
            let? pt_on_contour := find_pt_on_contour edge cell_ cell2 line in
            let? v1_on_contour :=
              match pt_on_contour with
              | Some pt => find_v1_on_contour v0 v1 pt
              | None => Some false
              end in
            if v1_on_contour then
              (* Edge pointing to a contour point. *)
              let? k := annotate_edge k edge PointsToContour in
              annotate_vertex k v1 VertexOnContour
            else
              let l0 := cast (la line) in
              let lv := cast (point_sub (lb line) (la line)) in
              let side := cross2 (vsub (vertex_point vd v1) l0) lv in
              assert! (negb (side =? lit 0)) ;;
              let vc := inside_outside (side >? lit 0) in
              let? k := annotate_vertex k v1 vc in
              let? k := annotate_edge k edge (edge_of_vertex_category vc) in
              let? k :=
                match pt_on_contour with
                | Some _ =>
                    let? k := annotate_vertex k v0 VertexOnContour in
                    annotate_edge k (twin vd edge) PointsToContour
                | None => Some k
                end in
              assert! (contains_segment vd cell_) ;;
              let on_contour := match pt_on_contour with Some _ => true | None => false end in
              let? (k, _) := annotate_cell k cell_
                  (if on_contour then CellBoundary else cell_of_vertex_category vc) in
              let? (k, _) := annotate_cell k cell2
                  (if on_contour && contains_segment vd cell2
                   then CellBoundary else cell_of_vertex_category vc) in
              Some k
          else Some k
      end
  end.

(** Second loop of [annotate_inside_outside], the body for one half-edge:
    one round of expansion over the edges separating two point sites.
    The state is the categories and [cell_queue]. *)
Definition annotate_expand (st : Colors * list nat) (edge : nat) : option (Colors * list nat) :=
  let '(k, cell_queue) := st in
  assert! (Bool.eqb (edge_category_eqb (edge_category k edge) EdgeUnknown)
             (edge_category_eqb (edge_category k (twin vd edge)) EdgeUnknown)) ;;
  if edge_category_eqb (edge_category k edge) EdgeUnknown then
    assert! (is_finite vd edge) ;;
    let cell_ := cell vd edge in
    let cell2 := cell vd (twin vd edge) in
    assert! (contains_point vd cell_ && contains_point vd cell2) ;;
    match vertex0 vd edge with
    | None => None
    | Some v0 =>
        let vc := vertex_category k v0 in
        if negb (vertex_category_eqb vc VertexUnknown) then
          assert! (negb (vertex_category_eqb vc VertexOnContour)) ;;
          match vertex1 vd edge with
          | None => None
          | Some v1 =>
              (* Propagate. *)
              let? k := annotate_vertex k v1 vc in
              let ec_new := edge_of_vertex_category vc in
              let? k := annotate_edge k edge ec_new in
              let? k := annotate_edge k (twin vd edge) ec_new in
              let cc := cell_category k cell_ in
              let cc2 := cell_category k cell2 in
              let cc_new := cell_of_vertex_category vc in
              assert! (negb (cell_category_eqb cc CellBoundary)
                       && negb (cell_category_eqb cc2 CellBoundary)) ;;
              assert! (cell_category_eqb cc CellUnknown || cell_category_eqb cc cc_new) ;;
              let? (k, cell_queue) :=
                if negb (cell_category_eqb cc cc_new) then
                  let? (k, _) := annotate_cell k cell_ cc_new in
                  Some (k, cell_queue ++ [cell_])
                else Some (k, cell_queue) in
              if negb (cell_category_eqb cc2 cc_new) then
                let? (k, _) := annotate_cell k cell2 cc_new in
                Some (k, cell_queue ++ [cell2])
              else Some (k, cell_queue)
          end
        else Some (k, cell_queue)
    end
  else Some (k, cell_queue).

(** The seed fill, the body of its inner loop for one half-edge of the cell
    taken from the queue, whose category is [cc]. *)
Definition fill_edge (cc : CellCategory) (st : Colors * list nat) (edge : nat)
  : option (Colors * list nat) :=
  let '(k, cell_queue) := st in
  let ec_new := match cc with CellOutside => PointsOutside | _ => PointsInside end in
  if edge_category_eqb (edge_category k edge) EdgeUnknown then
    assert! (contains_point vd (cell vd edge) && contains_point vd (cell vd (twin vd edge))) ;;
    let? k := annotate_edge k edge ec_new in
    let? k := annotate_edge k (twin vd edge) ec_new in
    let cell2 := cell vd (twin vd edge) in
    let cc2 := cell_category k cell2 in
    assert! (cell_category_eqb cc2 CellUnknown || cell_category_eqb cc2 cc) ;;
    if negb (cell_category_eqb cc2 cc) then
      let? (k, _) := annotate_cell k cell2 cc in
      Some (k, cell_queue ++ [cell2])
    else Some (k, cell_queue)
  else
    assert! (match vertex0 vd edge with
             | None => true
             | Some v => negb (vertex_category_eqb (vertex_category k v) VertexUnknown)
             end) ;;
    assert! (match vertex1 vd edge with
             | None => true
             | Some v => negb (vertex_category_eqb (vertex_category k v) VertexUnknown)
             end) ;;
    assert! (negb (edge_category_eqb (edge_category k (twin vd edge)) EdgeUnknown)) ;;
    assert! (negb (cell_category_eqb (cell_category k (cell vd edge)) CellUnknown)) ;;
    assert! (negb (cell_category_eqb (cell_category k (cell vd (twin vd edge))) CellUnknown)) ;;
    Some (k, cell_queue).

(** [do { body(edge); edge = edge->next(); } while (edge != first_edge)]
    around a cell.  A cycle of [next] is no longer than the array of
    edges, which bounds the walk; a [next] that never comes back to
    [first_edge] makes the source loop forever, and the walk fail. *)
Fixpoint around_cell {S : Type} (fuel : nat) (body : S -> nat -> option S)
    (first_edge edge : nat) (st : S) : option S :=
  match fuel with
  | O => None
  | Datatypes.S fuel' =>
      let? st := body st edge in
      let edge := next vd edge in
      if Nat.eqb edge first_edge then Some st
      else around_cell fuel' body first_edge edge st
  end.

(** [while (! cell_queue.empty())] of the seed fill.  Every cell pushed
    follows the annotation of a half-edge that was [Unknown], so the loop
    runs at most [length cell_queue + num_edges] times. *)
Fixpoint seed_fill (fuel : nat) (st : Colors * list nat) : option Colors :=
  let '(k, cell_queue) := st in
  match rev cell_queue with
  | [] => Some k
  | cell_ :: rest =>
      match fuel with
      | O => None
      | Datatypes.S fuel' =>
          let cc := cell_category k cell_ in
          assert! (cell_category_eqb cc CellOutside || cell_category_eqb cc CellInside) ;;
          let first_edge := incident_edge vd cell_ in
          let? st := around_cell (num_edges vd) (fill_edge cc) first_edge first_edge
                       (k, rev rest) in
          seed_fill fuel' st
      end
  end.

(** [for (const VD::edge_type &edge : vd.edges())] with a body that may
    fail. *)
Fixpoint for_edges {S : Type} (body : S -> nat -> option S) (n i : nat) (st : S) : option S :=
  match n with
  | O => Some st
  | Datatypes.S n' =>
      let? st := body st i in
      for_edges body n' (Datatypes.S i) st
  end.

(** The counters of [debug::verify_inside_outside_annotations]. *)
Record Counts : Type := mkCounts {
  num_vertices_on_contour : nat;
  num_vertices_inside : nat;
  num_vertices_outside : nat;
  num_edges_point_to_contour : nat;
  num_edges_point_inside : nat;
  num_edges_point_outside : nat
}.

Definition count_edge (n : Counts) (ec : EdgeCategory) : Counts :=
  match ec with
  | PointsInside =>
      mkCounts (num_vertices_on_contour n) (num_vertices_inside n) (num_vertices_outside n)
        (num_edges_point_to_contour n) (Datatypes.S (num_edges_point_inside n))
        (num_edges_point_outside n)
  | PointsOutside =>
      mkCounts (num_vertices_on_contour n) (num_vertices_inside n) (num_vertices_outside n)
        (num_edges_point_to_contour n) (num_edges_point_inside n)
        (Datatypes.S (num_edges_point_outside n))
  | PointsToContour =>
      mkCounts (num_vertices_on_contour n) (num_vertices_inside n) (num_vertices_outside n)
        (Datatypes.S (num_edges_point_to_contour n)) (num_edges_point_inside n)
        (num_edges_point_outside n)
  | EdgeUnknown => n
  end.

Definition count_vertex (n : Counts) (vc : VertexCategory) : Counts :=
  match vc with
  | VertexInside =>
      mkCounts (num_vertices_on_contour n) (Datatypes.S (num_vertices_inside n))
        (num_vertices_outside n)
        (num_edges_point_to_contour n) (num_edges_point_inside n) (num_edges_point_outside n)
  | VertexOutside =>
      mkCounts (num_vertices_on_contour n) (num_vertices_inside n)
        (Datatypes.S (num_vertices_outside n))
        (num_edges_point_to_contour n) (num_edges_point_inside n) (num_edges_point_outside n)
  | VertexOnContour =>
      mkCounts (Datatypes.S (num_vertices_on_contour n)) (num_vertices_inside n)
        (num_vertices_outside n)
        (num_edges_point_to_contour n) (num_edges_point_inside n) (num_edges_point_outside n)
  | VertexUnknown => n
  end.

(** The assertions on the counters of a cell of category [cc], as the
    [switch (cc)] after the walk around the cell states them. *)
Definition counts_ok (cc : CellCategory) (is_segment_cell : bool) (n : Counts) : bool :=
  match cc with
  | CellBoundary =>
      is_segment_cell
      && Nat.eqb (num_edges_point_to_contour n) 2
      && Nat.eqb (num_vertices_on_contour n) 2
      && Nat.ltb 0 (num_vertices_inside n)
      && Nat.ltb 0 (num_vertices_outside n)
      && Nat.ltb 0 (num_edges_point_inside n)
      && Nat.ltb 0 (num_edges_point_outside n)
  | CellInside =>
      Nat.leb (num_vertices_on_contour n) 1
      && Nat.leb (num_edges_point_to_contour n) 1
      && Nat.ltb 0 (num_vertices_inside n)
      && Nat.eqb (num_vertices_outside n) 0
      && Nat.ltb 0 (num_edges_point_inside n)
      && Nat.eqb (num_edges_point_outside n) 0
  | CellOutside =>
      Nat.leb (num_vertices_on_contour n) 1
      && Nat.leb (num_edges_point_to_contour n) 1
      && Nat.eqb (num_vertices_inside n) 0
      && Nat.ltb 0 (num_vertices_outside n)
      && Nat.eqb (num_edges_point_inside n) 0
      && Nat.ltb 0 (num_edges_point_outside n)
  | CellUnknown => false
  end.

(** The category the walk counts for the head of [edge]: a null head is
    outside. *)
Definition head_category (k : Colors) (edge : nat) : VertexCategory :=
  match vertex1 vd edge with
  | None => VertexOutside
  | Some v => vertex_category k v
  end.

(** The walk of [debug::verify_inside_outside_annotations] around [cell_],
    the body for one half-edge.  The [switch (cc)] inside the walk
    repeats, at every half-edge, the assertions on the counters reached
    so far. *)
Definition verify_edge (k : Colors) (cell_ : nat) (n : Counts) (edge : nat) : option Counts :=
  let cc := cell_category k cell_ in
  let ec := edge_category k edge in
  if edge_category_eqb ec EdgeUnknown then None else
  let n := count_edge n ec in
  let vc := head_category k edge in
  if vertex_category_eqb vc VertexUnknown then None else
  let n := count_vertex n vc in
  let cell_other := cell vd (twin vd edge) in
  let cc_other := cell_category k cell_other in
  if cell_category_eqb cc_other CellUnknown then None else
  if (match cc with
      | CellBoundary =>
          negb (cell_category_eqb cc_other CellBoundary) || contains_segment vd cell_other
      | CellInside =>
          cell_category_eqb cc_other CellInside || cell_category_eqb cc_other CellBoundary
      | CellOutside =>
          cell_category_eqb cc_other CellOutside || cell_category_eqb cc_other CellBoundary
      | CellUnknown => false
      end) && counts_ok cc (contains_segment vd cell_) n
  then Some n else None.

(** The counters of a cell after the walk around it, without the
    assertions. *)
Definition cell_counts (k : Colors) (cell_ : nat) : option Counts :=
  let first_edge := incident_edge vd cell_ in
  around_cell (num_edges vd)
    (fun n edge => Some (count_vertex (count_edge n (edge_category k edge)) (head_category k edge)))
    first_edge first_edge (mkCounts 0 0 0 0 0 0).

Definition verify_cell (k : Colors) (cell_ : nat) : bool :=
  let first_edge := incident_edge vd cell_ in
  match around_cell (num_edges vd) (verify_edge k cell_) first_edge first_edge
          (mkCounts 0 0 0 0 0 0) with
  | Some n => counts_ok (cell_category k cell_) (contains_segment vd cell_) n
  | None => false
  end.

(** Every vertex, half-edge and cell has a category: the first three
    loops of [debug::verify_inside_outside_annotations]. *)
Definition all_annotated (k : Colors) : bool :=
  forallb (fun v => negb (vertex_category_eqb (vertex_category k v) VertexUnknown))
    (seq 0 (length (vertices vd)))
  && forallb (fun e => negb (edge_category_eqb (edge_category k e) EdgeUnknown))
       (seq 0 (length (edges vd)))
  && forallb (fun c => negb (cell_category_eqb (cell_category k c) CellUnknown))
       (seq 0 (length (cells vd))).

(** [debug::verify_inside_outside_annotations]: whether all of its
    assertions hold. *)
Definition verify_inside_outside_annotations (k : Colors) : bool :=
  all_annotated k && forallb (verify_cell k) (seq 0 (length (cells vd))).

(** [annotate_inside_outside]. *)
Definition annotate_inside_outside : option Colors :=
  assert! verify_twin_halfedges_successive ;;
  let k := reset_inside_outside_annotations in
  let? k := for_edges annotate_from_segments (num_edges vd) 0 k in
  let? (k, cell_queue) := for_edges annotate_expand (num_edges vd) 0 (k, []) in
  let? k := seed_fill (length cell_queue + num_edges vd) (k, cell_queue) in
  assert! (verify_inside_outside_annotations k) ;;
  Some k.

End Annotation.


(** ** A triangle and an L-shaped hexagon *)

(** The Voronoi diagram of the triangle (0,0) (4000,0) (0,3000),
    counter-clockwise: three segment cells, three point cells, nine pairs
    of half-edges; the inner vertex is the incentre (1000,1000). *)
Definition triangle_lines : Lines :=
  [ mkLine (mkPoint 0 0) (mkPoint 4000 0);
    mkLine (mkPoint 4000 0) (mkPoint 0 3000);
    mkLine (mkPoint 0 3000) (mkPoint 0 0) ]%Z.

Definition triangle_vertices {T : Type} `{Scalar T} : list (Vertex T) :=
  [ mkVertex (lit 0) (lit 0) 0  (* 0: A *);
    mkVertex (lit 4000) (lit 0) 6  (* 1: B *);
    mkVertex (lit 0) (lit 3000) 12  (* 2: C *);
    mkVertex (lit 1000) (lit 1000) 5  (* 3: I *) ].

Definition triangle_edges : list Edge :=
  [ mkEdge (Some 0) 1 7 5 0 true false  (* 0: A -> inf, cell s0 | cA *);
    mkEdge None 0 2 2 3 true false  (* 1: inf -> A, cell cA | s0 *);
    mkEdge (Some 0) 3 1 1 3 true false  (* 2: A -> inf, cell cA | s2 *);
    mkEdge None 2 4 14 2 true false  (* 3: inf -> A, cell s2 | cA *);
    mkEdge (Some 0) 5 17 3 2 true true  (* 4: A -> I, cell s2 | s0 *);
    mkEdge (Some 3) 4 0 10 0 true true  (* 5: I -> A, cell s0 | s2 *);
    mkEdge (Some 1) 7 9 9 4 true false  (* 6: B -> inf, cell cB | s0 *);
    mkEdge None 6 10 0 0 true false  (* 7: inf -> B, cell s0 | cB *);
    mkEdge (Some 1) 9 13 11 1 true false  (* 8: B -> inf, cell s1 | cB *);
    mkEdge None 8 6 6 4 true false  (* 9: inf -> B, cell cB | s1 *);
    mkEdge (Some 1) 11 5 7 0 true true  (* 10: B -> I, cell s0 | s1 *);
    mkEdge (Some 3) 10 8 16 1 true true  (* 11: I -> B, cell s1 | s0 *);
    mkEdge (Some 2) 13 15 15 5 true false  (* 12: C -> inf, cell cC | s1 *);
    mkEdge None 12 16 8 1 true false  (* 13: inf -> C, cell s1 | cC *);
    mkEdge (Some 2) 15 3 17 2 true false  (* 14: C -> inf, cell s2 | cC *);
    mkEdge None 14 12 12 5 true false  (* 15: inf -> C, cell cC | s2 *);
    mkEdge (Some 2) 17 11 13 1 true true  (* 16: C -> I, cell s1 | s2 *);
    mkEdge (Some 3) 16 14 4 2 true true  (* 17: I -> C, cell s2 | s1 *) ].

Definition triangle_cells : list Cell :=
  [ mkCell 7 0 SOURCE_CATEGORY_INITIAL_SEGMENT  (* 0: s0 *);
    mkCell 13 1 SOURCE_CATEGORY_INITIAL_SEGMENT  (* 1: s1 *);
    mkCell 3 2 SOURCE_CATEGORY_INITIAL_SEGMENT  (* 2: s2 *);
    mkCell 1 0 SOURCE_CATEGORY_SEGMENT_START_POINT  (* 3: cA *);
    mkCell 9 1 SOURCE_CATEGORY_SEGMENT_START_POINT  (* 4: cB *);
    mkCell 15 2 SOURCE_CATEGORY_SEGMENT_START_POINT  (* 5: cC *) ].

Definition triangle_vd {T : Type} `{Scalar T} : VD T :=
  mkVD triangle_vertices triangle_edges triangle_cells.

(** The Voronoi diagram of the L-shaped hexagon (0,0) (18000,0)
    (18000,6000) (9000,6000) (9000,21000) (0,21000), counter-clockwise:
    six segment cells and six point cells, 24 pairs of half-edges, 13
    vertices. *)
Definition lshape_lines : Lines :=
  [ mkLine (mkPoint 0 0) (mkPoint 18000 0);
    mkLine (mkPoint 18000 0) (mkPoint 18000 6000);
    mkLine (mkPoint 18000 6000) (mkPoint 9000 6000);
    mkLine (mkPoint 9000 6000) (mkPoint 9000 21000);
    mkLine (mkPoint 9000 21000) (mkPoint 0 21000);
    mkLine (mkPoint 0 21000) (mkPoint 0 0) ]%Z.

Definition lshape_vertices {T : Type} `{Scalar T} : list (Vertex T) :=
  [ mkVertex (lit 0) (lit 0) 0  (* 0: O *);
    mkVertex (lit 18000) (lit 0) 6  (* 1: E *);
    mkVertex (lit 18000) (lit 6000) 12  (* 2: P *);
    mkVertex (lit 9000) (lit 6000) 18  (* 3: R *);
    mkVertex (lit 9000) (lit 21000) 34  (* 4: Q *);
    mkVertex (lit 0) (lit 21000) 2  (* 5: N *);
    mkVertex (lit 15000) (lit 3000) 11  (* 6: a1 *);
    mkVertex (lit 9000) (lit 3000) 17  (* 7: a2 *);
    mkVertex (lit 4608) (lit 4608) 4  (* 8: a3 *);
    mkVertex (lit 4500) (lit 6000) 23  (* 9: a4 *);
    mkVertex (lit 4500) (lit 16500) 27  (* 10: a5 *);
    mkVertex (lit 18000) (lit 15000) 39  (* 11: v1 *);
    mkVertex (lit 26000) (lit 21000) 43  (* 12: v2 *) ].

Definition lshape_edges : list Edge :=
  [ mkEdge (Some 0) 1 7 4 0 true false  (* 0: O -> inf, cell B | c00 *);
    mkEdge None 0 32 32 6 true false  (* 1: inf -> O, cell c00 | B *);
    mkEdge (Some 5) 3 33 29 5 true false  (* 2: N -> inf, cell W | c07 *);
    mkEdge None 2 30 30 11 true false  (* 3: inf -> N, cell c07 | W *);
    mkEdge (Some 8) 5 0 20 0 true true  (* 4: a3 -> O, cell B | W *);
    mkEdge (Some 0) 4 22 33 5 true true  (* 5: O -> a3, cell W | B *);
    mkEdge (Some 1) 7 9 9 7 true false  (* 6: E -> inf, cell c60 | B *);
    mkEdge None 6 10 0 0 true false  (* 7: inf -> E, cell B | c60 *);
    mkEdge (Some 1) 9 13 11 1 true false  (* 8: E -> inf, cell S1 | c60 *);
    mkEdge None 8 6 6 7 true false  (* 9: inf -> E, cell c60 | S1 *);
    mkEdge (Some 1) 11 16 7 0 true true  (* 10: E -> a1, cell B | S1 *);
    mkEdge (Some 6) 10 8 14 1 true true  (* 11: a1 -> E, cell S1 | B *);
    mkEdge (Some 2) 13 47 39 8 true false  (* 12: P -> inf, cell cP | S1 *);
    mkEdge None 12 14 8 1 true false  (* 13: inf -> P, cell S1 | cP *);
    mkEdge (Some 2) 15 11 13 1 true true  (* 14: P -> a1, cell S1 | H *);
    mkEdge (Some 6) 14 38 17 2 true true  (* 15: a1 -> P, cell H | S1 *);
    mkEdge (Some 6) 17 20 10 0 true true  (* 16: a1 -> a2, cell B | H *);
    mkEdge (Some 7) 16 15 18 2 true true  (* 17: a2 -> a1, cell H | B *);
    mkEdge (Some 3) 19 17 41 2 true false  (* 18: R -> a2, cell H | cR *);
    mkEdge (Some 7) 18 25 21 9 true false  (* 19: a2 -> R, cell cR | H *);
    mkEdge (Some 7) 21 4 16 0 false true  (* 20: a2 -> a3, cell B | cR *);
    mkEdge (Some 8) 20 19 23 9 false true  (* 21: a3 -> a2, cell cR | B *);
    mkEdge (Some 8) 23 26 5 5 false true  (* 22: a3 -> a4, cell W | cR *);
    mkEdge (Some 9) 22 21 25 9 false true  (* 23: a4 -> a3, cell cR | W *);
    mkEdge (Some 9) 25 40 27 3 true false  (* 24: a4 -> R, cell V | cR *);
    mkEdge (Some 3) 24 23 19 9 true false  (* 25: R -> a4, cell cR | V *);
    mkEdge (Some 9) 27 29 22 5 true true  (* 26: a4 -> a5, cell W | V *);
    mkEdge (Some 10) 26 24 34 3 true true  (* 27: a5 -> a4, cell V | W *);
    mkEdge (Some 5) 29 35 31 4 true true  (* 28: N -> a5, cell Tp | W *);
    mkEdge (Some 10) 28 2 26 5 true true  (* 29: a5 -> N, cell W | Tp *);
    mkEdge (Some 5) 31 3 3 11 true false  (* 30: N -> inf, cell c07 | Tp *);
    mkEdge None 30 28 36 4 true false  (* 31: inf -> N, cell Tp | c07 *);
    mkEdge (Some 0) 33 1 1 6 true false  (* 32: O -> inf, cell c00 | W *);
    mkEdge None 32 5 2 5 true false  (* 33: inf -> O, cell W | c00 *);
    mkEdge (Some 4) 35 27 45 3 true true  (* 34: Q -> a5, cell V | Tp *);
    mkEdge (Some 10) 34 36 28 4 true true  (* 35: a5 -> Q, cell Tp | V *);
    mkEdge (Some 4) 37 31 35 4 true false  (* 36: Q -> inf, cell Tp | cQ *);
    mkEdge None 36 44 46 10 true false  (* 37: inf -> Q, cell cQ | Tp *);
    mkEdge (Some 2) 39 41 15 2 true false  (* 38: P -> v1, cell H | cP *);
    mkEdge (Some 11) 38 12 43 8 true false  (* 39: v1 -> P, cell cP | H *);
    mkEdge (Some 3) 41 42 24 3 true true  (* 40: R -> v1, cell V | H *);
    mkEdge (Some 11) 40 18 38 2 true true  (* 41: v1 -> R, cell H | V *);
    mkEdge (Some 11) 43 45 40 3 false true  (* 42: v1 -> v2, cell V | cP *);
    mkEdge (Some 12) 42 39 47 8 false true  (* 43: v2 -> v1, cell cP | V *);
    mkEdge (Some 4) 45 46 37 10 true false  (* 44: Q -> v2, cell cQ | V *);
    mkEdge (Some 12) 44 34 42 3 true false  (* 45: v2 -> Q, cell V | cQ *);
    mkEdge (Some 12) 47 37 44 10 true true  (* 46: v2 -> inf, cell cQ | cP *);
    mkEdge None 46 43 12 8 true true  (* 47: inf -> v2, cell cP | cQ *) ].

Definition lshape_cells : list Cell :=
  [ mkCell 0 0 SOURCE_CATEGORY_INITIAL_SEGMENT  (* 0: B *);
    mkCell 8 1 SOURCE_CATEGORY_INITIAL_SEGMENT  (* 1: S1 *);
    mkCell 38 2 SOURCE_CATEGORY_INITIAL_SEGMENT  (* 2: H *);
    mkCell 40 3 SOURCE_CATEGORY_INITIAL_SEGMENT  (* 3: V *);
    mkCell 36 4 SOURCE_CATEGORY_INITIAL_SEGMENT  (* 4: Tp *);
    mkCell 2 5 SOURCE_CATEGORY_INITIAL_SEGMENT  (* 5: W *);
    mkCell 1 0 SOURCE_CATEGORY_SEGMENT_START_POINT  (* 6: c00 *);
    mkCell 9 1 SOURCE_CATEGORY_SEGMENT_START_POINT  (* 7: c60 *);
    mkCell 12 2 SOURCE_CATEGORY_SEGMENT_START_POINT  (* 8: cP *);
    mkCell 19 3 SOURCE_CATEGORY_SEGMENT_START_POINT  (* 9: cR *);
    mkCell 44 4 SOURCE_CATEGORY_SEGMENT_START_POINT  (* 10: cQ *);
    mkCell 3 5 SOURCE_CATEGORY_SEGMENT_START_POINT  (* 11: c07 *) ].

Definition lshape_vd {T : Type} `{Scalar T} : VD T :=
  mkVD lshape_vertices lshape_edges lshape_cells.


(** ** Signed distances of the Voronoi vertices *)

Section Distances.

Context {T : Type} `{Scalar T}.
Local Open Scope scalar_scope.

Variable NDEBUG : bool.
Local Notation "'assert!' b ;; k" := (assert NDEBUG b k)
  (at level 61, b at next level, right associativity).

Variable vd : VD T.
Variable lines : Lines.

(** The walk [do { ... edge = edge->rot_next(); } while (edge != first_edge)]
    around a vertex, looking for a point cell: [Some (Some c)] when the
    cell [c] of a half-edge out of the vertex is a point cell (the first
    one met), [Some None] when the walk comes back to [first_edge]
    without one.  The walk is bounded by the number of half-edges. *)
Fixpoint find_point_cell (fuel : nat) (first_edge edge : nat) : option (option nat) :=
  match fuel with
  | O => None
  | S fuel' =>
      if contains_point vd (cell vd edge) then Some (Some (cell vd edge))
      else
        let edge := rot_next vd edge in
        if Nat.eqb edge first_edge then Some None
        else find_point_cell fuel' first_edge edge
  end.

(** The [n]-th half-edge around a vertex, from [edge] by [rot_next]. *)
Definition rot_iter (n : nat) (edge : nat) : nat := Nat.iter n (rot_next vd) edge.

(** The distance of a vertex from its nearest site, before the sign. *)
Definition site_distance (vertex : nat) : option T :=
  let first_edge := v_incident_edge (vertex_at vd vertex) in
  let? point_cell := find_point_cell (num_edges vd) first_edge first_edge in
  match point_cell with
  | None =>
      (* Project the vertex onto a contour segment. *)
      let line := line_at lines (source_index vd (cell vd first_edge)) in
      Some (ray_point_distance (cast (la line)) (cast (point_sub (lb line) (la line)))
              (vertex_point vd vertex))
  | Some c =>
      (* Distance to a contour point. *)
      Some (norm (vsub (cast (contour_point_of vd c lines)) (vertex_point vd vertex)))
  end.

(** The body of the loop of [signed_vertex_distances] for one vertex. *)
Definition signed_vertex_distance (k : Colors) (vertex : nat) : option T :=
  match vertex_category k vertex with
  | VertexOnContour => Some (lit 0)
  | vc =>
      let? dist := site_distance vertex in
      Some (match vc with VertexInside => - dist | _ => dist end)
  end.

Fixpoint for_vertices (k : Colors) (n i : nat) : option (list T) :=
  match n with
  | O => Some []
  | S n' =>
      let? d := signed_vertex_distance k i in
      let? ds := for_vertices k n' (S i) in
      Some (d :: ds)
  end.

(** [signed_vertex_distances]. *)
Definition signed_vertex_distances (k : Colors) : option (list T) :=
  assert! (verify_inside_outside_annotations vd k) ;;
  for_vertices k (length (vertices vd)) 0.

End Distances.


(** ** Intersections of the offset curve with the Voronoi edges *)

(** What the loop of [edge_offset_contour_intersections] assigns to an
    entry of [out]: [out[i] = p], or [out[i].y() = 1.] (visited). *)
Inductive Write (T : Type) : Type :=
| Store (p : Vec2 T)
| Visit.
Arguments Visit {T}.

Section Solver.

Context {T : Type} `{Scalar T}.
Local Open Scope scalar_scope.

Variable NDEBUG : bool.
Local Notation "'assert!' b ;; k" := (assert NDEBUG b k)
  (at level 61, b at next level, right associativity).

Variable EPSILON : T.
Variable SCALED_EPSILON : T.

Variable vd : VD T.
Variable lines : Lines.
Variable k : Colors.
Variable vertex_distances : list T.

(** Modelled from the spec: [edge_offset_has_intersection] of
    VoronoiOffset.hpp, which is not part of the sources: an entry carries
    an intersection point unless its x is NaN (section 9, sentinel
    values). *)
Definition edge_offset_has_intersection (p : Vec2 T) : bool := negb (isnan (vx p)).

(** The initial entry [(NaN, 0)]: not classified. *)
Definition unclassified : Vec2 T := mkVec nan (lit 0).

Definition apply_write (w : Write T) (p : Vec2 T) : Vec2 T :=
  match w with
  | Store q => q
  | Visit => mkVec (vx p) (lit 1)
  end.

Definition apply_writes (ws : list (nat * Write T)) (out : list (Vec2 T)) : list (Vec2 T) :=
  fold_left (fun out iw => set_nth (fst iw) (apply_write (snd iw) (nth (fst iw) out unclassified)) out)
    ws out.

(** [outside], and [offset_distance] made positive. *)
Definition is_outside (offset_distance : T) : bool := offset_distance >? lit 0.
Definition offset_magnitude (offset_distance : T) : T :=
  if is_outside offset_distance then offset_distance else - offset_distance.

(** [d0], [d1]: the distance of an end of the edge, the largest double for
    a null vertex, negated when offsetting inwards. *)
Definition raw_distance (v : option nat) : T :=
  match v with
  | None => max_value
  | Some v => nth v vertex_distances (lit 0)
  end.
Definition end_distance (outside : bool) (v : option nat) : T :=
  if outside then raw_distance v else - raw_distance v.

Definition dmin_of (d0 d1 : T) : T := if d0 <? d1 then d0 else d1.
Definition dmax_of (d0 d1 : T) : T := if d0 <? d1 then d1 else d0.

(** The test that skips a half-edge before any intersection is looked for. *)
Definition skipped (outside : bool) (D : T) (edge : nat) : bool :=
  (raw_distance (vertex0 vd edge) =? raw_distance (vertex1 vd edge))
  || (D >=? dmax_of (end_distance outside (vertex0 vd edge))
                    (end_distance outside (vertex1 vd edge))).

(** An unconstrained (infinite) edge, [v1 == nullptr]. *)
Definition infinite_edge_writes (D dmin : T) (edge : nat) (v0 : option nat)
  : option (list (nat * Write T)) :=
  let cell_ := cell vd edge in
  let cell2 := cell vd (twin vd edge) in
  let line0 := line_at lines (source_index vd cell_) in
  let line1 := line_at lines (source_index vd cell2) in
  let edge_idx2 := twin vd edge in
  assert! (is_infinite vd edge) ;;
  assert! (is_linear vd edge) ;;
  if D >=? dmin then
    if contains_point vd cell_ && contains_point vd cell2 then
      assert! (negb (is_secondary vd edge)) ;;
      let pt0 := contour_point vd cell_ line0 in
      let pt1 := contour_point vd cell2 line1 in
      let dir := mkVec (of_coord (py pt0 - py pt1)) (of_coord (px pt1 - px pt0)) in
      let? pt := option_map (vertex_point vd) v0 in
      let? t := first_circle_segment_intersection_parameter NDEBUG EPSILON (cast pt0) D pt dir in
      assert! (t >? lit 0) ;;
      Some [(edge, Store (vadd pt (vscale t dir))); (edge_idx2, Visit)]
    else
      assert! (negb (Bool.eqb (contains_point vd cell_) (contains_point vd cell2))) ;;
      assert! (is_secondary vd edge) ;;
      let ipt := if contains_segment vd cell_ then contour_point vd cell2 line1
                 else contour_point vd cell_ line0 in
      assert! (if contains_segment vd cell_
               then point_eqb ipt (la line0) || point_eqb ipt (lb line0)
               else point_eqb ipt (la line1) || point_eqb ipt (lb line1)) ;;
      assert! (match v0 with
               | Some v0 => norm (vsub (vertex_point vd v0) (cast ipt)) <? SCALED_EPSILON
               | None => false
               end) ;;
      let line := if contains_segment vd cell_ then line0 else line1 in
      assert! (point_eqb (la line) ipt || point_eqb (lb line) ipt) ;;
      let n := mkVec (of_coord (py (lb line) - py (la line)))
                     (of_coord (px (la line) - px (lb line))) in
      Some [(edge, Store (vadd (cast ipt) (vscale D (normalized n)))); (edge_idx2, Visit)]
  else Some [(edge_idx2, Visit)].

(** A bisector of two segments or a secondary edge: the distance is linear
    along the edge.  [None] inside [Some] stands for [done == false]. *)
Definition linear_edge_writes (D d0 d1 dmin dmax : T) (bisector : bool) (edge : nat)
    (v0 : option nat) (v1 : nat) : option (option (list (nat * Write T))) :=
  let edge_idx2 := twin vd edge in
  assert! (is_linear vd edge) ;;
  assert! (if is_secondary vd edge then
             negb (Bool.eqb (contains_point vd (cell vd edge))
                     (contains_point vd (cell vd (twin vd edge))))
             && negb (Bool.eqb
                        (match v0 with
                         | Some v0 => vertex_category_eqb (vertex_category k v0) VertexOnContour
                         | None => false
                         end)
                        (vertex_category_eqb (vertex_category k v1) VertexOnContour))
             && (dmin =? lit 0)
           else true) ;;
  if negb bisector || (negb (dmin =? dmax) && (D >=? dmin)) then
    let t := (D - dmin) / (dmax - dmin) in
    let t := clamp (lit 0) (lit 1) t in
    let? p0 := option_map (vertex_point vd) v0 in
    if d1 <? d0 then
      Some (Some [(edge_idx2, Store (lerp (vertex_point vd v1) p0 t));
                  (edge, Visit)])
    else
      Some (Some [(edge, Store (lerp p0 (vertex_point vd v1) t));
                  (edge_idx2, Visit)])
  else Some None.

(** The minimum of the squared distance along a point - segment or point -
    point edge, where it is below that of the end points ([dmin_new]). *)
Definition refined_dmin (point_vs_segment : bool) (line : Line) (p0 p1 px_ : Vec2 T) (dmin : T) : T :=
  if point_vs_segment then
    (* Project on the source segment. *)
    let pt_line := cast (la line) in
    let v_line := cast (point_sub (lb line) (la line)) in
    let t0 := dot (vsub p0 pt_line) v_line in
    let t1 := dot (vsub p1 pt_line) v_line in
    let tx := dot (vsub px_ pt_line) v_line in
    if ((tx >=? t0) && (tx <=? t1)) || ((tx >=? t1) && (tx <=? t0)) then
      let ft := vadd pt_line (vscale (tx / squaredNorm v_line) v_line) in
      squaredNorm (vsub ft px_) * quarter
    else dmin
  else
    (* Project the point site onto the Voronoi edge. *)
    let v := vsub p1 p0 in
    let l2 := squaredNorm v in
    let t := dot v (vsub px_ p0) in
    if (t >=? lit 0) && (t <=? l2) then
      let ft := vadd p0 (vscale (t / l2) v) in
      squaredNorm (vsub ft px_)
    else dmin.

(** [dmin] after the refinement. *)
Definition refined (dmin dmin_new : T) : T := if dmin_new <? dmin then dmin_new else dmin.

(** [(has_intersection, possibly_two_points)]. *)
Definition intersection_flags (D2 dmin dmin_new : T) : bool * bool :=
  if D2 >=? dmin then (true, false)
  else if dmin_new <? dmin then (D2 >=? dmin_new, D2 >=? dmin_new)
  else (false, false).

(** With two candidate points, those that fall on the edge:
    [(count, pts[0], pts[1])]. *)
Definition select_points (possibly_two_points : bool) (p0 p1 : Vec2 T) (i : Intersections T)
  : Z * Vec2 T * Vec2 T :=
  if possibly_two_points then
    let v := vsub p1 p0 in
    let l2 := squaredNorm v in
    let t0 := dot v (vsub (pts0 i) p0) in
    let t1 := dot v (vsub (pts1 i) p0) in
    let '(t0, t1, q0, q1) :=
      if t0 >? t1 then (t1, t0, pts1 i, pts0 i) else (t0, t1, pts0 i, pts1 i) in
    (* Remove points outside of the line range. *)
    if (t0 <? lit 0) || (t0 >? l2) then
      if (t1 <? lit 0) || (t1 >? l2) then (0%Z, q0, q1)
      else (1%Z, q1, q1)
    else if (t1 <? lit 0) || (t1 >? l2) then (1%Z, q0, q1)
    else (2%Z, q0, q1)
  else
    (* Take the point furthest from the end points of the edge. *)
    let d0 := s_max (squaredNorm (vsub (pts0 i) p0)) (squaredNorm (vsub (pts0 i) p1)) in
    let d1 := s_max (squaredNorm (vsub (pts1 i) p0)) (squaredNorm (vsub (pts1 i) p1)) in
    (1%Z, if d0 >? d1 then pts1 i else pts0 i, pts1 i).

(** The intersection attempted on a point - segment or point - point edge:
    the kernel is called, and of its points those on the edge are kept. *)
Definition attempt_intersection (D d0 d1 : T) (possibly_two_points point_vs_segment : bool)
    (line : Line) (pt0 pt1 : Point) (p0 p1 : Vec2 T) (edge : nat)
  : option (option (list (nat * Write T))) :=
  let edge_idx2 := twin vd edge in
  let? intersections :=
    if point_vs_segment then
      assert! (line_point_requires SCALED_EPSILON line pt0) ;;
      let i := line_point_equal_distance_points line pt0 D in
      assert! (line_point_checks SCALED_EPSILON line pt0 D i) ;;
      Some i
    else
      let i := point_point_equal_distance_points pt0 pt1 D in
      assert! (point_point_checks SCALED_EPSILON pt0 pt1 D i) ;;
      Some i in
  assert! (Z.ltb 0 (count intersections)) ;;
  if Z.eqb (count intersections) 2 then
    let '(cnt, q0, q1) := select_points possibly_two_points p0 p1 intersections in
    assert! (Z.ltb 0 cnt) ;;
    if Z.eqb cnt 2 then
      Some (Some [(edge, Store q1); (edge_idx2, Store q0)])
    else if Z.eqb cnt 1 then
      if d1 <? d0 then Some (Some [(edge_idx2, Store q0); (edge, Visit)])
      else Some (Some [(edge, Store q0); (edge_idx2, Visit)])
    else Some None
  else Some None.

(** A point - segment or point - point edge that is not secondary. *)
Definition point_edge_writes (D D2 d0 d1 dmin dmax : T) (edge : nat)
    (v0 : option nat) (v1 : nat) : option (option (list (nat * Write T))) :=
  let cell_ := cell vd edge in
  let cell2 := cell vd (twin vd edge) in
  let line0 := line_at lines (source_index vd cell_) in
  let line1 := line_at lines (source_index vd cell2) in
  assert! (contains_point vd cell_ || contains_point vd cell2) ;;
  let point_vs_segment := negb (Bool.eqb (contains_point vd cell_) (contains_point vd cell2)) in
  let pt0 := if contains_point vd cell_ then contour_point vd cell_ line0
             else contour_point vd cell2 line1 in
  let line := if contains_segment vd cell_ then line0 else line1 in
  let? p0 := option_map (vertex_point vd) v0 in
  let p1 := vertex_point vd v1 in
  let px_ := cast pt0 in
  let dmin_new := refined_dmin point_vs_segment line p0 p1 px_ dmin in
  assert! ((D2 >=? dmin)
           || ((if point_vs_segment then true else squaredNorm (vsub p1 p0) >? lit 0)
               && (dmin_new <? dmax + SCALED_EPSILON)
               && (dmin_new <? dmin + SCALED_EPSILON))) ;;
  let '(has_intersection, possibly_two_points) := intersection_flags D2 dmin dmin_new in
  if has_intersection then
    attempt_intersection D d0 d1 possibly_two_points point_vs_segment line pt0
      (contour_point vd cell2 line1) p0 p1 edge
  else Some None.

(** The body of the loop of [edge_offset_contour_intersections] for a
    half-edge that is not classified yet: what it assigns, in order.  A
    null [v0] that is dereferenced ends the run. *)
Definition edge_writes (outside : bool) (D D2 : T) (edge : nat) : option (list (nat * Write T)) :=
  if skipped outside D edge then Some []
  else
    let d0 := end_distance outside (vertex0 vd edge) in
    let d1 := end_distance outside (vertex1 vd edge) in
    let dmin := dmin_of d0 d1 in
    let dmax := dmax_of d0 d1 in
    (* Edge candidate, intersection points were not calculated yet. *)
    let v0 := vertex0 vd edge in
    assert! (match v0 with Some _ => true | None => false end) ;;
    match vertex1 vd edge with
    | None => infinite_edge_writes D dmin edge v0
    | Some v1 =>
        assert! (is_finite vd edge) ;;
        let bisector := contains_segment vd (cell vd edge)
                        && contains_segment vd (cell vd (twin vd edge)) in
        let? done :=
          if bisector || is_secondary vd edge
          then linear_edge_writes D d0 d1 dmin dmax bisector edge v0 v1
          else point_edge_writes D D2 d0 d1 dmin dmax edge v0 v1 in
        match done with
        | Some ws => Some ws
        | None => Some [(twin vd edge, Visit); (edge, Visit)]
        end
    end.

(** One round of the loop of [edge_offset_contour_intersections]. *)
Definition classify_edge (outside : bool) (D D2 : T) (out : list (Vec2 T)) (edge : nat)
  : option (list (Vec2 T)) :=
  let p := nth edge out unclassified in
  if edge_offset_has_intersection p || negb (vy p =? lit 0) then
    (* This edge was already classified. *)
    Some out
  else
    let? ws := edge_writes outside D D2 edge in
    Some (apply_writes ws out).

(** What a round of the loop for [edge] assigns: nothing; a visit of the twin; a visit of both; a
    point on one half-edge and a visit of the other; or a point on both. *)
Inductive writes_shape (edge : nat) : list (nat * Write T) -> Prop :=
| shape_none : writes_shape edge []
| shape_twin_visited : writes_shape edge [(twin vd edge, Visit)]
| shape_both_visited : writes_shape edge [(twin vd edge, Visit); (edge, Visit)]
| shape_point_here p : writes_shape edge [(edge, Store p); (twin vd edge, Visit)]
| shape_point_twin p : writes_shape edge [(twin vd edge, Store p); (edge, Visit)]
| shape_two_points q1 q0 : writes_shape edge [(edge, Store q1); (twin vd edge, Store q0)].

(** The test of the loop on an entry of [out]: the half-edge was already
    classified. *)
Definition classified (p : Vec2 T) : bool :=
  edge_offset_has_intersection p || negb (vy p =? lit 0).

(** Whether the points that the rounds of the loop store, each round
    taken for itself, have a number as their x. *)
Definition stores_numbers (outside : bool) (D D2 : T) : bool :=
  forallb (fun edge =>
             match edge_writes outside D D2 edge with
             | Some ws =>
                 forallb (fun iw => match snd iw with
                                    | Store q => edge_offset_has_intersection q
                                    | Visit => true
                                    end) ws
             | None => true
             end)
    (seq 0 (num_edges vd)).

(** [edge_offset_contour_intersections]. *)
Definition edge_offset_contour_intersections (offset_distance : T) : option (list (Vec2 T)) :=
  assert! (verify_inside_outside_annotations vd k) ;;
  let outside := is_outside offset_distance in
  let offset_distance2 := offset_distance * offset_distance in
  let D := offset_magnitude offset_distance in
  assert! (D >? lit 0) ;;
  let out := map (fun _ => unclassified) (edges vd) in
  for_edges (classify_edge outside D offset_distance2) (num_edges vd) 0 out.

End Solver.


(** ** Tracing the offset polygons *)

(** [Slic3r::Polygon]: its points. *)
Definition Polygon : Type := list Point.

(** How the walk from a seed half-edge ends: the polygon is closed (and
    the intersections it consumed are marked), or [next_offset_edge]
    returned [nullptr] with [partial] traced so far. *)
Inductive Walk (T : Type) : Type :=
| Closed (poly : Polygon) (edge_points : list (Vec2 T))
| Open (partial : Polygon).
Arguments Open {T}.

Section Tracer.

Context {T : Type} `{Scalar T}.
Local Open Scope scalar_scope.

Variable NDEBUG : bool.
Local Notation "'assert!' b ;; k" := (assert NDEBUG b k)
  (at level 61, b at next level, right associativity).

Variable EPSILON : T.
Variable SCALED_EPSILON : T.

(** The functions of [<cmath>] the tracer calls; [ceil_size x] is
    [size_t(ceil(x))]. *)
Variable m_acos : T -> T.
Variable m_cos : T -> T.
Variable m_sin : T -> T.
Variable ceil_size : T -> nat.

Variable vd : VD T.
Variable lines : Lines.

(** The lambda [next_offset_edge]: the twin of the first half-edge after
    [start_edge] around its cell whose twin carries an intersection;
    [Some None] is [nullptr].  The walk around the cell is bounded by the
    number of half-edges. *)
Fixpoint next_offset_edge_from (fuel : nat) (edge_points : list (Vec2 T))
    (start_edge edge : nat) : option (option nat) :=
  match fuel with
  | O => None
  | S fuel' =>
      if Nat.eqb edge start_edge then Some None
      else if edge_offset_has_intersection (nth (twin vd edge) edge_points unclassified)
      then Some (Some (twin vd edge))
      else next_offset_edge_from fuel' edge_points start_edge (next vd edge)
  end.

Definition next_offset_edge (edge_points : list (Vec2 T)) (start_edge : nat)
  : option (option nat) :=
  next_offset_edge_from (S (num_edges vd)) edge_points start_edge (next vd start_edge).

(** The lambda [dist_to_site]. *)
Definition dist_to_site (cell_ : nat) (point : Vec2 T) : T :=
  let line := line_at lines (source_index vd cell_) in
  if contains_point vd cell_ then
    norm (vsub (cast (contour_point vd cell_ line)) point)
  else
    norm (vsub (foot_pt (cast (la line)) (cast (point_sub (lb line) (la line))) point) point).

Definition to_point (p : Vec2 T) : Point := mkPoint (to_coord (vx p)) (to_coord (vy p)).

(** The inner points of the arc from [p1] to [p2] around [center], turned
    by [a], [a + astep], ...: the loop [for (i = 1; i < n_steps; ...)]. *)
Fixpoint arc_points (n : nat) (center v1 : Vec2 T) (a astep : T) : list Point :=
  match n with
  | O => []
  | S n' =>
      let c := m_cos a in
      let s := m_sin a in
      let p := vadd center (mkVec (c * vx v1 - s * vy v1) (s * vx v1 + c * vy v1)) in
      to_point p :: arc_points n' center v1 (a + astep) astep
  end.

(** The discretization of the arc between [p1] and [p2] in a point cell. *)
Definition discretize_arc (angle_step cos_threshold : T) (cell_ : nat) (p1 p2 : Vec2 T)
  : option (list Point) :=
  let line0 := line_at lines (source_index vd cell_) in
  let center := cast (contour_point vd cell_ line0) in
  let v1 := vsub p1 center in
  let v2 := vsub p2 center in
  let ccw := cross2 v1 v2 >? lit 0 in
  let cos_a := dot v1 v2 in
  let nrm := norm v1 * norm v2 in
  assert! (nrm >? lit 0) ;;
  if cos_a <? cos_threshold * nrm then
    (* The angle is bigger than the threshold. *)
    let cos_a := cos_a / nrm in
    assert! ((cos_a >? lit (-1) - EPSILON) && (cos_a <? lit 1 + EPSILON)) ;;
    let angle := m_acos (s_max (lit (-1)) (s_min (lit 1) cos_a)) in
    let n_steps := ceil_size (angle / angle_step) in
    let astep := angle / of_coord (Z.of_nat n_steps) in
    let astep := if ccw then astep else astep * lit (-1) in
    Some (arc_points (n_steps - 1) center v1 astep astep)
  else Some [].

(** [poly.points.emplace_back(pt_last)] unless it repeats the last point. *)
Definition push_point (poly : Polygon) (pt : Point) : Polygon :=
  match rev poly with
  | [] => [pt]
  | back :: _ => if point_eqb back pt then poly else poly ++ [pt]
  end.

(** The [do ... while (edge != start_edge)] of [offset] from a seed.  Every
    round consumes an intersection, so the number of half-edges bounds the
    rounds. *)
Fixpoint walk (fuel : nat) (offset_distance angle_step cos_threshold : T)
    (edge_points : list (Vec2 T)) (start_edge edge : nat) (last_pt : Vec2 T)
    (poly : Polygon) : option (Walk T) :=
  match fuel with
  | O => None
  | S fuel' =>
      let? next_edge := next_offset_edge edge_points edge in
      match next_edge with
      | None => Some (Open poly)
      | Some next_edge =>
          let cell_ := cell vd edge in
          let p1 := last_pt in
          let p2 := nth next_edge edge_points unclassified in
          (* Mark the intersection point as consumed. *)
          let edge_points := set_nth next_edge (mkVec nan (vy p2)) edge_points in
          assert! ((s_abs (dist_to_site cell_ p1 - offset_distance) <? SCALED_EPSILON)
                   && (s_abs (dist_to_site cell_ p2 - offset_distance) <? SCALED_EPSILON)) ;;
          let? arc :=
            if contains_point vd cell_
            then discretize_arc angle_step cos_threshold cell_ p1 p2
            else Some [] in
          let poly := push_point (poly ++ arc) (to_point p2) in
          if Nat.eqb next_edge start_edge then Some (Closed poly edge_points)
          else walk fuel' offset_distance angle_step cos_threshold edge_points
                 start_edge next_edge p2 poly
      end
  end.

(** One round of the loop over the seed half-edges: [assert(next_edge)], or
    the dereference of the null [next_edge], ends the run when the walk
    is open. *)
Definition trace_seed (offset_distance angle_step cos_threshold : T)
    (st : list (Vec2 T) * list Polygon) (seed_edge_idx : nat)
  : option (list (Vec2 T) * list Polygon) :=
  let '(edge_points, out) := st in
  let last_pt := nth seed_edge_idx edge_points unclassified in
  if edge_offset_has_intersection last_pt then
    let? w := walk (S (num_edges vd)) offset_distance angle_step cos_threshold edge_points
                seed_edge_idx seed_edge_idx last_pt [] in
    match w with
    | Closed poly edge_points => Some (edge_points, out ++ [poly])
    | Open _ => None
    end
  else Some st.

(** The tracing part of [offset], from the intersections [edge_points]. *)
Definition trace_polygons (offset_distance discretization_error : T)
    (edge_points : list (Vec2 T)) : option (list Polygon) :=
  let angle_step := lit 2 * m_acos ((offset_distance - discretization_error) / offset_distance) in
  let cos_threshold := m_cos angle_step in
  let? st := for_edges (trace_seed offset_distance angle_step cos_threshold)
               (num_edges vd) 0 (edge_points, []) in
  Some (snd st).

(** [offset] of an annotated diagram with the distances of its vertices. *)
Definition offset (k : Colors) (signed_vertex_distances : list T)
    (offset_distance discretization_error : T) : option (list Polygon) :=
  let? edge_points :=
    edge_offset_contour_intersections NDEBUG EPSILON SCALED_EPSILON vd lines k
      signed_vertex_distances offset_distance in
  trace_polygons offset_distance discretization_error edge_points.

(** [offset] of a diagram: annotation and distances first. *)
Definition offset_diagram (offset_distance discretization_error : T) : option (list Polygon) :=
  let? k := annotate_inside_outside NDEBUG vd lines in
  let? dist := signed_vertex_distances NDEBUG vd lines k in
  offset k dist offset_distance discretization_error.

End Tracer.


(** ** A four-pointed star *)

(** The Voronoi diagram of the four-pointed star (11200,40000)
    (14200,43000) (10000,42400) (5800,43000) (8800,40000) (5800,37000)
    (10000,37600) (14200,37000), counter-clockwise: eight segment cells
    and eight point cells, 33 pairs of half-edges, 18 vertices.  The cells
    of the four concave corners meet inside the star around the vertices
    w = (10000,40900) and w' = (10000,39100), vertices 12 and 13, which
    have no segment cell around them and are joined by the edge between
    the cells of the corners (11200,40000) and (8800,40000), the
    half-edges 38 and 39. *)
Definition star_lines : Lines :=
  [ mkLine (mkPoint 11200 40000) (mkPoint 14200 43000);
    mkLine (mkPoint 14200 43000) (mkPoint 10000 42400);
    mkLine (mkPoint 10000 42400) (mkPoint 5800 43000);
    mkLine (mkPoint 5800 43000) (mkPoint 8800 40000);
    mkLine (mkPoint 8800 40000) (mkPoint 5800 37000);
    mkLine (mkPoint 5800 37000) (mkPoint 10000 37600);
    mkLine (mkPoint 10000 37600) (mkPoint 14200 37000);
    mkLine (mkPoint 14200 37000) (mkPoint 11200 40000) ]%Z.

Definition star_vertices {T : Type} `{Scalar T} : list (Vertex T) :=
  [ mkVertex (lit 11200) (lit 40000) 32  (* 0: E *);
    mkVertex (lit 14200) (lit 43000) 48  (* 1: TNE *);
    mkVertex (lit 10000) (lit 42400) 20  (* 2: N *);
    mkVertex (lit 5800) (lit 43000) 2  (* 3: TNW *);
    mkVertex (lit 8800) (lit 40000) 15  (* 4: W *);
    mkVertex (lit 5800) (lit 37000) 8  (* 5: TSW *);
    mkVertex (lit 10000) (lit 37600) 26  (* 6: S *);
    mkVertex (lit 14200) (lit 37000) 50  (* 7: TSE *);
    mkVertex (lit 10200) (lit 41000) 21  (* 8: aNE *);
    mkVertex (lit 9800) (lit 41000) 3  (* 9: aNW *);
    mkVertex (lit 9800) (lit 39000) 9  (* 10: aSW *);
    mkVertex (lit 10200) (lit 39000) 30  (* 11: aSE *);
    mkVertex (lit 10000) (lit 40900) 38  (* 12: w *);
    mkVertex (lit 10000) (lit 39100) 39  (* 13: w_ *);
    mkVertex (lit 17200) (lit 40000) 33  (* 14: qE *);
    mkVertex (lit 10000) (lit 72400) 4  (* 15: qN *);
    mkVertex (lit 2800) (lit 40000) 1  (* 16: qW *);
    mkVertex (lit 10000) (lit 7600) 13  (* 17: qS *) ].

Definition star_edges : list Edge :=
  [ mkEdge None 1 7 63 11 true true  (* 0: inf -> qW, cell cTNW | cTSW *);
    mkEdge (Some 16) 0 64 11 13 true true  (* 1: qW -> inf, cell cTSW | cTNW *);
    mkEdge (Some 3) 3 24 4 2 true true  (* 2: TNW -> aNW, cell L2 | L3 *);
    mkEdge (Some 9) 2 6 16 3 true true  (* 3: aNW -> TNW, cell L3 | L2 *);
    mkEdge (Some 15) 5 2 23 2 true false  (* 4: qN -> TNW, cell L2 | cTNW *);
    mkEdge (Some 3) 4 63 7 11 true false  (* 5: TNW -> qN, cell cTNW | L2 *);
    mkEdge (Some 3) 7 14 3 3 true false  (* 6: TNW -> qW, cell L3 | cTNW *);
    mkEdge (Some 16) 6 5 0 11 true false  (* 7: qW -> TNW, cell cTNW | L3 *);
    mkEdge (Some 5) 9 18 10 4 true true  (* 8: TSW -> aSW, cell L4 | L5 *);
    mkEdge (Some 10) 8 12 26 5 true true  (* 9: aSW -> TSW, cell L5 | L4 *);
    mkEdge (Some 16) 11 8 15 4 true false  (* 10: qW -> TSW, cell L4 | cTSW *);
    mkEdge (Some 5) 10 1 13 13 true false  (* 11: TSW -> qW, cell cTSW | L4 *);
    mkEdge (Some 5) 13 28 9 5 true false  (* 12: TSW -> qS, cell L5 | cTSW *);
    mkEdge (Some 17) 12 11 64 13 true false  (* 13: qS -> TSW, cell cTSW | L5 *);
    mkEdge (Some 16) 15 16 6 3 true true  (* 14: qW -> W, cell L3 | L4 *);
    mkEdge (Some 4) 14 10 18 4 true true  (* 15: W -> qW, cell L4 | L3 *);
    mkEdge (Some 4) 17 3 14 3 true false  (* 16: W -> aNW, cell L3 | cW *);
    mkEdge (Some 9) 16 19 41 12 true false  (* 17: aNW -> W, cell cW | L3 *);
    mkEdge (Some 10) 19 15 8 4 true false  (* 18: aSW -> W, cell L4 | cW *);
    mkEdge (Some 4) 18 42 17 12 true false  (* 19: W -> aSW, cell cW | L4 *);
    mkEdge (Some 2) 21 49 22 1 true false  (* 20: N -> aNE, cell L1 | cN *);
    mkEdge (Some 8) 20 25 45 10 true false  (* 21: aNE -> N, cell cN | L1 *);
    mkEdge (Some 15) 23 20 54 1 true true  (* 22: qN -> N, cell L1 | L2 *);
    mkEdge (Some 2) 22 4 24 2 true true  (* 23: N -> qN, cell L2 | L1 *);
    mkEdge (Some 9) 25 23 2 2 true false  (* 24: aNW -> N, cell L2 | cN *);
    mkEdge (Some 2) 24 40 21 10 true false  (* 25: N -> aNW, cell cN | L2 *);
    mkEdge (Some 6) 27 9 28 5 true false  (* 26: S -> aSW, cell L5 | cS *);
    mkEdge (Some 10) 26 31 43 14 true false  (* 27: aSW -> S, cell cS | L5 *);
    mkEdge (Some 17) 29 26 12 5 true true  (* 28: qS -> S, cell L5 | L6 *);
    mkEdge (Some 6) 28 56 30 6 true true  (* 29: S -> qS, cell L6 | L5 *);
    mkEdge (Some 11) 31 29 50 6 true false  (* 30: aSE -> S, cell L6 | cS *);
    mkEdge (Some 6) 30 47 27 14 true false  (* 31: S -> aSE, cell cS | L6 *);
    mkEdge (Some 0) 33 52 34 0 true true  (* 32: E -> qE, cell L0 | L7 *);
    mkEdge (Some 14) 32 36 58 7 true true  (* 33: qE -> E, cell L7 | L0 *);
    mkEdge (Some 8) 35 32 48 0 true false  (* 34: aNE -> E, cell L0 | cE *);
    mkEdge (Some 0) 34 44 37 8 true false  (* 35: E -> aNE, cell cE | L0 *);
    mkEdge (Some 0) 37 51 33 7 true false  (* 36: E -> aSE, cell L7 | cE *);
    mkEdge (Some 11) 36 35 46 8 true false  (* 37: aSE -> E, cell cE | L7 *);
    mkEdge (Some 12) 39 46 44 8 true true  (* 38: w -> w_, cell cE | cW *);
    mkEdge (Some 13) 38 41 42 12 true true  (* 39: w_ -> w, cell cW | cE *);
    mkEdge (Some 9) 41 45 25 10 true true  (* 40: aNW -> w, cell cN | cW *);
    mkEdge (Some 12) 40 17 39 12 true true  (* 41: w -> aNW, cell cW | cN *);
    mkEdge (Some 10) 43 39 19 12 true true  (* 42: aSW -> w_, cell cW | cS *);
    mkEdge (Some 13) 42 27 47 14 true true  (* 43: w_ -> aSW, cell cS | cW *);
    mkEdge (Some 8) 45 38 35 8 true true  (* 44: aNE -> w, cell cE | cN *);
    mkEdge (Some 12) 44 21 40 10 true true  (* 45: w -> aNE, cell cN | cE *);
    mkEdge (Some 13) 47 37 38 8 true true  (* 46: w_ -> aSE, cell cE | cS *);
    mkEdge (Some 11) 46 43 31 14 true true  (* 47: aSE -> w_, cell cS | cE *);
    mkEdge (Some 1) 49 34 52 0 true true  (* 48: TNE -> aNE, cell L0 | L1 *);
    mkEdge (Some 8) 48 54 20 1 true true  (* 49: aNE -> TNE, cell L1 | L0 *);
    mkEdge (Some 7) 51 30 56 6 true true  (* 50: TSE -> aSE, cell L6 | L7 *);
    mkEdge (Some 11) 50 58 36 7 true true  (* 51: aSE -> TSE, cell L7 | L6 *);
    mkEdge (Some 14) 53 48 32 0 true false  (* 52: qE -> TNE, cell L0 | cTNE *);
    mkEdge (Some 1) 52 60 55 9 true false  (* 53: TNE -> qE, cell cTNE | L0 *);
    mkEdge (Some 1) 55 22 49 1 true false  (* 54: TNE -> qN, cell L1 | cTNE *);
    mkEdge (Some 15) 54 53 62 9 true false  (* 55: qN -> TNE, cell cTNE | L1 *);
    mkEdge (Some 17) 57 50 29 6 true false  (* 56: qS -> TSE, cell L6 | cTSE *);
    mkEdge (Some 7) 56 65 59 15 true false  (* 57: TSE -> qS, cell cTSE | L6 *);
    mkEdge (Some 7) 59 33 51 7 true false  (* 58: TSE -> qE, cell L7 | cTSE *);
    mkEdge (Some 14) 58 57 61 15 true false  (* 59: qE -> TSE, cell cTSE | L7 *);
    mkEdge (Some 14) 61 62 53 9 true true  (* 60: qE -> inf, cell cTNE | cTSE *);
    mkEdge None 60 59 65 15 true true  (* 61: inf -> qE, cell cTSE | cTNE *);
    mkEdge None 63 55 60 9 true true  (* 62: inf -> qN, cell cTNE | cTNW *);
    mkEdge (Some 15) 62 0 5 11 true true  (* 63: qN -> inf, cell cTNW | cTNE *);
    mkEdge None 65 13 1 13 true true  (* 64: inf -> qS, cell cTSW | cTSE *);
    mkEdge (Some 17) 64 61 57 15 true true  (* 65: qS -> inf, cell cTSE | cTSW *) ].

Definition star_cells : list Cell :=
  [ mkCell 32 0 SOURCE_CATEGORY_INITIAL_SEGMENT  (* 0: L0 *);
    mkCell 54 1 SOURCE_CATEGORY_INITIAL_SEGMENT  (* 1: L1 *);
    mkCell 23 2 SOURCE_CATEGORY_INITIAL_SEGMENT  (* 2: L2 *);
    mkCell 6 3 SOURCE_CATEGORY_INITIAL_SEGMENT  (* 3: L3 *);
    mkCell 15 4 SOURCE_CATEGORY_INITIAL_SEGMENT  (* 4: L4 *);
    mkCell 12 5 SOURCE_CATEGORY_INITIAL_SEGMENT  (* 5: L5 *);
    mkCell 29 6 SOURCE_CATEGORY_INITIAL_SEGMENT  (* 6: L6 *);
    mkCell 58 7 SOURCE_CATEGORY_INITIAL_SEGMENT  (* 7: L7 *);
    mkCell 35 0 SOURCE_CATEGORY_SEGMENT_START_POINT  (* 8: cE *);
    mkCell 53 1 SOURCE_CATEGORY_SEGMENT_START_POINT  (* 9: cTNE *);
    mkCell 25 2 SOURCE_CATEGORY_SEGMENT_START_POINT  (* 10: cN *);
    mkCell 5 3 SOURCE_CATEGORY_SEGMENT_START_POINT  (* 11: cTNW *);
    mkCell 19 4 SOURCE_CATEGORY_SEGMENT_START_POINT  (* 12: cW *);
    mkCell 11 5 SOURCE_CATEGORY_SEGMENT_START_POINT  (* 13: cTSW *);
    mkCell 31 6 SOURCE_CATEGORY_SEGMENT_START_POINT  (* 14: cS *);
    mkCell 57 7 SOURCE_CATEGORY_SEGMENT_START_POINT  (* 15: cTSE *) ].

Definition star_vd {T : Type} `{Scalar T} : VD T :=
  mkVD star_vertices star_edges star_cells.


(** ** The diagrams, annotated *)

(** Modelled from the spec: the tolerances of libslic3r.h, which is not
    part of the sources (section 4.3: [SCALED_EPSILON] about 1e-3,
    [EPSILON] about 1e-9). *)
Definition EPSILON {T : Type} `{Scalar T} : T := s_div (of_coord 1) (of_coord 1000000000).
Definition SCALED_EPSILON {T : Type} `{Scalar T} : T := s_div (of_coord 1) (of_coord 1000).

(** The categories [annotate_inside_outside] gives the triangle. *)
Definition triangle_colors : Colors :=
  mkColors
    [VertexOnContour; VertexOnContour; VertexOnContour; VertexInside]
    [PointsOutside; PointsToContour; PointsOutside; PointsToContour;
     PointsInside; PointsToContour; PointsOutside; PointsToContour;
     PointsOutside; PointsToContour; PointsInside; PointsToContour;
     PointsOutside; PointsToContour; PointsOutside; PointsToContour;
     PointsInside; PointsToContour]
    [CellBoundary; CellBoundary; CellBoundary; CellOutside; CellOutside; CellOutside].

(** The signed distances of the vertices of the triangle. *)
Definition triangle_distances {T : Type} `{Scalar T} : list T :=
  [lit 0; lit 0; lit 0; s_opp (lit 1000)].

(** The categories [annotate_inside_outside] gives the L-shaped hexagon
    when assertions are compiled out. *)
Definition lshape_colors : Colors :=
  mkColors
    [VertexOnContour; VertexOnContour; VertexOnContour;
     VertexOnContour; VertexOnContour; VertexOnContour;
     VertexInside; VertexInside; VertexInside; VertexInside;
     VertexInside; VertexOutside; VertexOnContour]
    [PointsOutside; PointsToContour; PointsOutside; PointsToContour;
     PointsToContour; PointsInside; PointsOutside; PointsToContour;
     PointsOutside; PointsToContour; PointsInside; PointsToContour;
     PointsOutside; PointsToContour; PointsInside; PointsToContour;
     PointsInside; PointsInside; PointsInside; PointsToContour;
     PointsInside; PointsInside; PointsInside; PointsInside;
     PointsToContour; PointsInside; PointsInside; PointsInside;
     PointsInside; PointsToContour; PointsOutside; PointsToContour;
     PointsOutside; PointsToContour; PointsInside; PointsToContour;
     PointsOutside; PointsToContour; PointsOutside; PointsToContour;
     PointsOutside; PointsToContour; PointsOutside; PointsOutside;
     PointsOutside; PointsToContour; PointsOutside; PointsToContour]
    [CellBoundary; CellBoundary; CellBoundary; CellBoundary;
     CellBoundary; CellBoundary; CellOutside; CellOutside;
     CellOutside; CellInside; CellOutside; CellOutside].

(** The signed distances [signed_vertex_distances] gives the vertices of
    the L-shaped hexagon, in binary64. *)
Definition lshape_distances : list PrimFloat.float :=
  Eval vm_compute in
    match signed_vertex_distances (T := PrimFloat.float) true lshape_vd lshape_lines
            lshape_colors with
    | Some d => d
    | None => []
    end.


(** The entries [edge_offset_contour_intersections] gives the half-edges
    of the L-shaped hexagon for the offset 1000 outwards, in binary64 and
    with assertions compiled out. *)
Definition lshape_edge_points : list (Vec2 PrimFloat.float) :=
  Eval vm_compute in
    match edge_offset_contour_intersections (T := PrimFloat.float) true EPSILON SCALED_EPSILON
            lshape_vd lshape_lines lshape_colors lshape_distances (of_coord 1000) with
    | Some pts => pts
    | None => []
    end.

(** The state of the tracer on [lshape_edge_points] when it comes to the
    seed half-edge 38: the entries left and the polygons closed by the
    seeds 0 to 37 (the functions of [<cmath>] play no part, no arc is
    cut: [ceil_size] is constantly 0). *)
Definition lshape_trace_state : list (Vec2 PrimFloat.float) * list Polygon :=
  Eval vm_compute in
    match for_edges
            (trace_seed (T := PrimFloat.float) true EPSILON SCALED_EPSILON
               (fun x => x) (fun x => x) (fun x => x) (fun _ => 0) lshape_vd lshape_lines
               (of_coord 1000)
               (s_mul (lit 2) (s_div (s_sub (of_coord 1000) (of_coord 10)) (of_coord 1000)))
               (s_mul (lit 2) (s_div (s_sub (of_coord 1000) (of_coord 10)) (of_coord 1000))))
            38 0 (lshape_edge_points, []) with
    | Some st => st
    | None => ([], [])
    end.


(** The categories [annotate_inside_outside] gives the four-pointed star
    when assertions are compiled out. *)
Definition star_colors : Colors :=
  mkColors
    [VertexOnContour; VertexOnContour; VertexOnContour;
     VertexOnContour; VertexOnContour; VertexOnContour;
     VertexOnContour; VertexOnContour; VertexInside; VertexInside;
     VertexInside; VertexInside; VertexInside; VertexInside;
     VertexOnContour; VertexOnContour; VertexOutside;
     VertexOnContour]
    [PointsToContour; PointsOutside; PointsInside; PointsToContour;
     PointsToContour; PointsOutside; PointsOutside; PointsToContour;
     PointsInside; PointsToContour; PointsToContour; PointsOutside;
     PointsOutside; PointsToContour; PointsToContour; PointsOutside;
     PointsInside; PointsToContour; PointsToContour; PointsInside;
     PointsInside; PointsToContour; PointsToContour; PointsOutside;
     PointsToContour; PointsInside; PointsInside; PointsToContour;
     PointsToContour; PointsOutside; PointsToContour; PointsInside;
     PointsOutside; PointsToContour; PointsToContour; PointsInside;
     PointsInside; PointsToContour; EdgeUnknown; EdgeUnknown;
     PointsInside; PointsInside; PointsInside; PointsInside;
     PointsInside; PointsInside; PointsInside; PointsInside;
     PointsInside; PointsToContour; PointsInside; PointsToContour;
     PointsToContour; PointsOutside; PointsOutside; PointsToContour;
     PointsToContour; PointsOutside; PointsOutside; PointsToContour;
     PointsOutside; PointsToContour; PointsToContour; PointsOutside;
     PointsToContour; PointsOutside]
    [CellBoundary; CellBoundary; CellBoundary; CellBoundary;
     CellBoundary; CellBoundary; CellBoundary; CellBoundary;
     CellInside; CellOutside; CellInside; CellOutside; CellInside;
     CellOutside; CellInside; CellOutside].


(** The entries [edge_offset_contour_intersections] gives the half-edges
    of the triangle for the offset 500 inwards, in binary64. *)
Definition triangle_edge_points : list (Vec2 PrimFloat.float) :=
  Eval vm_compute in
    match edge_offset_contour_intersections (T := PrimFloat.float) true EPSILON SCALED_EPSILON
            triangle_vd triangle_lines triangle_colors triangle_distances (of_coord (-500)) with
    | Some pts => pts
    | None => []
    end.


(** [k'] keeps what [k] has settled: the arrays of categories have the
    sizes they had, no vertex, half-edge or cell that has a category in [k]
    is without one in [k'], and a cell marked [Boundary] in [k] is marked
    [Boundary] in [k']. *)
Definition annotation_grows (k k' : Colors) : Prop :=
  length (vertex_colors k') = length (vertex_colors k)
  /\ length (edge_colors k') = length (edge_colors k)
  /\ length (cell_colors k') = length (cell_colors k)
  /\ (forall v, vertex_category k v <> VertexUnknown -> vertex_category k' v <> VertexUnknown)
  /\ (forall e, edge_category k e <> EdgeUnknown -> edge_category k' e <> EdgeUnknown)
  /\ (forall c, cell_category k c <> CellUnknown -> cell_category k' c <> CellUnknown)
  /\ (forall c, cell_category k c = CellBoundary -> cell_category k' c = CellBoundary).


(** The cell of every half-edge is a cell of the diagram (index
    [num_edges] stands for the half-edges beyond the array). *)
Definition cells_in_range {T : Type} (vd : VD T) : bool :=
  forallb (fun e => Nat.ltb (cell vd e) (length (cells vd))) (seq 0 (S (num_edges vd))).


(** The cells of the queue of the seed fill have a category. *)
Definition queue_annotated (k : Colors) (q : list nat) : Prop :=
  forall c, In c q -> cell_category k c <> CellUnknown.

(** The walk around a vertex from [edge] by [rot_next] ends within as many
    steps as the diagram has half-edges: it meets a point cell, or comes
    back to [edge]. *)
Definition rotation_closes {T : Type} (vd : VD T) (edge : nat) : Prop :=
  exists n, n < num_edges vd
    /\ (contains_point vd (cell vd (rot_iter vd n edge)) = true
        \/ rot_iter vd (S n) edge = edge).

(** The distances [signed_vertex_distances] gives the vertices of the
    four-pointed star, in binary64. *)
Definition star_distances : list PrimFloat.float :=
  Eval vm_compute in
    match signed_vertex_distances (T := PrimFloat.float) true star_vd star_lines
            star_colors with
    | Some d => d
    | None => []
    end.

(** ** The kernels on a grid, in binary64 *)




(** The number of entries of [edge_points] that carry an intersection
    point. *)
Definition count_intersections {T : Type} `{Scalar T} (edge_points : list (Vec2 T)) : nat :=
  length (filter edge_offset_has_intersection edge_points).

(** The state of the tracer after the loop over the seed half-edges, on
    the triangle for the offset 500 inwards, in binary64 (no arc is cut:
    the functions of [<cmath>] play no part). *)
Definition triangle_traced : list (Vec2 PrimFloat.float) * list Polygon :=
  Eval vm_compute in
    match for_edges
            (trace_seed (T := PrimFloat.float) true EPSILON SCALED_EPSILON
               (fun x => x) (fun x => x) (fun x => x) (fun _ => 0) triangle_vd triangle_lines
               (of_coord (-500)) (lit 2) (lit 2))
            (num_edges (triangle_vd (T := PrimFloat.float))) 0 (triangle_edge_points, []) with
    | Some st => st
    | None => ([], [])
    end.

(** Whether [next] leads from every half-edge of the diagram back to it,
    around its cell, within as many steps as the diagram has half-edges. *)
Definition cells_close {T : Type} (vd : VD T) : bool :=
  forallb (fun e =>
             existsb (fun j => Nat.eqb (Nat.iter j (next vd) (next vd e)) e)
               (seq 0 (S (num_edges vd))))
    (seq 0 (num_edges vd)).

(** * Properties *)

(** ** The number of points a kernel returns *)

Section KernelCounts.

Context {T : Type} `{Scalar T}.
Local Open Scope scalar_scope.


Lemma line_point_count_computed (line : Line) (ipt : Point) (d : T) :
  let l2 := squaredNorm (cast (point_sub (lb line) (la line))) in
  let c := snd (line_point_coefficients line ipt) in
  let s := c * (lit 2 * (d * s_sqrt l2) - c) in
  count (line_point_equal_distance_points line ipt d)
  = if s <? lit 0 then 0%Z else if s =? lit 0 then 1%Z else 2%Z.
Proof.
  cbv zeta. unfold line_point_equal_distance_points.
  destruct (line_point_coefficients line ipt) as [lv c]. cbn [snd].
  destruct (_ <? lit 0); [reflexivity|].
  destruct (s_abs _ <? s_abs _); destruct (_ =? lit 0); reflexivity.
Qed.

End KernelCounts.



(** ** The kernels over the real numbers *)

Import Real.
Local Open Scope R_scope.


Lemma sqrt_of_square_eq (x D : R) : 0 <= D -> x = D * D -> sqrt x = D.
Proof. intros HD ->. now apply sqrt_square. Qed.




Ltac case_ltb x y :=
  let E := fresh "E" in
  destruct (ltb x y) eqn:E;
  [ apply ltb_true in E | apply ltb_false in E ].

Ltac case_eqb x y :=
  let E := fresh "E" in
  destruct (eqb x y) eqn:E;
  [ apply eqb_true in E | apply eqb_false in E ].










Lemma ray_point_distance_cross (A v P : Vec2 R) :
  squaredNorm v <> 0 ->
  ray_point_distance A v P
  = sqrt (cross2 (vsub P A) v * cross2 (vsub P A) v / squaredNorm v).
Proof.
  intros Hv. unfold ray_point_distance, norm.
  unfold squaredNorm, dot, foot_pt, cross2, vsub, vadd, vscale in *.
  cbn in *. f_equal. field. exact Hv.
Qed.







Lemma sqrt_square_quot (c L l2 : R) :
  0 <= c -> 0 < L -> L * L = l2 -> sqrt (c * c / l2) = c / L.
Proof.
  intros Hc HL E. apply sqrt_of_square_eq.
  - apply Rmult_le_pos; [exact Hc | left; now apply Rinv_0_lt_compat].
  - rewrite <- E. field. lra.
Qed.

Ltac lp_count c D L :=
  let HcL := fresh "HcL" in let Hst := fresh "Hst" in
  assert (HcL : 0 < c * L) by (apply Rmult_lt_0_compat; lra);
  assert (Hst : c * (2 * (D * L) - c) = - (c * L) * (c / L - 2 * D))
    by (field; lra);
  generalize dependent (c / L - 2 * D); intros t Hst;
  destruct (ltb (c * (2 * (D * L) - c)) 0) eqn:E1;
  [ apply ltb_true in E1 | apply ltb_false in E1 ];
  [ cbn; repeat split; intros; try discriminate; try reflexivity; nra |];
  match goal with |- context [if ltb ?x ?y then (_, _) else (_, _)] =>
    destruct (ltb x y) end;
  (destruct (eqb (c * (2 * (D * L) - c)) 0) eqn:E2;
   [ apply eqb_true in E2 | apply eqb_false in E2 ]);
  cbn; repeat split; intros; try discriminate; try reflexivity; nra.

Lemma line_point_count (line : Line) (ipt : Point) (D : R) :
  cross2 (T := R) (cast (point_sub (la line) ipt))
    (cast (point_sub (lb line) (la line))) <> 0 ->
  let out := line_point_equal_distance_points line ipt D in
  let dist := ray_point_distance (cast (la line))
                (cast (point_sub (lb line) (la line))) (cast ipt) in
  (count out = 0%Z <-> dist > 2 * D) /\
  (count out = 1%Z <-> dist = 2 * D) /\
  (count out = 2%Z <-> dist < 2 * D).
Proof.
  intros Hc0 out dist.
  assert (Hl2 : 0 < squaredNorm (T := R) (cast (point_sub (lb line) (la line)))).
  { unfold squaredNorm, dot, cross2 in *. cbn in *.
    set (lx := IZR (px (lb line) - px (la line))) in *.
    set (ly := IZR (py (lb line) - py (la line))) in *.
    destruct (Req_dec lx 0) as [Zx|Zx]; [destruct (Req_dec ly 0) as [Zy|Zy] |].
    - exfalso. apply Hc0. rewrite Zx, Zy. ring.
    - nra.
    - nra. }
  unfold dist. rewrite ray_point_distance_cross by lra.
  unfold out, line_point_equal_distance_points, line_point_coefficients.
  unfold squaredNorm, dot, cross2, cast, vopp, point_sub in *.
  cbn -[Rmult Rplus Rminus IZR Z.sub] in *.
  assert (Ex : IZR (px (la line)) = IZR (px (la line) - px ipt) + IZR (px ipt))
    by (rewrite minus_IZR; ring).
  assert (Ey : IZR (py (la line)) = IZR (py (la line) - py ipt) + IZR (py ipt))
    by (rewrite minus_IZR; ring).
  rewrite Ex, Ey in *. clear Ex Ey.
  set (qx := IZR (px (la line) - px ipt)) in *.
  set (qy := IZR (py (la line) - py ipt)) in *.
  set (lx := IZR (px (lb line) - px (la line))) in *.
  set (ly := IZR (py (lb line) - py (la line))) in *.
  set (ix := IZR (px ipt)) in *. set (iy := IZR (py ipt)) in *.
  clearbody qx qy lx ly ix iy. clear out dist.
  remember (lx * lx + ly * ly) as l2 eqn:El2.
  remember (sqrt l2) as L eqn:EL.
  assert (HL : L * L = l2) by (subst L; apply sqrt_sqrt; lra).
  assert (HLpos : 0 < L) by (subst L; apply sqrt_lt_R0; exact Hl2).
  replace ((ix - (qx + ix)) * ly - (iy - (qy + iy)) * lx)
    with (- (qx * ly - qy * lx)) by ring.
  case_ltb (qx * ly - qy * lx) 0.
  - set (c := - (qx * ly - qy * lx)) in *.
    assert (Hc : 0 < c) by (unfold c; lra).
    rewrite (sqrt_square_quot (L := L)) by lra.
    clearbody c.
    assert (Hd : forall x, (c / L > x <-> c / L - x > 0) /\
                           (c / L = x <-> c / L - x = 0) /\
                           (c / L < x <-> c / L - x < 0))
      by (intros; repeat split; intros; lra).
    destruct (Hd (2 * D)) as (-> & -> & ->). clear Hd.
    lp_count c D L.
  - set (c := qx * ly - qy * lx) in *.
    assert (Hc : 0 < c) by (unfold c in *; lra).
    replace (- c * - c) with (c * c) by ring.
    rewrite (sqrt_square_quot (L := L)) by lra.
    clearbody c.
    assert (Hd : forall x, (c / L > x <-> c / L - x > 0) /\
                           (c / L = x <-> c / L - x = 0) /\
                           (c / L < x <-> c / L - x < 0))
      by (intros; repeat split; intros; lra).
    destruct (Hd (2 * D)) as (-> & -> & ->). clear Hd.
    lp_count c D L.
Qed.







(** C10, as stated, fails for a point on the supporting line that is no end
    point: on the line through (0,0) and (2,0), the point (1,0) is at
    distance 0 < 2 * 1 from the line, and one point is returned, not two,
    in exact arithmetic and in binary64.  It fails in binary64 off the
    line too: for the line through (0,0) and (1,1), the point (0,2), at
    the distance root of 2 from it, and [d = 6369051672525772 / 2^53],
    the binary64 number next below half the root of 2, where
    [(2 d)^2 < 2] and the claim has no point: [d * sqrt l2] rounds to 1,
    the sign test finds [s == 0], and one point is returned; the
    assertions of the function hold. *)
Lemma line_point_count_collinear :
  (let line := mkLine (mkPoint 0 0) (mkPoint 2 0) in
   let ipt := mkPoint 1 0 in
   la line <> ipt /\ lb line <> ipt /\
   ray_point_distance (T := R) (cast (la line)) (cast (point_sub (lb line) (la line)))
     (cast ipt) < 2 * 1 /\
   count (line_point_equal_distance_points (T := R) line ipt 1) = 1%Z /\
   count (line_point_equal_distance_points (T := PrimFloat.float) line ipt (of_coord 1))
   = 1%Z)
  /\ (let line := mkLine (mkPoint 0 0) (mkPoint 1 1) in
      let ipt := mkPoint 0 2 in
      let d : PrimFloat.float :=
        s_div (of_coord 6369051672525772) (of_coord 9007199254740992) in
      let out := line_point_equal_distance_points line ipt d in
      la line <> ipt /\ lb line <> ipt /\
      FloatOps.Prim2SF d = SpecFloat.S754_finite false 6369051672525772 (-53) /\
      (4 * (6369051672525772 * 6369051672525772) < 2 * 2 ^ 106)%Z /\
      line_point_requires (T := PrimFloat.float) SCALED_EPSILON line ipt = true /\
      count out = 1%Z /\
      line_point_checks SCALED_EPSILON line ipt d out = true).
Proof.
  split.
  - cbv zeta. split; [discriminate|]. split; [discriminate|]. split; [|split].
    + rewrite ray_point_distance_cross.
      * rewrite (@sqrt_of_square_eq _ 0); [lra | lra |].
        unfold cross2, squaredNorm, dot; cbn. lra.
      * unfold squaredNorm, dot; cbn. lra.
    + unfold line_point_equal_distance_points, line_point_coefficients.
      unfold squaredNorm, dot, cross2, cast, vopp, point_sub.
      cbn -[Rmult Rplus Rminus Ropp sqrt].
      case_ltb (-1 * 0 - 0 * 2) 0; [lra|].
      set (s := (-1 * 0 - 0 * 2) * (2 * (1 * sqrt (2 * 2 + 0 * 0)) - (-1 * 0 - 0 * 2))).
      assert (Hs : s = 0) by (unfold s; ring).
      rewrite Hs.
      case_ltb 0 0; [lra|]. case_eqb 0 0; [| lra].
      match goal with |- context [if ?b then (_, _) else (_, _)] => destruct b end;
        reflexivity.
    + vm_compute. reflexivity.
  - cbv zeta. split; [discriminate|]. split; [discriminate|].
    split; [vm_compute; reflexivity|]. split; [reflexivity|].
    split; [vm_compute; reflexivity|]. split; vm_compute; reflexivity.
Qed.

(** C10, amended.  In exact arithmetic (the real numbers), for [ipt] off
    the supporting line of [line] (the source asserts it: the normal
    points towards [ipt] by more than the tolerance),
    [line_point_equal_distance_points line ipt D] returns no point exactly
    when the distance of [ipt] from the line exceeds [2 D], one point exactly
    when it equals [2 D], and two points exactly when it is smaller.  In
    any arithmetic, binary64 among them, the number of points follows the
    sign test on [s = c (2 d sqrt l2 - c)] as that arithmetic computes it:
    none when [s < 0], one when [s == 0], two otherwise. *)
Theorem line_point_count_off_line (line : Line) (ipt : Point) (D : R) :
  cross2 (T := R) (cast (point_sub (la line) ipt))
    (cast (point_sub (lb line) (la line))) <> 0 ->
  let out := line_point_equal_distance_points line ipt D in
  let dist := ray_point_distance (cast (la line))
                (cast (point_sub (lb line) (la line))) (cast ipt) in
  ((count out = 0%Z <-> dist > 2 * D) /\
   (count out = 1%Z <-> dist = 2 * D) /\
   (count out = 2%Z <-> dist < 2 * D))
  /\ (forall (T : Type) (S : Scalar T) (d : T),
        let l2 : T := squaredNorm (cast (point_sub (lb line) (la line))) in
        let c : T := snd (line_point_coefficients line ipt) in
        let s := (c * (lit 2 * (d * s_sqrt l2) - c))%sc in
        count (line_point_equal_distance_points line ipt d)
        = if (s <? lit 0)%sc then 0%Z else if (s =? lit 0)%sc then 1%Z else 2%Z).
Proof.
  intros Hc out dist. split.
  - exact (@line_point_count line ipt D Hc).
  - intros T S d. apply line_point_count_computed.
Qed.

Lemma line_point_count_off_line_witness :
  count (line_point_equal_distance_points (T := R)
           (mkLine (mkPoint 0 0) (mkPoint 10 0)) (mkPoint 5 4) 5) = 2%Z.
Proof.
  assert (H : cross2 (T := R)
                (cast (point_sub (la (mkLine (mkPoint 0 0) (mkPoint 10 0))) (mkPoint 5 4)))
                (cast (point_sub (lb (mkLine (mkPoint 0 0) (mkPoint 10 0)))
                         (la (mkLine (mkPoint 0 0) (mkPoint 10 0))))) <> 0).
  { unfold cross2; cbn. lra. }
  destruct (@line_point_count_off_line (mkLine (mkPoint 0 0) (mkPoint 10 0))
              (mkPoint 5 4) 5 H) as ((_ & _ & H2) & _).
  apply H2. rewrite ray_point_distance_cross.
  - rewrite (@sqrt_of_square_eq _ 4); [lra | lra |].
    unfold cross2, squaredNorm, dot; cbn. lra.
  - unfold squaredNorm, dot; cbn. lra.
Defined.


Local Close Scope R_scope.

(** ** Arrays *)

Lemma length_set_nth {A : Type} (i : nat) (x : A) (l : list A) :
  length (set_nth i x l) = length l.
Proof.
  revert i. induction l as [|h t IH]; intros [|i]; cbn; trivial. now rewrite IH.
Qed.

Lemma nth_set_nth_eq {A : Type} (i : nat) (x d : A) (l : list A) :
  i < length l -> nth i (set_nth i x l) d = x.
Proof.
  revert i. induction l as [|h t IH]; intros [|i] Hi; cbn in *; try lia; trivial.
  apply IH. lia.
Qed.

Lemma nth_set_nth_neq {A : Type} (i j : nat) (x d : A) (l : list A) :
  i <> j -> nth j (set_nth i x l) d = nth j l d.
Proof.
  revert i j. induction l as [|h t IH]; intros [|i] [|j] Hij; cbn; trivial; try lia.
  apply IH. lia.
Qed.

(** ** The loop of [edge_offset_contour_intersections] *)

Section SolverFacts.

Context {T : Type} `{Scalar T}.
Local Open Scope scalar_scope.

Variable NDEBUG : bool.
Variables EPSILON SCALED_EPSILON : T.
Variable vd : VD T.
Variable lines : Lines.
Variable k : Colors.
Variable vertex_distances : list T.

Lemma assert_some {A : Type} (b : bool) (c : option A) (x : A) :
  assert NDEBUG b c = Some x -> c = Some x.
Proof. unfold assert. destruct NDEBUG; [easy|]. destruct b; easy. Qed.

(** One round of the loop, for a half-edge [edge] with the distances
    [d0] of its tail and [d1] of its head (the largest double for an
    absent vertex, negated when offsetting inwards) and [D] the offset
    distance made positive: if [d0 == d1] (which the source tests before
    the negation), or if [D >= max (d0, d1)] (equality included), the
    round assigns nothing and [out] is returned as it is. *)
Lemma skipped_edge_records_nothing (offset_distance : T) (out : list (Vec2 T)) (edge : nat) :
  let outside := is_outside offset_distance in
  let D := offset_magnitude offset_distance in
  let d0 := end_distance vertex_distances outside (vertex0 vd edge) in
  let d1 := end_distance vertex_distances outside (vertex1 vd edge) in
  (raw_distance vertex_distances (vertex0 vd edge)
     =? raw_distance vertex_distances (vertex1 vd edge)) = true
  \/ (D >=? dmax_of d0 d1) = true ->
  edge_writes NDEBUG EPSILON SCALED_EPSILON vd lines k vertex_distances outside D
    (offset_distance * offset_distance) edge = Some []
  /\ classify_edge NDEBUG EPSILON SCALED_EPSILON vd lines k vertex_distances outside D
       (offset_distance * offset_distance) out edge = Some out.
Proof.
  intros outside D d0 d1 Hskip.
  assert (Hs : skipped vd vertex_distances outside D edge = true).
  { unfold skipped. fold d0 d1. destruct Hskip as [-> | ->]; [reflexivity|].
    apply orb_true_r. }
  assert (Hw : edge_writes NDEBUG EPSILON SCALED_EPSILON vd lines k vertex_distances
                 outside D (offset_distance * offset_distance) edge = Some []).
  { unfold edge_writes. now rewrite Hs. }
  split; [exact Hw|].
  unfold classify_edge. rewrite Hw. cbn.
  now destruct (_ || _).
Qed.

Ltac crunch_writes :=
  repeat match goal with
  | H : assert _ _ _ = Some _ |- _ => apply assert_some in H
  | H : Some _ = Some _ |- _ => injection H as H; subst
  | H : None = Some _ |- _ => discriminate H
  | H : (let? _ := ?c in _) = Some _ |- _ =>
      let E := fresh "E" in destruct c eqn:E; [| discriminate H]
  | H : match ?c with Some _ => _ | None => _ end = Some _ |- _ =>
      let E := fresh "E" in destruct c eqn:E
  | H : (if ?b then _ else _) = Some _ |- _ =>
      let E := fresh "E" in destruct b eqn:E
  | H : (let '(_, _) := ?c in _) = Some _ |- _ =>
      let E := fresh "E" in destruct c eqn:E
  end.

Lemma attempt_intersection_shape D d0 d1 two pvs line pt0 pt1 p0 p1 edge r :
  attempt_intersection NDEBUG SCALED_EPSILON vd D d0 d1 two pvs line pt0 pt1 p0 p1 edge = Some r ->
  match r with Some ws => writes_shape vd edge ws | None => True end.
Proof.
  unfold attempt_intersection. intros Hr.
  crunch_writes; try exact I; constructor.
Qed.

Lemma edge_writes_shape outside D D2 edge ws :
  edge_writes NDEBUG EPSILON SCALED_EPSILON vd lines k vertex_distances outside D D2 edge = Some ws ->
  writes_shape vd edge ws.
Proof.
  unfold edge_writes, infinite_edge_writes, linear_edge_writes, point_edge_writes.
  intros Hw.
  crunch_writes; try constructor;
    match goal with
    | H : attempt_intersection _ _ _ _ _ _ _ _ _ _ _ _ _ _ = Some _ |- _ =>
        apply attempt_intersection_shape in H; cbn in H; try exact H
    end.
Qed.

(** One round of the loop: whenever it stores a point on a half-edge, it
    assigns to the other half-edge of the pair as well: either the other
    intersection point, or the mark [y = 1] that turns the initial entry
    [(NaN, 0)] into the visited entry [(NaN, 1)].  So no round leaves one
    half-edge of a pair with a point and its twin as it was. *)
Lemma stored_point_classifies_twin (outside : bool) (D D2 : T) (out : list (Vec2 T))
    (edge : nat) (ws : list (nat * Write T)) :
  edge_writes NDEBUG EPSILON SCALED_EPSILON vd lines k vertex_distances outside D D2 edge = Some ws ->
  twin vd edge <> edge -> edge < length out -> twin vd edge < length out ->
  forall i p, In (i, Store p) ws ->
    let j := if Nat.eqb i edge then twin vd edge else edge in
    (i = edge \/ i = twin vd edge)
    /\ nth i (apply_writes ws out) unclassified = p
    /\ ((exists q, In (j, Store q) ws /\ nth j (apply_writes ws out) unclassified = q)
        \/ (In (j, Visit) ws
            /\ nth j (apply_writes ws out) unclassified
               = mkVec (vx (nth j out unclassified)) (lit 1))).
Proof.
  intros Hw Hne He Ht i p Hin.
  apply edge_writes_shape in Hw.
  assert (Hne' : edge <> twin vd edge) by congruence.
  destruct Hw; cbn in Hin;
    repeat match goal with
    | H : _ \/ _ |- _ => destruct H
    | H : False |- _ => destruct H
    | H : (_, _) = (_, _) |- _ => injection H as H; subst
    | H : Visit = Store _ |- _ => discriminate H
    end; try discriminate.
  - (* a point here, the twin visited *)
    rewrite Nat.eqb_refl. unfold apply_writes. cbn.
    rewrite nth_set_nth_neq by exact Hne.
    rewrite !nth_set_nth_eq by (rewrite ?length_set_nth; assumption).
    rewrite nth_set_nth_neq by exact Hne'.
    repeat split; auto.
  - (* a point on the twin, this one visited *)
    destruct (Nat.eqb_spec (twin vd edge) edge) as [F|_]; [contradiction|].
    unfold apply_writes. cbn.
    rewrite nth_set_nth_neq by exact Hne'.
    rewrite !nth_set_nth_eq by (rewrite ?length_set_nth; assumption).
    rewrite nth_set_nth_neq by exact Hne.
    repeat split; auto.
  - (* two points: the one stored here *)
    rewrite Nat.eqb_refl. unfold apply_writes. cbn.
    rewrite nth_set_nth_neq by exact Hne.
    rewrite !nth_set_nth_eq by (rewrite ?length_set_nth; assumption).
    repeat split; auto. left. eexists; split; [right; left; reflexivity | reflexivity].
  - (* two points: the one stored on the twin *)
    destruct (Nat.eqb_spec (twin vd edge) edge) as [F|_]; [contradiction|].
    unfold apply_writes. cbn.
    rewrite !nth_set_nth_eq by (rewrite ?length_set_nth; assumption).
    rewrite nth_set_nth_neq by exact Hne.
    rewrite !nth_set_nth_eq by (rewrite ?length_set_nth; assumption).
    repeat split; auto. left. eexists; split; [left; reflexivity | reflexivity].
Qed.

Lemma refined_dmin_point_segment line p0 p1 px_ dmin :
  let pt_line := cast (la line) in
  let v_line := cast (point_sub (lb line) (la line)) in
  let t0 := dot (vsub p0 pt_line) v_line in
  let t1 := dot (vsub p1 pt_line) v_line in
  let tx := dot (vsub px_ pt_line) v_line in
  let ft := vadd pt_line (vscale (tx / squaredNorm v_line) v_line) in
  refined_dmin true line p0 p1 px_ dmin
  = if ((tx >=? t0) && (tx <=? t1)) || ((tx >=? t1) && (tx <=? t0))
    then squaredNorm (vsub ft px_) * quarter else dmin.
Proof. reflexivity. Qed.

Lemma refined_dmin_point_point line p0 p1 px_ dmin :
  let v := vsub p1 p0 in
  let l2 := squaredNorm v in
  let t := dot v (vsub px_ p0) in
  let ft := vadd p0 (vscale (t / l2) v) in
  refined_dmin false line p0 p1 px_ dmin
  = if (t >=? lit 0) && (t <=? l2) then squaredNorm (vsub ft px_) else dmin.
Proof. reflexivity. Qed.

(** The branch of the loop that looks for the minimum, as the source has
    it.  On a finite half-edge between a point cell and another cell that
    is neither a bisector of two segments nor secondary, that is not
    skipped ([d0 != d1], [D < dmax]) and on which the square of the offset
    distance is below the minimum [dmin] of the end points (the source
    compares [offset_distance2] with [dmin] itself, not with its square):
    the minimum is replaced by [dmin_new] when that is below [dmin], where
    [dmin_new] is, for a point and a segment, the squared distance of the
    point site from its foot point on the segment times 0.25 when its
    projection [tx] lies between the projections [t0], [t1] of the ends
    of the edge, and for two points the squared distance of the point
    site from its foot point on the chord when the foot point lies on the
    chord ([dmin] otherwise).  An intersection is then attempted exactly
    when [D^2 >= ] that minimum; otherwise both half-edges are marked
    visited and nothing is stored. *)
Theorem refined_minimum_decides (outside : bool) (D D2 : T) (edge v0 v1 : nat)
    (ws : list (nat * Write T)) :
  let cell_ := cell vd edge in
  let cell2 := cell vd (twin vd edge) in
  let line0 := line_at lines (source_index vd cell_) in
  let line1 := line_at lines (source_index vd cell2) in
  let d0 := end_distance vertex_distances outside (vertex0 vd edge) in
  let d1 := end_distance vertex_distances outside (vertex1 vd edge) in
  let dmin := dmin_of d0 d1 in
  let point_vs_segment := negb (Bool.eqb (contains_point vd cell_) (contains_point vd cell2)) in
  let pt0 := if contains_point vd cell_ then contour_point vd cell_ line0
             else contour_point vd cell2 line1 in
  let line := if contains_segment vd cell_ then line0 else line1 in
  let p0 := vertex_point vd v0 in
  let p1 := vertex_point vd v1 in
  let dmin_new := refined_dmin point_vs_segment line p0 p1 (cast pt0) dmin in
  vertex0 vd edge = Some v0 -> vertex1 vd edge = Some v1 ->
  contains_segment vd cell_ && contains_segment vd cell2 = false ->
  is_secondary vd edge = false ->
  skipped vd vertex_distances outside D edge = false ->
  (D2 >=? dmin) = false ->
  edge_writes NDEBUG EPSILON SCALED_EPSILON vd lines k vertex_distances outside D D2 edge = Some ws ->
  dmin_new
  = (if point_vs_segment then
       let pt_line := cast (la line) in
       let v_line := cast (point_sub (lb line) (la line)) in
       let t0 := dot (vsub p0 pt_line) v_line in
       let t1 := dot (vsub p1 pt_line) v_line in
       let tx := dot (vsub (cast pt0) pt_line) v_line in
       let ft := vadd pt_line (vscale (tx / squaredNorm v_line) v_line) in
       if ((tx >=? t0) && (tx <=? t1)) || ((tx >=? t1) && (tx <=? t0))
       then squaredNorm (vsub ft (cast pt0)) * quarter else dmin
     else
       let v := vsub p1 p0 in
       let l2 := squaredNorm v in
       let t := dot v (vsub (cast pt0) p0) in
       let ft := vadd p0 (vscale (t / l2) v) in
       if (t >=? lit 0) && (t <=? l2) then squaredNorm (vsub ft (cast pt0)) else dmin)
  /\
  if D2 >=? refined dmin dmin_new then
    exists r,
      attempt_intersection NDEBUG SCALED_EPSILON vd D d0 d1 true point_vs_segment line pt0
        (contour_point vd cell2 line1) p0 p1 edge = Some r
      /\ ws = match r with
              | Some ws' => ws'
              | None => [(twin vd edge, Visit); (edge, Visit)]
              end
  else ws = [(twin vd edge, Visit); (edge, Visit)].
Proof.
  intros cell_ cell2 line0 line1 d0 d1 dmin pvs pt0 line p0 p1 dmin_new
         Hv0 Hv1 Hbis Hsec Hskip HD2 Hw.
  split; [reflexivity|].
  unfold edge_writes in Hw. rewrite Hskip, Hv0, Hv1 in Hw.
  apply assert_some in Hw. apply assert_some in Hw.
  fold cell_ cell2 in Hw. rewrite Hbis, Hsec in Hw. cbn [orb] in Hw.
  unfold point_edge_writes in Hw.
  fold cell_ cell2 line0 line1 in Hw.
  fold d0 d1 in Hw. fold dmin in Hw.
  destruct (assert NDEBUG (contains_point vd cell_ || contains_point vd cell2) _) eqn:Ha in Hw;
    [| discriminate Hw].
  apply assert_some in Ha. cbn [option_map] in Ha.
  fold pvs pt0 line p0 p1 in Ha. fold dmin_new in Ha.
  apply assert_some in Ha.
  rewrite <- Hv0, <- Hv1 in Ha. fold d0 d1 in Ha. fold dmin in Ha. fold dmin_new in Ha.
  unfold intersection_flags in Ha. rewrite HD2 in Ha.
  unfold refined.
  destruct (dmin_new <? dmin) eqn:Hlt.
  - destruct (D2 >=? dmin_new) eqn:Hge.
    + exists o. split; [exact Ha|]. destruct o; congruence.
    + injection Ha as <-. congruence.
  - rewrite HD2. injection Ha as <-. congruence.
Qed.

End SolverFacts.


(** ** The array returned by the solver *)

Lemma for_edges_invariant {S : Type} (body : S -> nat -> option S) (P : nat -> S -> Prop) :
  forall n i st st',
    P i st ->
    (forall j s s', i <= j < i + n -> P j s -> body s j = Some s' -> P (Datatypes.S j) s') ->
    for_edges body n i st = Some st' ->
    P (i + n) st'.
Proof.
  induction n as [|n IH]; intros i st st' Hi Hstep Hrun; cbn in Hrun.
  - injection Hrun as <-. now rewrite Nat.add_0_r.
  - destruct (body st i) as [s1|] eqn:Hb; [|discriminate].
    rewrite Nat.add_succ_r. change (P (Datatypes.S i + n) st').
    apply (IH (Datatypes.S i) s1 st').
    + apply (Hstep i st s1); [lia | exact Hi | exact Hb].
    + intros j s s' Hj. apply Hstep. lia.
    + exact Hrun.
Qed.

Section SolverRun.

Context {T : Type} `{Scalar T}.
Local Open Scope scalar_scope.

Variable NDEBUG : bool.
Variables EPSILON SCALED_EPSILON : T.
Variable vd : VD T.
Variable lines : Lines.
Variable k : Colors.
Variable vertex_distances : list T.

Lemma twins_paired_spec :
  twins_paired vd = true ->
  forall e, e < num_edges vd ->
    twin vd e < num_edges vd /\ twin vd (twin vd e) = e /\ twin vd e <> e.
Proof.
  unfold twins_paired. intros Hp e He.
  rewrite forallb_forall in Hp.
  specialize (Hp e). rewrite in_seq in Hp.
  specialize (Hp ltac:(lia)).
  apply andb_prop in Hp as [Hp H3]. apply andb_prop in Hp as [H1 H2].
  apply Nat.ltb_lt in H1. apply Nat.eqb_eq in H2.
  apply negb_true_iff in H3. apply Nat.eqb_neq in H3. auto.
Qed.

Lemma length_apply_writes (ws : list (nat * Write T)) (out : list (Vec2 T)) :
  length (apply_writes ws out) = length out.
Proof.
  unfold apply_writes. revert out.
  induction ws as [|w ws IH]; intros out; cbn; [reflexivity|].
  now rewrite IH, length_set_nth.
Qed.

Lemma nth_apply_writes_other (ws : list (nat * Write T)) (out : list (Vec2 T)) (j : nat) :
  (forall iw, In iw ws -> fst iw <> j) ->
  nth j (apply_writes ws out) unclassified = nth j out unclassified.
Proof.
  unfold apply_writes. revert out.
  induction ws as [|w ws IH]; intros out Hall; cbn; [reflexivity|].
  rewrite IH by (intros iw Hin; apply Hall; now right).
  apply nth_set_nth_neq. apply Hall. now left.
Qed.

Lemma writes_shape_indices (edge : nat) (ws : list (nat * Write T)) :
  writes_shape vd edge ws ->
  forall iw, In iw ws -> fst iw = edge \/ fst iw = twin vd edge.
Proof.
  intros Hs iw Hin. destruct Hs; cbn in Hin;
    repeat match goal with
    | H : _ \/ _ |- _ => destruct H
    | H : False |- _ => destruct H
    end; subst; cbn; auto.
Qed.

(** A round of the loop for [edge] leaves the entries of the other pairs
    as they are. *)
Lemma classify_edge_other (outside : bool) (D D2 : T) (out out' : list (Vec2 T))
    (edge j : nat) :
  classify_edge NDEBUG EPSILON SCALED_EPSILON vd lines k vertex_distances outside D D2 out edge
  = Some out' ->
  j <> edge -> j <> twin vd edge ->
  length out' = length out /\ nth j out' unclassified = nth j out unclassified.
Proof.
  unfold classify_edge. intros Hc Hj Hjt.
  destruct (_ || _); [injection Hc as <-; auto|].
  destruct (edge_writes _ _ _ _ _ _ _ _ _ _ _) as [ws|] eqn:Hw; [|discriminate].
  injection Hc as <-. split; [apply length_apply_writes|].
  apply nth_apply_writes_other. intros iw Hin.
  destruct (writes_shape_indices (edge_writes_shape _ _ _ _ _ _ _ _ _ _ _ Hw) iw Hin);
    congruence.
Qed.

Lemma nth_unclassified_init (e : nat) :
  nth e (map (fun _ => unclassified (T := T)) (edges vd)) unclassified = unclassified.
Proof.
  revert e. induction (edges vd) as [|h t IH]; intros [|e]; cbn; auto.
Qed.

(** C3.  For a half-edge [edge] of a diagram whose half-edges come in
    pairs, with the distances [d0] of its tail and [d1] of its head (the
    largest double for an absent vertex, negated when offsetting inwards)
    and [D] the offset distance made positive: if [d0 == d1] (which the
    source tests before the negation) or [D >= max (d0, d1)] (equality
    included), in the round of [edge] and, with the two distances in the
    other order, in the round of its twin, then in the array that
    [edge_offset_contour_intersections] returns the entries of [edge] and
    of its twin are the initial entry [(NaN, 0)]: no intersection is
    recorded on them. *)
Theorem skipped_pair_stays_unclassified (offset_distance : T) (out : list (Vec2 T))
    (edge : nat) :
  let outside := is_outside offset_distance in
  let D := offset_magnitude offset_distance in
  let d0 := end_distance vertex_distances outside (vertex0 vd edge) in
  let d1 := end_distance vertex_distances outside (vertex1 vd edge) in
  twins_paired vd = true ->
  edge < num_edges vd ->
  (raw_distance vertex_distances (vertex0 vd edge)
     =? raw_distance vertex_distances (vertex1 vd edge)) = true
  \/ (D >=? dmax_of d0 d1) = true ->
  (raw_distance vertex_distances (vertex1 vd edge)
     =? raw_distance vertex_distances (vertex0 vd edge)) = true
  \/ (D >=? dmax_of d1 d0) = true ->
  edge_offset_contour_intersections NDEBUG EPSILON SCALED_EPSILON vd lines k vertex_distances
    offset_distance = Some out ->
  nth edge out unclassified = unclassified
  /\ nth (twin vd edge) out unclassified = unclassified.
Proof.
  intros outside D d0 d1 Hp He Hskip Hskip' Hrun.
  pose proof (twins_paired_spec Hp) as Htw.
  destruct (Htw edge He) as (Hte & Htt & Hne).
  unfold edge_offset_contour_intersections in Hrun.
  do 2 apply assert_some in Hrun.
  fold outside D in Hrun.
  pose (P := fun (_ : nat) (o : list (Vec2 T)) =>
               nth edge o unclassified = unclassified
               /\ nth (twin vd edge) o unclassified = unclassified).
  refine (@for_edges_invariant _ _ P _ 0 _ _ _ _ Hrun).
  - split; apply nth_unclassified_init.
  - intros j s s' Hj [Hs1 Hs2] Hb. cbn in Hj. fold (num_edges vd) in Hj.
    destruct (Nat.eq_dec j edge) as [->|Hje].
    + (* the round of the half-edge *)
      destruct (skipped_edge_records_nothing NDEBUG EPSILON SCALED_EPSILON vd lines k
                  vertex_distances offset_distance s edge Hskip) as [_ Hc].
      fold outside D in Hc. rewrite Hc in Hb. injection Hb as <-. split; assumption.
    + destruct (Nat.eq_dec j (twin vd edge)) as [->|Hjt].
      * (* the round of its twin *)
        assert (Hskip2 :
                  (raw_distance vertex_distances (vertex0 vd (twin vd edge))
                     =? raw_distance vertex_distances (vertex1 vd (twin vd edge))) = true
                  \/ (D >=? dmax_of
                             (end_distance vertex_distances outside (vertex0 vd (twin vd edge)))
                             (end_distance vertex_distances outside (vertex1 vd (twin vd edge))))
                     = true).
        { unfold vertex1 at 1 2. rewrite Htt. exact Hskip'. }
        destruct (skipped_edge_records_nothing NDEBUG EPSILON SCALED_EPSILON vd lines k
                    vertex_distances offset_distance s (twin vd edge) Hskip2) as [_ Hc].
        fold outside D in Hc. rewrite Hc in Hb. injection Hb as <-. split; assumption.
      * (* the round of another pair *)
        destruct (Htw j ltac:(lia)) as (_ & Hjtt & _).
        assert (H1 : edge <> twin vd j) by (intros E; apply Hjt; rewrite E; auto).
        assert (H2 : twin vd edge <> twin vd j).
        { intros E. apply Hje. rewrite <- Hjtt, <- E. exact Htt. }
        destruct (@classify_edge_other _ _ _ _ _ j edge Hb (not_eq_sym Hje) H1) as [_ E1].
        destruct (@classify_edge_other _ _ _ _ _ j (twin vd edge) Hb (not_eq_sym Hjt) H2) as [_ E2].
        split; congruence.
Qed.

Lemma has_intersection_visited (p : Vec2 T) (y : T) :
  edge_offset_has_intersection (mkVec (vx p) y) = edge_offset_has_intersection p.
Proof. reflexivity. Qed.

Lemma stores_numbers_spec (outside : bool) (D D2 : T) (edge : nat)
    (ws : list (nat * Write T)) :
  stores_numbers NDEBUG EPSILON SCALED_EPSILON vd lines k vertex_distances outside D D2 = true ->
  edge < num_edges vd ->
  edge_writes NDEBUG EPSILON SCALED_EPSILON vd lines k vertex_distances outside D D2 edge
  = Some ws ->
  forall i q, In (i, Store q) ws -> edge_offset_has_intersection q = true.
Proof.
  unfold stores_numbers. intros Hs He Hw i q Hin.
  rewrite forallb_forall in Hs. specialize (Hs edge).
  rewrite in_seq in Hs. specialize (Hs ltac:(lia)).
  rewrite Hw in Hs. rewrite forallb_forall in Hs.
  exact (Hs (i, Store q) Hin).
Qed.

(** C9.  In the array that [edge_offset_contour_intersections] returns
    for a diagram whose half-edges come in pairs, when the points that the
    rounds store are points (their x is a number): a half-edge that
    carries an intersection point has a twin that carries one too, or that
    is marked visited ([y = 1]); the twin is never in the initial state
    [(NaN, 0)], which the loop takes as not classified. *)
Theorem no_pair_left_half_classified (offset_distance : T) (out : list (Vec2 T)) :
  let outside := is_outside offset_distance in
  let D := offset_magnitude offset_distance in
  twins_paired vd = true ->
  (lit 1 =? lit 0) = false ->
  stores_numbers NDEBUG EPSILON SCALED_EPSILON vd lines k vertex_distances outside D
    (offset_distance * offset_distance) = true ->
  edge_offset_contour_intersections NDEBUG EPSILON SCALED_EPSILON vd lines k vertex_distances
    offset_distance = Some out ->
  forall edge, edge < num_edges vd ->
    edge_offset_has_intersection (nth edge out unclassified) = true ->
    (edge_offset_has_intersection (nth (twin vd edge) out unclassified) = true
     \/ vy (nth (twin vd edge) out unclassified) = lit 1)
    /\ classified (nth (twin vd edge) out unclassified) = true.
Proof.
  intros outside D Hp H10 Hnum Hrun.
  pose proof (twins_paired_spec Hp) as Htw.
  unfold edge_offset_contour_intersections in Hrun.
  do 2 apply assert_some in Hrun.
  fold outside D in Hrun.
  set (D2 := offset_distance * offset_distance) in *.
  pose (P := fun (_ : nat) (o : list (Vec2 T)) =>
               length o = num_edges vd
               /\ forall e, e < num_edges vd ->
                    edge_offset_has_intersection (nth e o unclassified) = true ->
                    edge_offset_has_intersection (nth (twin vd e) o unclassified) = true
                    \/ vy (nth (twin vd e) o unclassified) = lit 1).
  assert (HP : P (0 + num_edges vd)%nat out).
  { refine (@for_edges_invariant _ _ P _ 0 _ _ _ _ Hrun).
    - split; [apply length_map|].
      intros e _. rewrite !nth_unclassified_init. auto.
    - intros j s s' Hj [Hlen Hinv] Hb. cbn in Hj.
      assert (Hjn : j < num_edges vd) by lia. clear Hj.
      destruct (Htw j Hjn) as (Htj & Htt & Hne).
      assert (Hne' : j <> twin vd j) by congruence.
      pose proof Hb as Hb0.
      unfold classify_edge in Hb.
      destruct (edge_offset_has_intersection (nth j s unclassified)
                || negb (vy (nth j s unclassified) =? lit 0)) eqn:Hcl.
      { injection Hb as <-. split; assumption. }
      apply orb_false_iff in Hcl as [Hi Hy]. apply negb_false_iff in Hy.
      (* the twin carries no point: [j] would be classified *)
      assert (Hti : edge_offset_has_intersection (nth (twin vd j) s unclassified) = false).
      { destruct (edge_offset_has_intersection (nth (twin vd j) s unclassified)) eqn:E;
          [|reflexivity].
        destruct (Hinv (twin vd j) Htj E) as [F|F]; rewrite Htt in F; congruence. }
      destruct (edge_writes NDEBUG EPSILON SCALED_EPSILON vd lines k vertex_distances
                  outside D D2 j) as [ws|] eqn:Hw; [|discriminate].
      injection Hb as <-.
      pose proof (stores_numbers_spec _ _ _ Hnum Hjn Hw) as Hq.
      pose proof (edge_writes_shape _ _ _ _ _ _ _ _ _ _ _ Hw) as Hshape.
      split; [now rewrite length_apply_writes|].
      intros e He.
      destruct (Htw e He) as (Hte & Hett & _).
      destruct (Nat.eq_dec e j) as [->|Hej];
        [| destruct (Nat.eq_dec e (twin vd j)) as [->|Hejt]].
      + (* the half-edge of the round *)
        destruct Hshape; unfold apply_writes; cbn;
          repeat first
            [ rewrite nth_set_nth_eq by (rewrite ?length_set_nth; lia)
            | rewrite nth_set_nth_neq by assumption ];
          cbn; rewrite ?has_intersection_visited; intros Hq1; auto; try congruence.
        left. apply (Hq (twin vd j) q0). right. left. reflexivity.
      + (* its twin *)
        rewrite Htt.
        destruct Hshape; unfold apply_writes; cbn;
          repeat first
            [ rewrite nth_set_nth_eq by (rewrite ?length_set_nth; lia)
            | rewrite nth_set_nth_neq by assumption ];
          cbn; rewrite ?has_intersection_visited; intros Hq1; auto; try congruence.
        left. apply (Hq j q1). left. reflexivity.
      + (* a half-edge of another pair *)
        assert (H1 : twin vd e <> j) by (intros E; apply Hejt; rewrite <- E; auto).
        assert (H2 : twin vd e <> twin vd j).
        { intros E. apply Hej. rewrite <- Hett, E. exact Htt. }
        destruct (@classify_edge_other _ _ _ _ _ j e Hb0 Hej Hejt) as [_ E1].
        destruct (@classify_edge_other _ _ _ _ _ j (twin vd e) Hb0 H1 H2) as [_ E2].
        rewrite E1, E2. apply Hinv. exact He. }
  destruct HP as [_ Hinv].
  intros edge He Hi. destruct (Hinv edge He Hi) as [F|F]; (split; [auto|]).
  - unfold classified. now rewrite F.
  - unfold classified. rewrite F, H10. apply orb_true_r.
Qed.

End SolverRun.


(** ** The triangle and the hexagon in binary64 *)

Example triangle_annotation :
  annotate_inside_outside (T := PrimFloat.float) true triangle_vd triangle_lines
  = Some triangle_colors.
Proof. vm_compute. reflexivity. Qed.

Example triangle_signed_distances :
  signed_vertex_distances (T := PrimFloat.float) true triangle_vd triangle_lines triangle_colors
  = Some triangle_distances.
Proof. vm_compute. reflexivity. Qed.

Example lshape_annotation :
  annotate_inside_outside (T := PrimFloat.float) true lshape_vd lshape_lines
  = Some lshape_colors.
Proof. vm_compute. reflexivity. Qed.

Example lshape_signed_distances :
  signed_vertex_distances (T := PrimFloat.float) true lshape_vd lshape_lines lshape_colors
  = Some lshape_distances.
Proof. vm_compute. reflexivity. Qed.

(** The triangle offset inwards by 500: the triangle of the points half way
    to the incentre. *)
Example triangle_offset_inwards :
  offset (T := PrimFloat.float) true EPSILON SCALED_EPSILON (fun x => x) (fun x => x) (fun x => x)
    (fun _ => 0) triangle_vd triangle_lines triangle_colors triangle_distances
    (of_coord (-500)) (of_coord 10)
  = Some [[mkPoint 500 2000; mkPoint 2500 500; mkPoint 500 500]].
Proof. vm_compute. reflexivity. Qed.


(** ** The loop on the triangle and on the hexagon *)

Lemma refined_minimum_decides_witness :
  edge_writes (T := PrimFloat.float) true EPSILON SCALED_EPSILON lshape_vd lshape_lines
    lshape_colors lshape_distances
    (is_outside (T := PrimFloat.float) (of_coord (-50))) (offset_magnitude (of_coord (-50)))
    (s_mul (of_coord (-50)) (of_coord (-50))) 20
  = Some [(21, Visit); (20, Visit)]
  /\ [(21, Visit (T := PrimFloat.float)); (20, Visit)]
     = [(twin (lshape_vd (T := PrimFloat.float)) 20, Visit); (20, Visit)].
Proof.
  assert (Hw : edge_writes (T := PrimFloat.float) true EPSILON SCALED_EPSILON lshape_vd
                 lshape_lines lshape_colors lshape_distances
                 (is_outside (T := PrimFloat.float) (of_coord (-50))) (offset_magnitude (of_coord (-50)))
                 (s_mul (of_coord (-50)) (of_coord (-50))) 20
               = Some [(21, Visit); (20, Visit)])
    by (vm_compute; reflexivity).
  split; [exact Hw|].
  pose proof (@refined_minimum_decides PrimFloat.float _ true EPSILON SCALED_EPSILON
                lshape_vd lshape_lines lshape_colors lshape_distances
                (is_outside (T := PrimFloat.float) (of_coord (-50))) (offset_magnitude (of_coord (-50)))
                (s_mul (of_coord (-50)) (of_coord (-50))) 20 7 8
                [(21, Visit); (20, Visit)]
                ltac:(reflexivity) ltac:(reflexivity) ltac:(reflexivity) ltac:(reflexivity)
                ltac:(vm_compute; reflexivity) ltac:(vm_compute; reflexivity) Hw)
    as [_ Hthm].
  match type of Hthm with
  | if ?c then _ else _ =>
      let v := eval vm_compute in c in change c with v in Hthm
  end.
  exact Hthm.
Defined.

Lemma skipped_pair_stays_unclassified_witness :
  nth 0 triangle_edge_points unclassified = unclassified
  /\ nth (twin (triangle_vd (T := PrimFloat.float)) 0) triangle_edge_points unclassified
     = unclassified.
Proof.
  refine (@skipped_pair_stays_unclassified PrimFloat.float _ true EPSILON SCALED_EPSILON
            triangle_vd triangle_lines triangle_colors triangle_distances
            (of_coord (-500)) triangle_edge_points 0 _ _ _ _ _).
  - vm_compute. reflexivity.
  - cbn. lia.
  - right. vm_compute. reflexivity.
  - right. vm_compute. reflexivity.
  - vm_compute. reflexivity.
Defined.

Lemma no_pair_left_half_classified_witness :
  (edge_offset_has_intersection
     (nth (twin (triangle_vd (T := PrimFloat.float)) 4) triangle_edge_points unclassified) = true
   \/ vy (nth (twin (triangle_vd (T := PrimFloat.float)) 4) triangle_edge_points unclassified)
      = lit 1)
  /\ classified
       (nth (twin (triangle_vd (T := PrimFloat.float)) 4) triangle_edge_points unclassified)
     = true.
Proof.
  refine (@no_pair_left_half_classified PrimFloat.float _ true EPSILON SCALED_EPSILON
            triangle_vd triangle_lines triangle_colors triangle_distances
            (of_coord (-500)) triangle_edge_points _ _ _ _ 4 _ _).
  - vm_compute. reflexivity.
  - vm_compute. reflexivity.
  - vm_compute. reflexivity.
  - vm_compute. reflexivity.
  - cbn. lia.
  - vm_compute. reflexivity.
Defined.


(** ** Signed distances *)

Section DistanceFacts.

Context {T : Type} `{Scalar T}.
Variable NDEBUG : bool.
Variable vd : VD T.
Variable lines : Lines.

Lemma rot_iter_S n edge : rot_iter vd (S n) edge = rot_iter vd n (rot_next vd edge).
Proof. unfold rot_iter. now rewrite Nat.iter_succ_r. Qed.



Lemma for_vertices_nth k n i out d :
  for_vertices vd lines k n i = Some out ->
  length out = n
  /\ forall j, j < n -> signed_vertex_distance vd lines k (i + j) = Some (nth j out d).
Proof.
  revert i out. induction n as [|n IH]; intros i out Hf; cbn in Hf.
  - injection Hf as <-. split; [reflexivity|]. intros j Hj. lia.
  - destruct (signed_vertex_distance vd lines k i) eqn:Hd; [|discriminate].
    destruct (for_vertices vd lines k n (S i)) eqn:Hr; [|discriminate].
    injection Hf as <-. destruct (IH _ _ Hr) as [Hlen Hnth].
    split; [cbn; now rewrite Hlen|].
    intros [|j] Hj; cbn.
    + now rewrite Nat.add_0_r.
    + rewrite Nat.add_succ_r. apply Hnth. lia.
Qed.


End DistanceFacts.


Local Open Scope R_scope.



Local Close Scope R_scope.





(** ** The tracer *)

Lemma for_edges_app {S : Type} (body : S -> nat -> option S) (a b i : nat) (st : S) :
  for_edges body (a + b) i st
  = match for_edges body a i st with
    | Some st' => for_edges body b (i + a) st'
    | None => None
    end.
Proof.
  revert i st. induction a as [|a IH]; intros i st; cbn.
  - now rewrite Nat.add_0_r.
  - destruct (body st i) as [st'|]; [|reflexivity].
    rewrite IH. now rewrite Nat.add_succ_r.
Qed.

Lemma for_edges_stops {S : Type} (body : S -> nat -> option S) (n i : nat) (st st' : S) :
  i < n ->
  for_edges body i 0 st = Some st' ->
  body st' i = None ->
  for_edges body n 0 st = None.
Proof.
  intros Hi Hpre Hbody.
  replace n with (i + Datatypes.S (n - i - 1)) by lia.
  rewrite for_edges_app, Hpre. cbn. now rewrite Hbody.
Qed.

Section TracerFacts.

Context {T : Type} `{Scalar T}.

Variable NDEBUG : bool.
Variable EPSILON : T.
Variable SCALED_EPSILON : T.
Variable m_acos : T -> T.
Variable m_cos : T -> T.
Variable m_sin : T -> T.
Variable ceil_size : T -> nat.
Variable vd : VD T.
Variable lines : Lines.

(** C6, as the code has it.  When [next_offset_edge] returns [nullptr] for
    the current half-edge the walk stops there, with the polygon traced so
    far; the run then ends at [assert(next_edge)] (or at the use of the null
    pointer) without a result: the round of the seed has none, and neither
    has the tracing as a whole, whatever polygons the earlier seeds closed.
    No error value is built from the seed index or from the partial
    polygon. *)
Theorem open_walk_gives_no_result
    (offset_distance discretization_error : T)
    (edge_points0 edge_points : list (Vec2 T)) (out : list Polygon)
    (seed_edge_idx : nat) (partial : Polygon) :
  let angle_step :=
    s_mul (lit 2) (m_acos (s_div (s_sub offset_distance discretization_error) offset_distance)) in
  let cos_threshold := m_cos angle_step in
  let last_pt := nth seed_edge_idx edge_points unclassified in
  seed_edge_idx < num_edges vd ->
  for_edges
    (trace_seed NDEBUG EPSILON SCALED_EPSILON m_acos m_cos m_sin ceil_size vd lines
       offset_distance angle_step cos_threshold)
    seed_edge_idx 0 (edge_points0, []) = Some (edge_points, out) ->
  edge_offset_has_intersection last_pt = true ->
  walk NDEBUG EPSILON SCALED_EPSILON m_acos m_cos m_sin ceil_size vd lines
    (S (num_edges vd)) offset_distance angle_step cos_threshold edge_points
    seed_edge_idx seed_edge_idx last_pt [] = Some (Open partial) ->
  (forall fuel edge_points' start_edge edge pt poly,
      next_offset_edge vd edge_points' edge = Some None ->
      walk NDEBUG EPSILON SCALED_EPSILON m_acos m_cos m_sin ceil_size vd lines
        (S fuel) offset_distance angle_step cos_threshold edge_points' start_edge edge pt poly
      = Some (Open poly))
  /\ trace_seed NDEBUG EPSILON SCALED_EPSILON m_acos m_cos m_sin ceil_size vd lines
       offset_distance angle_step cos_threshold (edge_points, out) seed_edge_idx = None
  /\ trace_polygons NDEBUG EPSILON SCALED_EPSILON m_acos m_cos m_sin ceil_size vd lines
       offset_distance discretization_error edge_points0 = None.
Proof.
  intros angle_step cos_threshold last_pt Hlt Hpre Hint Hwalk.
  assert (Hseed : trace_seed NDEBUG EPSILON SCALED_EPSILON m_acos m_cos m_sin ceil_size
                    vd lines offset_distance angle_step cos_threshold (edge_points, out)
                    seed_edge_idx = None).
  { unfold trace_seed. fold last_pt. rewrite Hint, Hwalk. reflexivity. }
  split; [|split].
  - intros fuel ep start_edge edge pt poly Hnext. cbn -[next_offset_edge]. now rewrite Hnext.
  - exact Hseed.
  - unfold trace_polygons. fold angle_step cos_threshold.
    now rewrite (@for_edges_stops _ _ _ _ _ _ Hlt Hpre Hseed).
Qed.

End TracerFacts.

(** C6, the claim as the spec has it fails.  On the triangle, offset 500
    inwards, with the intersections of the half-edges 4 and 16 recorded
    and the one of the half-edge 10 missing: the walk from the seed 4
    traces the point (500, 2000) and finds no next half-edge around the
    cell of the half-edge 16; the tracing has no result, with or without
    assertions, and the point traced is lost with it. *)
Lemma open_walk_discards_partial_polygon :
  let edge_points : list (Vec2 PrimFloat.float) :=
    set_nth 4 (mkVec (of_coord 500) (of_coord 500))
      (set_nth 16 (mkVec (of_coord 500) (of_coord 2000))
         (map (fun _ => unclassified) triangle_edges)) in
  next_offset_edge triangle_vd edge_points 4 = Some (Some 16)
  /\ next_offset_edge triangle_vd
       (set_nth 16 (mkVec nan (of_coord 2000)) edge_points) 16 = Some None
  /\ walk true EPSILON SCALED_EPSILON (fun x => x) (fun x => x) (fun x => x) (fun _ => 0)
       triangle_vd triangle_lines (S (num_edges (triangle_vd (T := PrimFloat.float))))
       (of_coord (-500)) (of_coord 1) (of_coord 1)
       edge_points 4 4 (nth 4 edge_points unclassified) []
     = Some (Open [mkPoint 500 2000])
  /\ forall NDEBUG : bool,
       trace_polygons NDEBUG EPSILON SCALED_EPSILON (fun x => x) (fun x => x) (fun x => x)
         (fun _ => 0) triangle_vd triangle_lines (of_coord (-500)) (of_coord 10) edge_points
       = None.
Proof.
  cbv zeta.
  split; [vm_compute; reflexivity|].
  split; [vm_compute; reflexivity|].
  split; [vm_compute; reflexivity|].
  intros [|]; vm_compute; reflexivity.
Qed.

Lemma open_walk_gives_no_result_witness :
  walk (T := PrimFloat.float) true EPSILON SCALED_EPSILON (fun x => x) (fun x => x) (fun x => x)
    (fun _ => 0) lshape_vd lshape_lines (S (num_edges (lshape_vd (T := PrimFloat.float))))
    (of_coord 1000)
    (s_mul (lit 2) (s_div (s_sub (of_coord 1000) (of_coord 10)) (of_coord 1000)))
    (s_mul (lit 2) (s_div (s_sub (of_coord 1000) (of_coord 10)) (of_coord 1000)))
    (fst lshape_trace_state) 38 38 (nth 38 (fst lshape_trace_state) unclassified) []
  = Some (Open [mkPoint 10000 7000])
  /\ trace_polygons (T := PrimFloat.float) true EPSILON SCALED_EPSILON
       (fun x => x) (fun x => x) (fun x => x) (fun _ => 0) lshape_vd lshape_lines
       (of_coord 1000) (of_coord 10) lshape_edge_points
     = None.
Proof.
  assert (Hw : walk (T := PrimFloat.float) true EPSILON SCALED_EPSILON
                 (fun x => x) (fun x => x) (fun x => x)
                 (fun _ => 0) lshape_vd lshape_lines
                 (S (num_edges (lshape_vd (T := PrimFloat.float))))
                 (of_coord 1000)
                 (s_mul (lit 2) (s_div (s_sub (of_coord 1000) (of_coord 10)) (of_coord 1000)))
                 (s_mul (lit 2) (s_div (s_sub (of_coord 1000) (of_coord 10)) (of_coord 1000)))
                 (fst lshape_trace_state) 38 38
                 (nth 38 (fst lshape_trace_state) unclassified) []
               = Some (Open [mkPoint 10000 7000])) by (vm_compute; reflexivity).
  split; [exact Hw|].
  refine (proj2 (proj2 (@open_walk_gives_no_result PrimFloat.float _ true EPSILON SCALED_EPSILON
                          (fun x => x) (fun x => x) (fun x => x) (fun _ => 0)
                          lshape_vd lshape_lines (of_coord 1000) (of_coord 10)
                          lshape_edge_points (fst lshape_trace_state) (snd lshape_trace_state)
                          38 [mkPoint 10000 7000] _ _ _ Hw))).
  - cbn. lia.
  - vm_compute. reflexivity.
  - vm_compute. reflexivity.
Defined.



(** ** Offsetting by zero *)




(** With the assertions compiled out the guard is gone: on the triangle
    [offset] by 0 returns the points of the contour, in the order
    opposite to the contour's. *)
Lemma offset_by_zero_without_assertions :
  offset_diagram (T := PrimFloat.float) true EPSILON SCALED_EPSILON
    (fun x => x) (fun x => x) (fun x => x) (fun _ => 0) triangle_vd triangle_lines
    (of_coord 0) (of_coord 10)
  = Some [rev (map la triangle_lines)].
Proof. vm_compute. reflexivity. Qed.



(** ** The annotation of the L-shaped hexagon *)

Section AnnotationFacts.

Context {T : Type} `{Scalar T}.
Variable vd : VD T.
Variable lines : Lines.

(** The round of the first loop of [annotate_inside_outside] for an
    infinite half-edge between two point cells, with the assertions
    compiled out: the origin of the half-edge is marked [OnContour],
    whatever its category was and wherever it lies. *)
Lemma infinite_primary_edge_marks_origin (k : Colors) (edge v0 : nat) :
  vertex1 vd edge = None ->
  vertex0 vd edge = Some v0 ->
  is_secondary vd edge = false ->
  annotate_from_segments true vd lines k edge
  = Some (set_vertex_category
            (set_edge_category (set_edge_category k edge PointsOutside)
               (twin vd edge) PointsToContour)
            v0 VertexOnContour).
Proof.
  intros H1 H0 Hs. unfold annotate_from_segments.
  rewrite H1, H0, Hs. reflexivity.
Qed.

End AnnotationFacts.

(** C5, on the L-shaped hexagon with the assertions compiled out.  The
    half-edge 46 leaves the vertex 12, at (26000, 21000) and 17000 away
    from the contour, for infinity between the cells of the points
    (9000, 21000) and (18000, 6000); its round comes after those of the
    half-edges 42 and 44, which mark the vertex [Outside], and marks it
    [OnContour].  The cell 3, of the segment from (9000, 6000) to
    (9000, 21000), is [Boundary], and the walk around it counts three
    vertices [OnContour]: the two ends of the segment and the vertex 12.
    With the assertions, the round of the half-edge 46 fails in
    [annotate_vertex], and the annotation has no result. *)
Theorem lshape_boundary_cell_three_on_contour :
  annotate_inside_outside (T := PrimFloat.float) true lshape_vd lshape_lines
  = Some lshape_colors
  /\ cell_category lshape_colors 3 = CellBoundary
  /\ contains_segment (lshape_vd (T := PrimFloat.float)) 3 = true
  /\ cell_counts (lshape_vd (T := PrimFloat.float)) lshape_colors 3
     = Some (mkCounts 3 2 1 2 2 2)
  /\ vertex_category lshape_colors 12 = VertexOnContour
  /\ option_map to_coord (site_distance (T := PrimFloat.float) lshape_vd lshape_lines 12)
     = Some 17000%Z
  /\ (exists k : Colors,
        for_edges (annotate_from_segments (T := PrimFloat.float) false lshape_vd lshape_lines)
          46 0 (reset_inside_outside_annotations lshape_vd) = Some k
        /\ vertex_category k 12 = VertexOutside
        /\ annotate_from_segments (T := PrimFloat.float) false lshape_vd lshape_lines k 46
           = None)
  /\ annotate_inside_outside (T := PrimFloat.float) false lshape_vd lshape_lines = None.
Proof.
  split; [vm_compute; reflexivity|].
  split; [vm_compute; reflexivity|].
  split; [vm_compute; reflexivity|].
  split; [vm_compute; reflexivity|].
  split; [vm_compute; reflexivity|].
  split; [vm_compute; reflexivity|].
  split; [|vm_compute; reflexivity].
  eexists. split; [vm_compute; reflexivity|].
  split; vm_compute; reflexivity.
Qed.



(** ** The annotation of the four-pointed star *)

Section ExpansionFacts.

Context {T : Type} `{Scalar T}.
Variable vd : VD T.

(** The round of the second loop of [annotate_inside_outside] for a
    half-edge that has no category, when its origin has none either:
    nothing is annotated and no cell is queued. *)
Lemma annotate_expand_unknown_origin (k : Colors) (cell_queue : list nat) (edge v0 : nat) :
  edge_category k edge = EdgeUnknown ->
  vertex0 vd edge = Some v0 ->
  vertex_category k v0 = VertexUnknown ->
  annotate_expand true vd (k, cell_queue) edge = Some (k, cell_queue).
Proof.
  intros He Hv0 Hvc. unfold annotate_expand, assert.
  rewrite He, Hv0, Hvc. reflexivity.
Qed.

(** The seed fill with an empty queue changes nothing. *)
Lemma seed_fill_empty_queue (NDEBUG : bool) (fuel : nat) (k : Colors) :
  seed_fill NDEBUG vd fuel (k, []) = Some k.
Proof. destruct fuel; reflexivity. Qed.

End ExpansionFacts.

(** C1, on the four-pointed star with the assertions compiled out.  The
    first loop leaves the vertices 12 and 13 (w and w') and the half-edges
    38 and 39 between them without a category.  The second loop comes to
    the half-edges 38 and 39 before any other half-edge at w or w': it
    finds their origins without a category and skips them; it then marks
    w and w' from their other neighbours, and queues no cell, the cells
    of the four concave corners being [Inside] already.  The seed fill has
    nothing to do, and the half-edges 38 and 39 are left [Unknown].  With
    the assertions, the annotation has no result. *)
Theorem star_annotation_leaves_edges_unknown :
  (exists k : Colors,
      for_edges (annotate_from_segments (T := PrimFloat.float) true star_vd star_lines)
        (num_edges (star_vd (T := PrimFloat.float))) 0
        (reset_inside_outside_annotations star_vd) = Some k
      /\ vertex_category k 12 = VertexUnknown
      /\ vertex_category k 13 = VertexUnknown
      /\ edge_category k 38 = EdgeUnknown
      /\ edge_category k 39 = EdgeUnknown
      /\ for_edges (annotate_expand (T := PrimFloat.float) true star_vd) 40 0 (k, [])
         = Some (k, [])
      /\ for_edges (annotate_expand (T := PrimFloat.float) true star_vd)
           (num_edges (star_vd (T := PrimFloat.float))) 0 (k, [])
         = Some (star_colors, []))
  /\ annotate_inside_outside (T := PrimFloat.float) true star_vd star_lines
     = Some star_colors
  /\ edge_category star_colors 38 = EdgeUnknown
  /\ edge_category star_colors 39 = EdgeUnknown
  /\ all_annotated (star_vd (T := PrimFloat.float)) star_colors = false
  /\ annotate_inside_outside (T := PrimFloat.float) false star_vd star_lines = None.
Proof.
  split.
  { eexists. split; [vm_compute; reflexivity|].
    split; [vm_compute; reflexivity|].
    split; [vm_compute; reflexivity|].
    split; [vm_compute; reflexivity|].
    split; [vm_compute; reflexivity|].
    split; vm_compute; reflexivity. }
  split; [vm_compute; reflexivity|].
  split; [vm_compute; reflexivity|].
  split; [vm_compute; reflexivity|].
  split; vm_compute; reflexivity.
Qed.



(** ** The minimum along an edge between two points, on the star *)

(** C4, on the four-pointed star with the assertions compiled out, offset
    1400 inwards, at the half-edge 40: it runs from the vertex 9 =
    (9800,41000), at the distance 1414.2 from the contour, to the vertex
    12 = (10000,40900), at the distance 1500, between the cells of the
    points (10000,42400) and (8800,40000); it is finite and primary, and
    not skipped.  The offset 1400 is below the minimum of the ends, and
    the foot point of the site on the edge falls before its first end, so
    the minimum of the ends stands and no point of the edge is at the
    distance 1400 (neither the refinement nor the squares change that).
    The source compares the square of the offset with the minimum itself,
    [offset_distance2 >= dmin]: it takes the edge to be intersected
    without looking for the minimum, calls the kernel, and stores for the
    half-edge 40 the point (9757.8, 41021.1) of the bisector, which lies
    before the first end of the edge; the array returned carries it. *)
Theorem star_edge_intersected_below_minimum :
  let vd := star_vd (T := PrimFloat.float) in
  let delta : PrimFloat.float := of_coord (-1400) in
  let outside := is_outside delta in
  let D := offset_magnitude delta in
  let D2 := s_mul delta delta in
  let d0 := end_distance star_distances outside (vertex0 vd 40) in
  let d1 := end_distance star_distances outside (vertex1 vd 40) in
  let dmin := dmin_of d0 d1 in
  let p0 := vertex_point vd 9 in
  let p1 := vertex_point vd 12 in
  let line0 := line_at star_lines (source_index vd (cell vd 40)) in
  let px_ := cast (contour_point vd (cell vd 40) line0) in
  let v := vsub p1 p0 in
  (annotate_inside_outside true vd star_lines = Some star_colors
   /\ signed_vertex_distances true vd star_lines star_colors = Some star_distances)
  /\ (vertex0 vd 40 = Some 9 /\ vertex1 vd 40 = Some 12
      /\ contains_point vd (cell vd 40) = true
      /\ contains_point vd (cell vd (twin vd 40)) = true
      /\ is_secondary vd 40 = false
      /\ skipped vd star_distances outside D 40 = false)
  /\ (s_ltb D dmin = true
      /\ s_ltb (s_mul D D) (s_mul dmin dmin) = true
      /\ s_ltb (dot v (vsub px_ p0)) (lit 0) = true
      /\ refined_dmin false line0 p0 p1 px_ dmin = dmin)
  /\ s_leb dmin D2 = true
  /\ exists q out,
       edge_writes true EPSILON SCALED_EPSILON vd star_lines star_colors star_distances
         outside D D2 40 = Some [(40, Store q); (41, Visit)]
       /\ s_ltb (dot v (vsub q p0)) (lit 0) = true
       /\ to_point q = mkPoint 9757 41021
       /\ edge_offset_contour_intersections true EPSILON SCALED_EPSILON vd star_lines
            star_colors star_distances delta = Some out
       /\ nth 40 out unclassified = q
       /\ edge_offset_has_intersection (nth 40 out unclassified) = true.
Proof.
  cbv zeta.
  split; [split; vm_compute; reflexivity|].
  split; [repeat (split; [vm_compute; reflexivity|]); vm_compute; reflexivity|].
  split; [repeat (split; [vm_compute; reflexivity|]); vm_compute; reflexivity|].
  split; [vm_compute; reflexivity|].
  eexists. eexists.
  split; [vm_compute; reflexivity|].
  split; [vm_compute; reflexivity|].
  split; [vm_compute; reflexivity|].
  split; [vm_compute; reflexivity|].
  split; vm_compute; reflexivity.
Qed.


(** * Further properties of the code *)

(** ** The pairs of half-edges *)

Lemma point_eqb_eq (p q : Point) : point_eqb p q = true <-> p = q.
Proof.
  unfold point_eqb. rewrite andb_true_iff, !Z.eqb_eq.
  destruct p, q; cbn. split; [intros [-> ->]; reflexivity | intros E; injection E; auto].
Qed.

Section TwinFacts.

Context {T : Type} `{Scalar T}.
Variable vd : VD T.
Variable lines : Lines.

Lemma verify_twin_pairs_spec (n i j : nat) :
  verify_twin_pairs vd lines n i = true -> j < n ->
  verify_twin_pair vd lines (i + 2 * j) (i + 2 * j + 1) = true.
Proof.
  revert i j. induction n as [|n IH]; intros i j Hv Hj; [lia|].
  cbn in Hv. apply andb_prop in Hv as [Hp Hr].
  destruct j as [|j].
  - now replace (i + 2 * 0) with i by lia.
  - replace (i + 2 * S j) with (i + 2 + 2 * j) by lia. apply IH; [exact Hr | lia].
Qed.

Lemma verified_pair_of (e : nat) :
  verify_twin_halfedges_successive vd lines = true ->
  e < num_edges vd ->
  exists a, verify_twin_pair vd lines a (a + 1) = true
            /\ ((Nat.even e = true /\ e = a) \/ (Nat.even e = false /\ e = a + 1)).
Proof.
  unfold verify_twin_halfedges_successive. intros Hv He.
  pose proof (Nat.div2_odd e) as De.
  pose proof (Nat.div2_odd (num_edges vd + 1)) as Dn.
  assert (Hj : Nat.div2 e < Nat.div2 (num_edges vd + 1)).
  { destruct (Nat.odd e), (Nat.odd (num_edges vd + 1)); cbn in *; lia. }
  pose proof (@verify_twin_pairs_spec _ 0 _ Hv Hj) as Hp. cbn [Nat.add] in Hp.
  exists (2 * Nat.div2 e). split; [exact Hp|].
  rewrite <- Nat.negb_odd.
  destruct (Nat.odd e); cbn in *; [right | left]; split; auto; lia.
Qed.

(** X1.  What [debug::verify_twin_halfedges_successive] asserts, for every
    half-edge [e] of the array when all its assertions hold: the twin of
    [e] is its neighbour in the array ([e + 1] for an even [e], [e - 1] for
    an odd one), the twin of the twin is [e] itself, and both are secondary
    or both primary; of a secondary pair, one half-edge lies in the cell
    of a point and the other in the cell of a segment of which the point
    is an end.  With an even number of half-edges, every twin is a
    half-edge of the array. *)
Theorem verified_twins_are_neighbours (e : nat) :
  verify_twin_halfedges_successive vd lines = true ->
  e < num_edges vd ->
  twin vd e = (if Nat.even e then e + 1 else e - 1)
  /\ twin vd (twin vd e) = e
  /\ twin vd e <> e
  /\ is_secondary vd (twin vd e) = is_secondary vd e
  /\ (is_secondary vd e = true ->
      let p := if contains_point vd (cell vd e) then e else twin vd e in
      contains_point vd (cell vd p) = true
      /\ contains_segment vd (cell vd (twin vd p)) = true
      /\ (contour_point_of vd (cell vd p) lines
          = la (line_at lines (source_index vd (cell vd (twin vd p))))
          \/ contour_point_of vd (cell vd p) lines
             = lb (line_at lines (source_index vd (cell vd (twin vd p))))))
  /\ (Nat.even (num_edges vd) = true -> twins_paired vd = true).
Proof.
  intros Hv He.
  assert (Hall : forall e, e < num_edges vd ->
            twin vd e = (if Nat.even e then e + 1 else e - 1)
            /\ twin vd (twin vd e) = e
            /\ twin vd e <> e
            /\ is_secondary vd (twin vd e) = is_secondary vd e
            /\ (is_secondary vd e = true ->
                let p := if contains_point vd (cell vd e) then e else twin vd e in
                contains_point vd (cell vd p) = true
                /\ contains_segment vd (cell vd (twin vd p)) = true
                /\ (contour_point_of vd (cell vd p) lines
                    = la (line_at lines (source_index vd (cell vd (twin vd p))))
                    \/ contour_point_of vd (cell vd p) lines
                       = lb (line_at lines (source_index vd (cell vd (twin vd p))))))).
  { clear e He. intros e He.
    destruct (verified_pair_of Hv He) as (a & Hp & Hcase).
    unfold verify_twin_pair in Hp.
    apply andb_prop in Hp as [Hp Hsec]. apply andb_prop in Hp as [Hp Hs].
    apply andb_prop in Hp as [H1 H2].
    apply Nat.eqb_eq in H1, H2. apply Bool.eqb_prop in Hs.
    assert (Hsec' : is_secondary vd a = true ->
              let p := if contains_point vd (cell vd a) then a else a + 1 in
              contains_point vd (cell vd p) = true
              /\ contains_point vd (cell vd (twin vd p)) = false
              /\ (contour_point_of vd (cell vd p) lines
                  = la (line_at lines (source_index vd (cell vd (twin vd p))))
                  \/ contour_point_of vd (cell vd p) lines
                     = lb (line_at lines (source_index vd (cell vd (twin vd p)))))).
    { intros Hsa. rewrite Hsa in Hsec. apply andb_prop in Hsec as [Hne Hpt].
      apply negb_true_iff, Bool.eqb_false_iff in Hne.
      apply orb_prop in Hpt.
      cbv zeta in Hpt |- *.
      fold (contour_point vd (cell vd (if contains_point vd (cell vd a) then a else a + 1))
              (line_at lines
                 (source_index vd (cell vd (if contains_point vd (cell vd a) then a else a + 1)))))
        in Hpt.
      rewrite !point_eqb_eq in Hpt. unfold contour_point_of.
      destruct (contains_point vd (cell vd a)) eqn:Ea.
      - rewrite H1 in Hpt |- *. split; [exact Ea|]. split; [|exact Hpt].
        destruct (contains_point vd (cell vd (a + 1))); congruence.
      - rewrite H2 in Hpt |- *. split; [|split; [exact Ea | exact Hpt]].
        destruct (contains_point vd (cell vd (a + 1))); congruence. }
    destruct Hcase as [[Hev ->] | [Hev ->]]; rewrite Hev.
    - rewrite H1, H2.
      split; [reflexivity|]. split; [reflexivity|]. split; [lia|].
      split; [now symmetry|].
      intros Hsa. specialize (Hsec' Hsa). cbv zeta in Hsec' |- *.
      unfold contains_segment.
      destruct (contains_point vd (cell vd a)); destruct Hsec' as (A & B & C);
        rewrite ?H1, ?H2 in *; rewrite ?B; auto.
    - replace (a + 1 - 1) with a by lia. rewrite H2, H1.
      split; [reflexivity|]. split; [reflexivity|]. split; [lia|].
      split; [exact Hs|].
      intros Hsa. rewrite <- Hs in Hsa. specialize (Hsec' Hsa). cbv zeta in Hsec' |- *.
      unfold contains_segment.
      destruct (contains_point vd (cell vd a)) eqn:Ea; destruct Hsec' as (A & B & C).
      + rewrite H1 in B, C. rewrite B, H1, B, Ea. auto.
      + rewrite H2 in B, C. rewrite A, H2, B, A. auto. }
  destruct (Hall e He) as (A & B & C & D & E).
  split; [exact A|]. split; [exact B|]. split; [exact C|]. split; [exact D|].
  split; [exact E|].
  intros Heven. unfold twins_paired. apply forallb_forall. intros x Hx.
  apply in_seq in Hx. destruct (Hall x ltac:(lia)) as (A' & B' & C' & _).
  rewrite B', Nat.eqb_refl. apply Nat.eqb_neq in C'. rewrite C'.
  change (negb false) with true. rewrite !andb_true_r. apply Nat.ltb_lt. rewrite A'.
  destruct (Nat.even x) eqn:Ex; [|lia].
  destruct (Nat.eq_dec (x + 1) (num_edges vd)) as [E'|]; [|lia].
  rewrite <- E' in Heven. rewrite Nat.add_1_r, Nat.even_succ, <- Nat.negb_even, Ex in Heven.
  discriminate.
Qed.

End TwinFacts.

Lemma verified_twins_are_neighbours_witness :
  twin (triangle_vd (T := PrimFloat.float)) 5 = 4
  /\ twins_paired (triangle_vd (T := PrimFloat.float)) = true.
Proof.
  destruct (@verified_twins_are_neighbours PrimFloat.float triangle_vd triangle_lines 5
              ltac:(vm_compute; reflexivity) ltac:(cbn; lia)) as (A & _ & _ & _ & _ & F).
  split; [exact A | apply F; reflexivity].
Defined.



(** ** The assertions on the annotation *)

Section VerifyFacts.

Context {T : Type} `{Scalar T}.
Variable vd : VD T.

Lemma forallb_false_at {A : Type} (f : A -> bool) (l : list A) (x : A) :
  In x l -> f x = false -> forallb f l = false.
Proof.
  intros Hin Hf. destruct (forallb f l) eqn:E; [|reflexivity].
  rewrite forallb_forall in E. rewrite (E x Hin) in Hf. discriminate.
Qed.

(** The walk of [debug::verify_inside_outside_annotations] around a cell
    marked [Boundary] stops at its first half-edge: the assertions inside
    the walk ask for two [PointsToContour] edges, and one half-edge has
    been counted. *)
Lemma verify_edge_boundary_first (k : Colors) (c edge : nat) :
  cell_category k c = CellBoundary ->
  verify_edge vd k c (mkCounts 0 0 0 0 0 0) edge = None.
Proof.
  intros Hc. unfold verify_edge. rewrite Hc.
  destruct (edge_category k edge); cbn; try reflexivity;
    destruct (head_category vd k edge); cbn; try reflexivity;
    destruct (cell_category_eqb (cell_category k (cell vd (twin vd edge))) CellUnknown);
    try reflexivity;
    match goal with
    | |- (if ?b && ?c then _ else _) = None =>
        replace c with false; [now rewrite andb_false_r|]
    end;
    unfold counts_ok; cbn; now rewrite ?andb_false_r.
Qed.

Lemma verify_cell_boundary (k : Colors) (c : nat) :
  cell_category k c = CellBoundary -> verify_cell vd k c = false.
Proof.
  intros Hc. unfold verify_cell.
  destruct (num_edges vd) as [|n]; [reflexivity|].
  cbn [around_cell]. now rewrite (@verify_edge_boundary_first k c _ Hc).
Qed.

(** X2.  [debug::verify_inside_outside_annotations] repeats, at every
    half-edge of the walk around a cell, the assertions on the counters of
    the whole walk.  For a cell marked [Boundary] they ask for two
    [PointsToContour] edges when one half-edge has been counted, and fail:
    no annotation with a [Boundary] cell passes the verification.  So,
    with the assertions enabled, [annotate_inside_outside] never returns
    an annotation with a [Boundary] cell, and [signed_vertex_distances]
    and [edge_offset_contour_intersections] have no result on one. *)
Theorem verification_rejects_boundary_cells (lines : Lines) (k : Colors) (c : nat)
    (EPSILON SCALED_EPSILON : T) (vertex_distances : list T) (offset_distance : T) :
  c < length (cells vd) ->
  cell_category k c = CellBoundary ->
  verify_inside_outside_annotations vd k = false
  /\ annotate_inside_outside false vd lines <> Some k
  /\ signed_vertex_distances false vd lines k = None
  /\ edge_offset_contour_intersections false EPSILON SCALED_EPSILON vd lines k
       vertex_distances offset_distance = None.
Proof.
  intros Hin Hc.
  assert (Hv : verify_inside_outside_annotations vd k = false).
  { unfold verify_inside_outside_annotations.
    rewrite (@forallb_false_at _ (verify_cell vd k) _ c);
      [apply andb_false_r | apply in_seq; lia | now apply verify_cell_boundary]. }
  split; [exact Hv|]. split; [|split].
  - unfold annotate_inside_outside, assert. intros E.
    destruct (verify_twin_halfedges_successive vd lines); [|discriminate].
    destruct (for_edges _ _ _ _) as [k1|]; [|discriminate].
    destruct (for_edges _ _ _ _) as [[k2 q]|]; [|discriminate].
    destruct (seed_fill _ _ _ _) as [k3|]; [|discriminate].
    destruct (verify_inside_outside_annotations vd k3) eqn:E3; [|discriminate].
    injection E as ->. congruence.
  - unfold signed_vertex_distances, assert. now rewrite Hv.
  - unfold edge_offset_contour_intersections, assert. now rewrite Hv.
Qed.

End VerifyFacts.

Lemma verification_rejects_boundary_cells_witness :
  verify_inside_outside_annotations (triangle_vd (T := PrimFloat.float)) triangle_colors = false.
Proof.
  exact (proj1 (@verification_rejects_boundary_cells PrimFloat.float _ triangle_vd
                  triangle_lines triangle_colors 0 EPSILON SCALED_EPSILON triangle_distances
                  (of_coord 1) ltac:(cbn; lia) ltac:(reflexivity))).
Defined.



(** ** What the annotation keeps *)

Lemma nth_set_nth_cases {A : Type} (i j : nat) (x d : A) (l : list A) :
  nth j (set_nth i x l) d = x \/ nth j (set_nth i x l) d = nth j l d.
Proof.
  revert i j. induction l as [|h t IH]; intros [|i] [|j]; cbn; auto.
Qed.

Lemma annotation_grows_refl (k : Colors) : annotation_grows k k.
Proof. unfold annotation_grows. repeat split; auto. Qed.

Lemma annotation_grows_trans (k1 k2 k3 : Colors) :
  annotation_grows k1 k2 -> annotation_grows k2 k3 -> annotation_grows k1 k3.
Proof.
  unfold annotation_grows.
  intros (A1 & A2 & A3 & A4 & A5 & A6 & A7) (B1 & B2 & B3 & B4 & B5 & B6 & B7).
  repeat split; try congruence; auto.
Qed.

Section AnnotationGrows.

Context {T : Type} `{Scalar T}.
Variable NDEBUG : bool.
Variable vd : VD T.
Variable lines : Lines.

Lemma grows_annotate_vertex (k k' : Colors) (v : nat) (c : VertexCategory) :
  annotate_vertex NDEBUG k v c = Some k' ->
  vertex_category_eqb c VertexUnknown = false ->
  annotation_grows k k'.
Proof.
  unfold annotate_vertex. intros E Hc. do 2 apply assert_some in E. injection E as <-.
  unfold annotation_grows, vertex_category, edge_category, cell_category. cbn.
  rewrite length_set_nth. repeat split; auto.
  intros j Hj. destruct (nth_set_nth_cases v j c VertexUnknown (vertex_colors k)) as [-> | ->];
    [destruct c; discriminate | exact Hj].
Qed.

Lemma grows_annotate_edge (k k' : Colors) (e : nat) (c : EdgeCategory) :
  annotate_edge NDEBUG k e c = Some k' ->
  edge_category_eqb c EdgeUnknown = false ->
  annotation_grows k k'.
Proof.
  unfold annotate_edge. intros E Hc. do 2 apply assert_some in E. injection E as <-.
  unfold annotation_grows, vertex_category, edge_category, cell_category. cbn.
  rewrite length_set_nth. repeat split; auto.
  intros j Hj. destruct (nth_set_nth_cases e j c EdgeUnknown (edge_colors k)) as [-> | ->];
    [destruct c; discriminate | exact Hj].
Qed.

Lemma grows_annotate_cell (k k' : Colors) (c : nat) (new : CellCategory) (b : bool) :
  annotate_cell NDEBUG k c new = Some (k', b) ->
  cell_category_eqb new CellUnknown = false ->
  annotation_grows k k'.
Proof.
  unfold annotate_cell. intros E Hc. apply assert_some in E.
  assert (Hset : forall x, x <> CellUnknown -> cell_category k c <> CellBoundary ->
                   annotation_grows k (set_cell_category k c x)).
  { intros x Hx Hb.
    unfold annotation_grows, vertex_category, edge_category, cell_category in *. cbn.
    rewrite length_set_nth. repeat split; auto.
    - intros j Hj. destruct (nth_set_nth_cases c j x CellUnknown (cell_colors k)) as [-> | ->];
        [exact Hx | exact Hj].
    - intros j Hj. destruct (Nat.eq_dec c j) as [->|Hcj]; [contradiction|].
      now rewrite nth_set_nth_neq. }
  destruct (cell_category k c) eqn:Ecc, new; try discriminate Hc; cbn in E;
    injection E as <- <-;
    try apply annotation_grows_refl; apply Hset; congruence.
Qed.

Ltac crunch_annotation :=
  repeat match goal with
  | H : assert _ _ _ = Some _ |- _ => apply assert_some in H
  | H : Some _ = Some _ |- _ => injection H as H; subst
  | H : None = Some _ |- _ => discriminate H
  | H : match ?c with Some x => @?f x | None => None end = Some _ |- _ =>
      let E := fresh "E" in destruct c eqn:E; [| discriminate H]
  | H : match ?c with Some x => @?f x | None => _ end = Some _ |- _ =>
      let E := fresh "E" in destruct c eqn:E
  | H : (if ?b then _ else _) = Some _ |- _ =>
      let E := fresh "E" in destruct b eqn:E
  | H : (let '(_, _) := ?c in _) = Some _ |- _ =>
      let E := fresh "E" in destruct c eqn:E
  end.

Lemma inside_outside_known (b : bool) :
  vertex_category_eqb (inside_outside b) VertexUnknown = false.
Proof. destruct b; reflexivity. Qed.

Lemma edge_of_vertex_known (vc : VertexCategory) :
  edge_category_eqb (edge_of_vertex_category vc) EdgeUnknown = false.
Proof. destruct vc; reflexivity. Qed.

Lemma cell_of_vertex_known (vc : VertexCategory) :
  cell_category_eqb (cell_of_vertex_category vc) CellUnknown = false.
Proof. destruct vc; reflexivity. Qed.

Lemma cell_choice_known (b : bool) (vc : VertexCategory) :
  cell_category_eqb (if b then CellBoundary else cell_of_vertex_category vc) CellUnknown = false.
Proof. destruct b, vc; reflexivity. Qed.

Lemma edge_of_cell_known (cc : CellCategory) :
  edge_category_eqb (match cc with CellOutside => PointsOutside | _ => PointsInside end)
    EdgeUnknown = false.
Proof. destruct cc; reflexivity. Qed.

Ltac known_category :=
  first
    [ apply inside_outside_known
    | apply edge_of_vertex_known
    | apply cell_of_vertex_known
    | apply cell_choice_known
    | apply edge_of_cell_known
    | assumption
    | apply negb_true_iff; assumption
    | lazymatch goal with
      | |- vertex_category_eqb VertexOnContour _ = false => reflexivity
      | |- edge_category_eqb PointsOutside _ = false => reflexivity
      | |- edge_category_eqb PointsInside _ = false => reflexivity
      | |- edge_category_eqb PointsToContour _ = false => reflexivity
      | |- cell_category_eqb CellOutside _ = false => reflexivity
      | |- cell_category_eqb CellInside _ = false => reflexivity
      | |- cell_category_eqb CellBoundary _ = false => reflexivity
      end ].

Ltac grow_chain :=
  solve [ repeat match goal with
          | |- annotation_grows ?a ?a => apply annotation_grows_refl
          | G : annotation_grows ?a ?b |- annotation_grows ?a ?c =>
              first [ exact G | apply (@annotation_grows_trans a b c G) ]
          end ].

Ltac grow_steps :=
  repeat match goal with
  | E : annotate_vertex _ _ _ _ = Some _ |- _ =>
      apply grows_annotate_vertex in E; [| known_category]
  | E : annotate_edge _ _ _ _ = Some _ |- _ =>
      apply grows_annotate_edge in E; [| known_category]
  | E : annotate_cell _ _ _ _ = Some _ |- _ =>
      apply grows_annotate_cell in E; [| known_category]
  end;
  grow_chain.

(** A round of the first loop. *)
Lemma grows_annotate_from_segments (k k' : Colors) (edge : nat) :
  annotate_from_segments NDEBUG vd lines k edge = Some k' -> annotation_grows k k'.
Proof.
  unfold annotate_from_segments. intros Hr.
  crunch_annotation; grow_steps.
Qed.

(** A round of the second loop. *)
Lemma grows_annotate_expand (k k' : Colors) (q q' : list nat) (edge : nat) :
  annotate_expand NDEBUG vd (k, q) edge = Some (k', q') -> annotation_grows k k'.
Proof.
  unfold annotate_expand. intros Hr.
  crunch_annotation; grow_steps.
Qed.

Lemma grows_for_edges_from_segments (n i : nat) (k k' : Colors) :
  for_edges (annotate_from_segments NDEBUG vd lines) n i k = Some k' ->
  annotation_grows k k'.
Proof.
  intros Hr.
  apply (@for_edges_invariant _ (annotate_from_segments NDEBUG vd lines)
           (fun _ s => annotation_grows k s) n i k k'); [| | exact Hr].
  - apply annotation_grows_refl.
  - intros j s s' _ Hs Hb. apply grows_annotate_from_segments in Hb.
    exact (annotation_grows_trans Hs Hb).
Qed.

Lemma grows_for_edges_expand (n i : nat) (k k' : Colors) (q q' : list nat) :
  for_edges (annotate_expand NDEBUG vd) n i (k, q) = Some (k', q') ->
  annotation_grows k k'.
Proof.
  intros Hr.
  apply (@for_edges_invariant _ (annotate_expand NDEBUG vd)
           (fun _ s => annotation_grows k (fst s)) n i (k, q) (k', q')); [| | exact Hr].
  - apply annotation_grows_refl.
  - intros j [s qs] [s' qs'] _ Hs Hb. apply grows_annotate_expand in Hb.
    exact (annotation_grows_trans Hs Hb).
Qed.

Lemma cells_in_range_spec :
  cells_in_range vd = true -> forall e, cell vd e < length (cells vd).
Proof.
  unfold cells_in_range. intros Hr e. rewrite forallb_forall in Hr.
  destruct (Nat.lt_ge_cases e (S (num_edges vd))) as [He|He].
  - apply Nat.ltb_lt. apply Hr. apply in_seq. lia.
  - specialize (Hr (num_edges vd)). rewrite in_seq in Hr.
    specialize (Hr ltac:(lia)). apply Nat.ltb_lt in Hr.
    unfold cell, edge_at in *. unfold num_edges in *.
    rewrite nth_overflow by lia. rewrite nth_overflow in Hr by lia. exact Hr.
Qed.

(** After [annotate_cell] with a category, a cell of the array has one. *)
Lemma annotate_cell_annotates (k k' : Colors) (c : nat) (new : CellCategory) (b : bool) :
  annotate_cell NDEBUG k c new = Some (k', b) ->
  cell_category_eqb new CellUnknown = false ->
  c < length (cell_colors k) ->
  cell_category k' c <> CellUnknown.
Proof.
  unfold annotate_cell. intros E Hc Hlt. apply assert_some in E.
  destruct (cell_category k c) eqn:Ecc, new; try discriminate Hc; cbn in E;
    injection E as <- <-; unfold cell_category in *; cbn;
    rewrite ?nth_set_nth_eq by exact Hlt; congruence.
Qed.

Lemma queue_annotated_grows (k k' : Colors) (q : list nat) :
  annotation_grows k k' -> queue_annotated k q -> queue_annotated k' q.
Proof. intros (_ & _ & _ & _ & _ & G & _) Hq c Hc. apply G, Hq, Hc. Qed.

Lemma queue_annotated_push (k : Colors) (q : list nat) (c : nat) :
  queue_annotated k q -> cell_category k c <> CellUnknown -> queue_annotated k (q ++ [c]).
Proof.
  intros Hq Hc x Hx. apply in_app_or in Hx as [Hx | [<- | []]]; auto.
Qed.

Lemma grows_cell (k k' : Colors) (c : nat) :
  annotation_grows k k' -> cell_category k c <> CellUnknown ->
  cell_category k' c <> CellUnknown.
Proof. intros (_ & _ & _ & _ & _ & G & _). apply G. Qed.

Lemma grows_cell_length (k k' : Colors) :
  annotation_grows k k' -> length (cell_colors k') = length (cell_colors k).
Proof. now intros (_ & _ & L & _). Qed.

Hypothesis Hrange : cells_in_range vd = true.

Ltac grow_auto := grow_chain.

Ltac cell_in_array ka :=
  match goal with
  | Hlen : length (cell_colors ?k) = length (cells _) |- _ =>
      first [ rewrite Hlen
            | rewrite (@grows_cell_length k ka) by grow_auto; rewrite Hlen ]
  end;
  apply cells_in_range_spec; exact Hrange.

Ltac cell_steps :=
  repeat match goal with
  | E : annotate_vertex _ _ _ _ = Some _ |- _ =>
      apply grows_annotate_vertex in E; [| known_category]
  | E : annotate_edge _ _ _ _ = Some _ |- _ =>
      apply grows_annotate_edge in E; [| known_category]
  end;
  repeat match goal with
  | E : annotate_cell _ ?ka ?c ?new = Some (?kb, _) |- _ =>
      let G := fresh "G" in
      let A := fresh "A" in
      assert (G : annotation_grows ka kb)
        by (eapply grows_annotate_cell; [exact E | known_category]);
      assert (A : cell_category kb c <> CellUnknown)
        by (eapply annotate_cell_annotates; [exact E | known_category | cell_in_array ka]);
      clear E
  end.

Ltac queue_steps Hq :=
  repeat apply queue_annotated_push;
  [ eapply queue_annotated_grows; [| exact Hq]; grow_auto
  | match goal with
    | A : cell_category ?kb ?c <> CellUnknown |- cell_category _ ?c <> CellUnknown =>
        apply (@grows_cell kb); [grow_auto | exact A]
    end .. ].

(** A round of the second loop, with the queue. *)
Lemma expand_keeps_queue (k k' : Colors) (q q' : list nat) (edge : nat) :
  length (cell_colors k) = length (cells vd) ->
  queue_annotated k q ->
  annotate_expand NDEBUG vd (k, q) edge = Some (k', q') ->
  annotation_grows k k' /\ queue_annotated k' q'.
Proof.
  intros Hlen Hq Hr. split; [eapply grows_annotate_expand; exact Hr|].
  unfold annotate_expand in Hr.
  crunch_annotation; cell_steps; try exact Hq; queue_steps Hq.
Qed.

(** The seed fill, the round for one half-edge of the cell taken from the
    queue. *)
Lemma fill_edge_keeps_queue (cc : CellCategory) (k k' : Colors) (q q' : list nat)
    (edge : nat) :
  cell_category_eqb cc CellUnknown = false ->
  length (cell_colors k) = length (cells vd) ->
  queue_annotated k q ->
  fill_edge NDEBUG vd cc (k, q) edge = Some (k', q') ->
  annotation_grows k k' /\ queue_annotated k' q'.
Proof.
  intros Hcc Hlen Hq Hr.
  unfold fill_edge in Hr.
  crunch_annotation; cell_steps;
    (split; [grow_auto | try exact Hq; try queue_steps Hq]).
Qed.

Lemma around_cell_invariant {S : Type} (body : S -> nat -> option S) (P : S -> Prop) :
  (forall s e s', P s -> body s e = Some s' -> P s') ->
  forall fuel first_edge edge st st',
    P st -> around_cell vd fuel body first_edge edge st = Some st' -> P st'.
Proof.
  intros Hstep. induction fuel as [|fuel IH]; intros first_edge edge st st' Hst Hr;
    cbn in Hr; [discriminate|].
  destruct (body st edge) as [s1|] eqn:E; [|discriminate].
  pose proof (Hstep _ _ _ Hst E) as Hs1.
  destruct (Nat.eqb (next vd edge) first_edge); [now injection Hr as <-|].
  eapply IH; eassumption.
Qed.

Lemma seed_fill_grows (fuel : nat) (k k' : Colors) (q : list nat) :
  length (cell_colors k) = length (cells vd) ->
  queue_annotated k q ->
  seed_fill NDEBUG vd fuel (k, q) = Some k' ->
  annotation_grows k k'.
Proof.
  revert k q. induction fuel as [|fuel IH]; intros k q Hlen Hq Hr.
  - cbn in Hr. destruct (rev q); [|discriminate].
    injection Hr as <-. apply annotation_grows_refl.
  - cbn in Hr. destruct (rev q) as [|c rest] eqn:Erev.
    { injection Hr as <-. apply annotation_grows_refl. }
    apply assert_some in Hr.
    destruct (around_cell vd (num_edges vd) (fill_edge NDEBUG vd (cell_category k c))
                (incident_edge vd c) (incident_edge vd c) (k, rev rest))
      as [[k1 q1]|] eqn:Ea; [|discriminate].
    assert (Hc : cell_category k c <> CellUnknown).
    { apply Hq. apply in_rev. rewrite Erev. now left. }
    assert (Hq0 : queue_annotated k (rev rest)).
    { intros x Hx. apply Hq. apply in_rev. rewrite Erev. right. now apply in_rev. }
    pose (P := fun st : Colors * list nat =>
                 annotation_grows k (fst st) /\ queue_annotated (fst st) (snd st)).
    assert (HP : P (k1, q1)).
    { refine (@around_cell_invariant _ _ P _ _ _ _ _ _ _ Ea).
      - intros [ka qa] e [kb qb] [Ga Qa] Eb. cbn in *.
        destruct (@fill_edge_keeps_queue (cell_category k c) ka kb qa qb e) as [Gb Qb];
          auto.
        + destruct (cell_category k c); reflexivity || contradiction.
        + rewrite (grows_cell_length Ga). exact Hlen.
        + split; [eapply annotation_grows_trans; eassumption | exact Qb].
      - split; [apply annotation_grows_refl | exact Hq0]. }
    destruct HP as [G1 Q1]. cbn in G1, Q1.
    eapply annotation_grows_trans; [exact G1|].
    apply (IH k1 q1); [rewrite (grows_cell_length G1); exact Hlen | exact Q1 | exact Hr].
Qed.

(** X3.  On a diagram whose half-edges all lie in cells of the diagram,
    when [annotate_inside_outside] returns: the arrays of categories have
    the sizes of the arrays of vertices, half-edges and cells; and the
    expansion and the seed fill undo nothing that the first loop settled:
    a vertex, half-edge or cell that has a category after the first loop
    has one at the end, and a cell marked [Boundary] by the first loop is
    [Boundary] at the end. *)
Theorem annotation_keeps_what_is_settled (k : Colors) :
  annotate_inside_outside NDEBUG vd lines = Some k ->
  (length (vertex_colors k) = length (vertices vd)
   /\ length (edge_colors k) = length (edges vd)
   /\ length (cell_colors k) = length (cells vd))
  /\ exists kA,
       for_edges (annotate_from_segments NDEBUG vd lines) (num_edges vd) 0
         (reset_inside_outside_annotations vd) = Some kA
       /\ (forall v, vertex_category kA v <> VertexUnknown ->
                     vertex_category k v <> VertexUnknown)
       /\ (forall e, edge_category kA e <> EdgeUnknown -> edge_category k e <> EdgeUnknown)
       /\ (forall c, cell_category kA c <> CellUnknown -> cell_category k c <> CellUnknown)
       /\ (forall c, cell_category kA c = CellBoundary -> cell_category k c = CellBoundary).
Proof.
  unfold annotate_inside_outside. intros Hr. apply assert_some in Hr.
  destruct (for_edges (annotate_from_segments NDEBUG vd lines) (num_edges vd) 0
              (reset_inside_outside_annotations vd)) as [kA|] eqn:EA; [|discriminate].
  destruct (for_edges (annotate_expand NDEBUG vd) (num_edges vd) 0 (kA, []))
    as [[kB q]|] eqn:EB; [|discriminate].
  destruct (seed_fill NDEBUG vd (length q + num_edges vd) (kB, q)) as [kC|] eqn:EC;
    [|discriminate].
  apply assert_some in Hr. injection Hr as ->.
  pose proof (grows_for_edges_from_segments _ _ _ EA) as GA.
  assert (LA : length (cell_colors kA) = length (cells vd)).
  { rewrite (grows_cell_length GA). cbn. apply length_map. }
  pose (P := fun (_ : nat) (st : Colors * list nat) =>
               annotation_grows kA (fst st) /\ queue_annotated (fst st) (snd st)).
  assert (HB : P (0 + num_edges vd)%nat (kB, q)).
  { refine (@for_edges_invariant _ _ P _ 0 _ _ _ _ EB).
    - split; [apply annotation_grows_refl | intros c []].
    - intros j [ka qa] [kb qb] _ [Ga Qa] Eb. cbn in *.
      destruct (@expand_keeps_queue ka kb qa qb j) as [Gb Qb]; auto.
      + rewrite (grows_cell_length Ga). exact LA.
      + split; [eapply annotation_grows_trans; eassumption | exact Qb]. }
  destruct HB as [GB QB]. cbn in GB, QB.
  assert (GC : annotation_grows kB k).
  { eapply seed_fill_grows; [| exact QB | exact EC].
    rewrite (grows_cell_length GB). exact LA. }
  assert (G : annotation_grows kA k) by (eapply annotation_grows_trans; eassumption).
  assert (G0 : annotation_grows (reset_inside_outside_annotations vd) k)
    by (eapply annotation_grows_trans; eassumption).
  split.
  - destruct G0 as (L1 & L2 & L3 & _). cbn in L1, L2, L3.
    rewrite length_map in L1, L2, L3. auto.
  - exists kA. split; [reflexivity|].
    destruct G as (_ & _ & _ & G4 & G5 & G6 & G7). auto.
Qed.

End AnnotationGrows.

Lemma annotation_keeps_what_is_settled_witness :
  length (cell_colors lshape_colors) = length (cells (lshape_vd (T := PrimFloat.float))).
Proof.
  exact (proj2 (proj2 (proj1
           (@annotation_keeps_what_is_settled PrimFloat.float _ true lshape_vd lshape_lines
              ltac:(vm_compute; reflexivity) lshape_colors
              ltac:(vm_compute; reflexivity))))).
Defined.


Section DistanceRuns.

Context {T : Type} `{Scalar T}.
Variable vd : VD T.
Variable lines : Lines.

(** The bounded walk of [find_point_cell] gives an answer exactly when the
    rotation ends within the bound. *)
Lemma find_point_cell_returns (fuel first_edge edge : nat) :
  find_point_cell vd fuel first_edge edge <> None
  <-> exists n, n < fuel
        /\ (contains_point vd (cell vd (rot_iter vd n edge)) = true
            \/ rot_iter vd (S n) edge = first_edge).
Proof.
  revert edge. induction fuel as [|fuel IH]; intros edge; cbn [find_point_cell].
  - split; [congruence | intros (n & Hn & _); lia].
  - destruct (contains_point vd (cell vd edge)) eqn:Hc.
    { split; [|discriminate]. intros _. exists 0. split; [lia | now left]. }
    destruct (Nat.eqb_spec (rot_next vd edge) first_edge) as [E|E].
    { split; [|discriminate]. intros _. exists 0. split; [lia | now right]. }
    rewrite IH. split.
    + intros (n & Hn & Hw). exists (S n). split; [lia|].
      rewrite (@rot_iter_S _ vd n edge), (@rot_iter_S _ vd (S n) edge). exact Hw.
    + intros ([|n] & Hn & Hw).
      * destruct Hw as [Hw|Hw]; [cbn in Hw | change (rot_next vd edge = first_edge) in Hw];
          congruence.
      * exists n. split; [lia|].
        rewrite (@rot_iter_S _ vd n edge), (@rot_iter_S _ vd (S n) edge) in Hw. exact Hw.
Qed.

Lemma signed_vertex_distance_returns (k : Colors) (v : nat) :
  signed_vertex_distance vd lines k v <> None
  <-> (vertex_category k v <> VertexOnContour ->
       rotation_closes vd (v_incident_edge (vertex_at vd v))).
Proof.
  unfold signed_vertex_distance, site_distance, rotation_closes.
  pose proof (find_point_cell_returns (num_edges vd)
                (v_incident_edge (vertex_at vd v)) (v_incident_edge (vertex_at vd v))) as F.
  destruct (find_point_cell vd (num_edges vd) (v_incident_edge (vertex_at vd v))
              (v_incident_edge (vertex_at vd v))) as [[c|]|];
    destruct (vertex_category k v); cbn; split; intros A; try discriminate;
    try (intros _; apply F; discriminate);
    try (intros B; congruence);
    try (exfalso; apply F; [apply A; discriminate | reflexivity]).
Qed.

Lemma for_vertices_returns (k : Colors) (n i : nat) :
  (forall j, j < n -> signed_vertex_distance vd lines k (i + j) <> None) ->
  for_vertices vd lines k n i <> None.
Proof.
  revert i. induction n as [|n IH]; intros i Hall; cbn; [discriminate|].
  pose proof (Hall 0 ltac:(lia)) as H0. rewrite Nat.add_0_r in H0.
  destruct (signed_vertex_distance vd lines k i) as [d|]; [|congruence].
  assert (Hn : for_vertices vd lines k n (S i) <> None).
  { apply IH. intros j Hj. replace (S i + j) with (i + S j) by lia. apply Hall. lia. }
  destruct (for_vertices vd lines k n (S i)); [discriminate | congruence].
Qed.

(** X4.  In the release build [signed_vertex_distances] returns, and then
    one number for every vertex of the diagram, exactly when around every
    vertex that is not on the contour the walk by [rot_next] from its
    incident half-edge meets a point cell or comes back to where it
    started; a walk that does neither never leaves the [do ... while] of
    the source. *)
Theorem distances_returned_iff_rotations_close (k : Colors) :
  (forall v, v < length (vertices vd) -> vertex_category k v <> VertexOnContour ->
             rotation_closes vd (v_incident_edge (vertex_at vd v)))
  <-> (exists out, signed_vertex_distances true vd lines k = Some out
                   /\ length out = length (vertices vd)).
Proof.
  unfold signed_vertex_distances, assert. split.
  - intros Hall.
    assert (Hf : for_vertices vd lines k (length (vertices vd)) 0 <> None).
    { apply for_vertices_returns. intros j Hj. cbn.
      apply signed_vertex_distance_returns. auto. }
    destruct (for_vertices vd lines k (length (vertices vd)) 0) as [out|] eqn:E;
      [|congruence].
    exists out. split; [reflexivity|].
    exact (proj1 (for_vertices_nth _ _ _ _ _ (lit 0) E)).
  - intros (out & E & _) v Hv.
    apply signed_vertex_distance_returns.
    destruct (for_vertices_nth _ _ _ _ _ (lit 0) E) as [_ Hn].
    specialize (Hn v Hv). cbn in Hn. congruence.
Qed.

End DistanceRuns.

Lemma distances_returned_iff_rotations_close_witness :
  rotation_closes (triangle_vd (T := PrimFloat.float))
    (v_incident_edge (vertex_at (triangle_vd (T := PrimFloat.float)) 3)).
Proof.
  apply (proj2 (@distances_returned_iff_rotations_close PrimFloat.float _
                  triangle_vd triangle_lines triangle_colors)).
  - exists triangle_distances. split; vm_compute; reflexivity.
  - vm_compute. lia.
  - vm_compute. discriminate.
Defined.


Section FarOffset.

Context {T : Type} `{Scalar T}.
Variable EPSILON : T.
Variable SCALED_EPSILON : T.
Variable m_acos : T -> T.
Variable m_cos : T -> T.
Variable m_sin : T -> T.
Variable ceil_size : T -> nat.
Variable vd : VD T.
Variable lines : Lines.
Variable k : Colors.
Variable vertex_distances : list T.

(** Rounds of the loop of [edge_offset_contour_intersections] over
    half-edges that are all skipped leave the array as it is. *)
Lemma skipped_rounds_keep (outside : bool) (D D2 : T) (out : list (Vec2 T)) (n i : nat) :
  (forall j, i <= j < i + n -> skipped vd vertex_distances outside D j = true) ->
  for_edges (classify_edge true EPSILON SCALED_EPSILON vd lines k vertex_distances
               outside D D2) n i out = Some out.
Proof.
  revert i. induction n as [|n IH]; intros i Hs; cbn [for_edges]; [reflexivity|].
  assert (Hb : classify_edge true EPSILON SCALED_EPSILON vd lines k vertex_distances
                 outside D D2 out i = Some out).
  { unfold classify_edge, edge_writes. rewrite (Hs i) by lia.
    destruct (_ || _); reflexivity. }
  rewrite Hb. apply IH. intros j Hj. apply Hs. lia.
Qed.

(** Seeds without an intersection start no polygon. *)
Lemma no_seed_no_polygon (offset_distance angle_step cos_threshold : T)
    (st : list (Vec2 T) * list Polygon) (n i : nat) :
  (forall j, edge_offset_has_intersection (nth j (fst st) unclassified) = false) ->
  for_edges (trace_seed true EPSILON SCALED_EPSILON m_acos m_cos m_sin ceil_size vd lines
               offset_distance angle_step cos_threshold) n i st = Some st.
Proof.
  intros Hno. revert i. induction n as [|n IH]; intros i; cbn [for_edges]; [reflexivity|].
  assert (Hb : trace_seed true EPSILON SCALED_EPSILON m_acos m_cos m_sin ceil_size vd lines
                 offset_distance angle_step cos_threshold st i = Some st).
  { unfold trace_seed. destruct st as [edge_points out]. cbn in Hno. now rewrite Hno. }
  rewrite Hb. apply IH.
Qed.

(** X5.  In the release build, an offset that every half-edge of the
    diagram skips (the two ends at the same distance, or the magnitude of
    the offset not below the larger of them: the offset curve is beyond
    the diagram's vertices) finds no intersection: the array that
    [edge_offset_contour_intersections] returns is the initial one, of
    entries [(NaN, 0)], and [offset] returns no polygon; nothing fails. *)
Theorem offset_past_every_vertex (offset_distance discretization_error : T) :
  isnan (nan : T) = true ->
  forallb (skipped vd vertex_distances (is_outside offset_distance)
             (offset_magnitude offset_distance)) (seq 0 (num_edges vd)) = true ->
  edge_offset_contour_intersections true EPSILON SCALED_EPSILON vd lines k vertex_distances
    offset_distance = Some (map (fun _ => unclassified) (edges vd))
  /\ offset true EPSILON SCALED_EPSILON m_acos m_cos m_sin ceil_size vd lines k
       vertex_distances offset_distance discretization_error = Some [].
Proof.
  intros Hnan Hskip.
  assert (Hi : edge_offset_contour_intersections true EPSILON SCALED_EPSILON vd lines k
                 vertex_distances offset_distance
               = Some (map (fun _ => unclassified) (edges vd))).
  { unfold edge_offset_contour_intersections, assert.
    apply skipped_rounds_keep. intros j Hj.
    rewrite forallb_forall in Hskip. apply Hskip. apply in_seq. lia. }
  split; [exact Hi|].
  unfold offset. rewrite Hi. unfold trace_polygons.
  rewrite no_seed_no_polygon; [reflexivity|].
  intros j. cbn [fst]. rewrite nth_unclassified_init.
  unfold edge_offset_has_intersection, unclassified. cbn. now rewrite Hnan.
Qed.

End FarOffset.

Lemma offset_past_every_vertex_witness :
  offset (T := PrimFloat.float) true EPSILON SCALED_EPSILON
    (fun x => x) (fun x => x) (fun x => x) (fun _ => 0) triangle_vd triangle_lines
    triangle_colors triangle_distances (of_coord (-2000)) (of_coord 10) = Some [].
Proof.
  apply (@offset_past_every_vertex PrimFloat.float _ EPSILON SCALED_EPSILON
           (fun x => x) (fun x => x) (fun x => x) (fun _ => 0) triangle_vd triangle_lines
           triangle_colors triangle_distances (of_coord (-2000)) (of_coord 10)).
  - vm_compute. reflexivity.
  - vm_compute. reflexivity.
Defined.



Section TracerRuns.

Context {T : Type} `{Scalar T}.
Variable NDEBUG : bool.
Variable EPSILON : T.
Variable SCALED_EPSILON : T.
Variable m_acos : T -> T.
Variable m_cos : T -> T.
Variable m_sin : T -> T.
Variable ceil_size : T -> nat.
Variable vd : VD T.
Variable lines : Lines.

Hypothesis Hnan : isnan (nan : T) = true.

Lemma no_intersection_out_of_range (edge_points : list (Vec2 T)) (e : nat) :
  edge_offset_has_intersection (nth e edge_points unclassified) = true ->
  e < length edge_points.
Proof.
  intros Hi. destruct (Nat.lt_ge_cases e (length edge_points)) as [Hlt|Hge]; [exact Hlt|].
  rewrite nth_overflow in Hi by exact Hge.
  unfold edge_offset_has_intersection, unclassified in Hi. cbn in Hi.
  rewrite Hnan in Hi. discriminate.
Qed.

(** What [next_offset_edge] returns carries an intersection. *)
Lemma next_offset_edge_from_found (fuel : nat) (edge_points : list (Vec2 T))
    (start_edge edge e : nat) :
  next_offset_edge_from vd fuel edge_points start_edge edge = Some (Some e) ->
  edge_offset_has_intersection (nth e edge_points unclassified) = true.
Proof.
  revert edge. induction fuel as [|fuel IH]; intros edge Hn; [discriminate|].
  cbn in Hn. destruct (Nat.eqb edge start_edge); [discriminate|].
  destruct (edge_offset_has_intersection (nth (twin vd edge) edge_points unclassified))
    eqn:Hi.
  - injection Hn as <-. exact Hi.
  - exact (IH _ Hn).
Qed.

(** Marking an entry as consumed. *)
Lemma consumed_entry (edge_points : list (Vec2 T)) (i e : nat) (y : T) :
  edge_offset_has_intersection (nth e (set_nth i (mkVec nan y) edge_points) unclassified)
  = if Nat.eqb i e && Nat.ltb i (length edge_points) then false
    else edge_offset_has_intersection (nth e edge_points unclassified).
Proof.
  destruct (Nat.eqb_spec i e) as [<-|Hne]; cbn [andb].
  - destruct (Nat.ltb_spec i (length edge_points)) as [Hlt|Hge].
    + rewrite nth_set_nth_eq by exact Hlt.
      unfold edge_offset_has_intersection. cbn. now rewrite Hnan.
    + rewrite !nth_overflow; [reflexivity | lia | rewrite length_set_nth; lia].
  - now rewrite nth_set_nth_neq.
Qed.

Lemma count_consumed (edge_points : list (Vec2 T)) (i : nat) (y : T) :
  edge_offset_has_intersection (nth i edge_points unclassified) = true ->
  S (count_intersections (set_nth i (mkVec nan y) edge_points))
  = count_intersections edge_points.
Proof.
  unfold count_intersections.
  revert i. induction edge_points as [|p t IH]; intros i Hi.
  - destruct i; cbn in Hi; unfold edge_offset_has_intersection in Hi; cbn in Hi;
      rewrite Hnan in Hi; discriminate.
  - destruct i as [|i]; cbn [set_nth filter nth] in *.
    + rewrite Hi. unfold edge_offset_has_intersection at 1. cbn [vx].
      rewrite Hnan. reflexivity.
    + destruct (edge_offset_has_intersection p); cbn [length]; now rewrite (IH i Hi).
Qed.

Lemma count_le_length (edge_points : list (Vec2 T)) :
  count_intersections edge_points <= length edge_points.
Proof. apply filter_length_le. Qed.

(** A walk that closes: the array keeps its size, the walk adds no
    intersection, and the one of the seed is consumed. *)
Lemma closed_walk_consumes (fuel : nat) (offset_distance angle_step cos_threshold : T)
    (edge_points edge_points' : list (Vec2 T)) (start_edge edge : nat) (last_pt : Vec2 T)
    (poly poly' : Polygon) :
  walk NDEBUG EPSILON SCALED_EPSILON m_acos m_cos m_sin ceil_size vd lines fuel
    offset_distance angle_step cos_threshold edge_points start_edge edge last_pt poly
  = Some (Closed poly' edge_points') ->
  length edge_points' = length edge_points
  /\ (forall e, edge_offset_has_intersection (nth e edge_points' unclassified) = true ->
                edge_offset_has_intersection (nth e edge_points unclassified) = true)
  /\ edge_offset_has_intersection (nth start_edge edge_points' unclassified) = false
  /\ poly' <> []
  /\ count_intersections edge_points' < count_intersections edge_points.
Proof.
  revert edge_points edge last_pt poly.
  induction fuel as [|fuel IH]; intros edge_points edge last_pt poly Hw; [discriminate|].
  cbn [walk] in Hw.
  destruct (next_offset_edge vd edge_points edge) as [[next_edge|]|] eqn:Hn;
    cbn in Hw; try discriminate.
  apply assert_some in Hw.
  pose proof (next_offset_edge_from_found _ _ _ _ Hn) as Hhas.
  pose proof (no_intersection_out_of_range _ _ Hhas) as Hlt.
  set (p2 := nth next_edge edge_points unclassified) in *.
  set (eps1 := set_nth next_edge (mkVec nan (vy p2)) edge_points) in *.
  destruct (if contains_point vd (cell vd edge)
            then discretize_arc NDEBUG EPSILON m_acos m_cos m_sin ceil_size vd lines
                   angle_step cos_threshold (cell vd edge) last_pt p2
            else Some []) as [arc|]; cbn in Hw; [|discriminate].
  assert (Hmono : forall e,
             edge_offset_has_intersection (nth e eps1 unclassified) = true ->
             edge_offset_has_intersection (nth e edge_points unclassified) = true).
  { intros e. unfold eps1. rewrite consumed_entry.
    destruct (Nat.eqb next_edge e && Nat.ltb next_edge (length edge_points));
      [discriminate | trivial]. }
  assert (Hcnt : S (count_intersections eps1) = count_intersections edge_points)
    by (apply count_consumed; exact Hhas).
  destruct (Nat.eqb_spec next_edge start_edge) as [E|E].
  - injection Hw as <- <-. split; [apply length_set_nth|].
    split; [exact Hmono|]. split; [|split; [|lia]].
    + fold eps1. unfold eps1. rewrite consumed_entry. subst next_edge.
      rewrite Nat.eqb_refl. apply Nat.ltb_lt in Hlt. now rewrite Hlt.
    + unfold push_point. destruct (rev (poly ++ arc)) as [|back r] eqn:Er; [discriminate|].
      destruct (point_eqb back (to_point p2)).
      * intros E0. rewrite E0 in Er. discriminate.
      * intros E0. apply app_eq_nil in E0 as [_ E0]. discriminate.
  - destruct (IH _ _ _ _ Hw) as (Hlen & Hm & Hs & Hp & Hc).
    split; [rewrite Hlen; apply length_set_nth|].
    split; [intros e He; apply Hmono, Hm, He|]. split; [exact Hs|].
    split; [exact Hp | lia].
Qed.

(** X6.  When the loop of [offset] over the seed half-edges has run (over
    NaN, [x == x] being false), every intersection point met so far has
    been consumed, none is left behind for a polygon that is not traced;
    the rounds add no intersection to the array; every polygon that is
    returned has a point; and there are no more polygons than the array
    had intersection points, each polygon consuming one at least. *)
Theorem tracing_consumes_every_intersection
    (offset_distance angle_step cos_threshold : T)
    (edge_points edge_points' : list (Vec2 T)) (polygons : list Polygon) (n : nat) :
  for_edges (trace_seed NDEBUG EPSILON SCALED_EPSILON m_acos m_cos m_sin ceil_size vd lines
               offset_distance angle_step cos_threshold) n 0 (edge_points, [])
  = Some (edge_points', polygons) ->
  length edge_points' = length edge_points
  /\ (forall e, e < n ->
        edge_offset_has_intersection (nth e edge_points' unclassified) = false)
  /\ (forall e, edge_offset_has_intersection (nth e edge_points' unclassified) = true ->
        edge_offset_has_intersection (nth e edge_points unclassified) = true)
  /\ (forall poly, In poly polygons -> poly <> [])
  /\ count_intersections edge_points' + length polygons <= count_intersections edge_points.
Proof.
  intros Hrun.
  pose (P := fun (i : nat) (st : list (Vec2 T) * list Polygon) =>
               length (fst st) = length edge_points
               /\ (forall e, e < i ->
                     edge_offset_has_intersection (nth e (fst st) unclassified) = false)
               /\ (forall e,
                     edge_offset_has_intersection (nth e (fst st) unclassified) = true ->
                     edge_offset_has_intersection (nth e edge_points unclassified) = true)
               /\ (forall poly, In poly (snd st) -> poly <> [])
               /\ count_intersections (fst st) + length (snd st)
                  <= count_intersections edge_points).
  change (P (0 + n) (edge_points', polygons)).
  refine (@for_edges_invariant _ _ P _ 0 _ _ _ _ Hrun).
  - unfold P. cbn [fst snd length].
    split; [reflexivity|]. split; [intros e He; lia|]. split; [trivial|].
    split; [intros poly []| lia].
  - intros j [eps out] [eps1 out1] _ (Hlen & Hdone & Hmono & Hpoly & Hcount) Hb.
    cbn [fst snd] in *.
    unfold trace_seed in Hb.
    destruct (edge_offset_has_intersection (nth j eps unclassified)) eqn:Hj.
    + destruct (walk NDEBUG EPSILON SCALED_EPSILON m_acos m_cos m_sin ceil_size vd lines
                  (S (num_edges vd)) offset_distance angle_step cos_threshold eps j j
                  (nth j eps unclassified) []) as [[poly eps2|partial]|] eqn:Hw;
        try discriminate.
      injection Hb as <- <-.
      destruct (closed_walk_consumes _ _ _ _ _ _ _ _ _ Hw) as (Hl & Hm & Hs & Hp & Hc).
      unfold P. cbn [fst snd]. split; [congruence|]. split; [|split; [|split]].
      * intros e He. destruct (Nat.eq_dec e j) as [->|Hne]; [exact Hs|].
        destruct (edge_offset_has_intersection (nth e eps2 unclassified)) eqn:He2;
          [|reflexivity].
        apply Hm in He2. rewrite Hdone in He2 by lia. discriminate.
      * intros e He. apply Hmono, Hm, He.
      * intros p Hin. apply in_app_or in Hin as [Hin | [<- | []]]; auto.
      * rewrite length_app. cbn [length]. lia.
    + injection Hb as <- <-. unfold P. cbn [fst snd].
      split; [exact Hlen|]. split; [|split; [|split]]; trivial.
      intros e He. destruct (Nat.eq_dec e j) as [->|Hne]; [exact Hj|].
      apply Hdone. lia.
Qed.

End TracerRuns.

Lemma tracing_consumes_every_intersection_witness :
  (forall e, e < num_edges (triangle_vd (T := PrimFloat.float)) ->
     edge_offset_has_intersection (nth e (fst triangle_traced) unclassified) = false)
  /\ length (snd triangle_traced) <= count_intersections triangle_edge_points.
Proof.
  destruct (@tracing_consumes_every_intersection PrimFloat.float F64.scalar true EPSILON
              SCALED_EPSILON (fun x => x) (fun x => x) (fun x => x) (fun _ => 0)
              triangle_vd triangle_lines ltac:(vm_compute; reflexivity)
              (of_coord (-500)) (lit 2) (lit 2) triangle_edge_points
              (fst triangle_traced) (snd triangle_traced)
              (num_edges (triangle_vd (T := PrimFloat.float)))
              ltac:(vm_compute; reflexivity))
    as (_ & Hdone & _ & _ & Hc).
  split; [exact Hdone | lia].
Defined.


(** ** When the tracing has no result *)

(** A loop that fails has a first round that fails. *)
Lemma for_edges_first_failure {S : Type} (body : S -> nat -> option S) (n : nat) (st : S) :
  for_edges body n 0 st = None ->
  exists i st', i < n /\ for_edges body i 0 st = Some st' /\ body st' i = None.
Proof.
  induction n as [|n IH]; intros Hf; [discriminate|].
  replace (Datatypes.S n) with (n + 1) in Hf by lia.
  rewrite for_edges_app in Hf.
  destruct (for_edges body n 0 st) as [st'|] eqn:En.
  - exists n, st'. split; [lia|]. split; [exact En|].
    cbn in Hf. destruct (body st' n); [discriminate | reflexivity].
  - destruct (IH eq_refl) as (i & st' & Hi & Hp & Hb).
    exists i, st'. split; [lia | split; assumption].
Qed.

Section TracerReturns.

Context {T : Type} `{Scalar T}.
Variable EPSILON : T.
Variable SCALED_EPSILON : T.
Variable m_acos : T -> T.
Variable m_cos : T -> T.
Variable m_sin : T -> T.
Variable ceil_size : T -> nat.
Variable vd : VD T.
Variable lines : Lines.

Hypothesis Hnan : isnan (nan : T) = true.
Hypothesis Hclose : cells_close vd = true.

(** The walk of [next_offset_edge] around a cell that closes comes to an
    end. *)
Lemma next_offset_edge_from_returns (edge_points : list (Vec2 T)) (start_edge : nat) :
  forall fuel edge j,
    j < fuel -> Nat.iter j (next vd) edge = start_edge ->
    next_offset_edge_from vd fuel edge_points start_edge edge <> None.
Proof.
  induction fuel as [|fuel IH]; intros edge j Hj Hit; [lia|].
  cbn [next_offset_edge_from].
  destruct (Nat.eqb_spec edge start_edge) as [E|E]; [discriminate|].
  destruct (edge_offset_has_intersection _); [discriminate|].
  destruct j as [|j]; [cbn in Hit; contradiction|].
  apply (IH _ j); [lia|]. now rewrite <- Nat.iter_succ_r.
Qed.

Lemma next_offset_edge_returns (edge_points : list (Vec2 T)) (edge : nat) :
  edge < num_edges vd -> next_offset_edge vd edge_points edge <> None.
Proof.
  intros He. pose proof Hclose as Hc. unfold cells_close in Hc.
  rewrite forallb_forall in Hc.
  specialize (Hc edge). rewrite in_seq in Hc.
  specialize (Hc ltac:(lia)). apply existsb_exists in Hc.
  destruct Hc as (j & Hj & Hit). apply in_seq in Hj. apply Nat.eqb_eq in Hit.
  unfold next_offset_edge.
  apply (@next_offset_edge_from_returns edge_points edge (S (num_edges vd))
           (next vd edge) j); [lia | exact Hit].
Qed.

(** With the assertions compiled out, a walk ends, closed or open, within
    as many rounds as the array has intersection points. *)
Lemma walk_returns (offset_distance angle_step cos_threshold : T) (start_edge : nat) :
  forall fuel (edge_points : list (Vec2 T)) edge last_pt poly,
    count_intersections edge_points < fuel ->
    length edge_points <= num_edges vd ->
    edge < num_edges vd ->
    walk true EPSILON SCALED_EPSILON m_acos m_cos m_sin ceil_size vd lines fuel
      offset_distance angle_step cos_threshold edge_points start_edge edge last_pt poly
    <> None.
Proof.
  induction fuel as [|fuel IH]; intros edge_points edge last_pt poly Hc Hl He; [lia|].
  cbn [walk].
  pose proof (next_offset_edge_returns edge_points He) as Hn.
  destruct (next_offset_edge vd edge_points edge) as [[next_edge|]|] eqn:En;
    [| discriminate | contradiction].
  cbv beta iota zeta. unfold assert. cbv beta iota.
  pose proof (next_offset_edge_from_found _ _ _ _ _ En) as Hhas.
  pose proof (no_intersection_out_of_range Hnan _ _ Hhas) as Hlt.
  pose proof (count_consumed Hnan _ _ (vy (nth next_edge edge_points unclassified)) Hhas)
    as Hcnt.
  assert (Harc : exists arc,
             (if contains_point vd (cell vd edge)
              then discretize_arc true EPSILON m_acos m_cos m_sin ceil_size vd lines
                     angle_step cos_threshold (cell vd edge) last_pt
                     (nth next_edge edge_points unclassified)
              else Some []) = Some arc).
  { destruct (contains_point vd (cell vd edge)); [|now exists []].
    unfold discretize_arc, assert. destruct (_ <? _)%sc; eexists; reflexivity. }
  destruct Harc as [arc ->]. cbv beta iota.
  destruct (Nat.eqb next_edge start_edge); [discriminate|].
  apply IH; [lia | rewrite length_set_nth; exact Hl | lia].
Qed.

(** The rounds of the loop over the seeds keep the size of the array. *)
Lemma trace_rounds_keep_length (offset_distance angle_step cos_threshold : T)
    (edge_points edge_points' : list (Vec2 T)) (polygons polygons' : list Polygon)
    (n i : nat) :
  for_edges (trace_seed true EPSILON SCALED_EPSILON m_acos m_cos m_sin ceil_size vd lines
               offset_distance angle_step cos_threshold) n i (edge_points, polygons)
  = Some (edge_points', polygons') ->
  length edge_points' = length edge_points.
Proof.
  intros Hrun.
  pose (P := fun (_ : nat) (st : list (Vec2 T) * list Polygon) =>
               length (fst st) = length edge_points).
  change (P (i + n) (edge_points', polygons')).
  refine (@for_edges_invariant _ _ P _ i _ _ _ _ Hrun); [reflexivity|].
  intros j [eps out] [eps1 out1] _ Hlen Hb. unfold P in *. cbn [fst] in *.
  unfold trace_seed in Hb.
  destruct (edge_offset_has_intersection (nth j eps unclassified)).
  - destruct (walk true EPSILON SCALED_EPSILON m_acos m_cos m_sin ceil_size vd lines
                (S (num_edges vd)) offset_distance angle_step cos_threshold eps j j
                (nth j eps unclassified) []) as [[poly eps2|partial]|] eqn:Hw;
      try discriminate.
    injection Hb as <- <-.
    eapply closed_walk_consumes in Hw; [|exact Hnan].
    destruct Hw as (Hl & _). congruence.
  - injection Hb as <- <-. exact Hlen.
Qed.

(** X7.  With the assertions compiled out, on a diagram whose cells close
    (from every half-edge [next] comes back to it), the loop of [offset]
    over the seed half-edges is without a result only where a walk is
    open: at the first seed it does not get past, the seed carries an
    intersection and [next_offset_edge] has returned [nullptr] for some
    half-edge of the walk.  In particular no walk goes on for ever: every
    round consumes an intersection point. *)
Theorem tracing_fails_only_on_open_walk
    (offset_distance angle_step cos_threshold : T)
    (edge_points : list (Vec2 T)) (n : nat) :
  length edge_points <= num_edges vd ->
  n <= num_edges vd ->
  for_edges (trace_seed true EPSILON SCALED_EPSILON m_acos m_cos m_sin ceil_size vd lines
               offset_distance angle_step cos_threshold) n 0 (edge_points, [])
  = None ->
  exists seed edge_points' polygons partial,
    seed < n
    /\ for_edges (trace_seed true EPSILON SCALED_EPSILON m_acos m_cos m_sin ceil_size vd
                    lines offset_distance angle_step cos_threshold) seed 0 (edge_points, [])
       = Some (edge_points', polygons)
    /\ edge_offset_has_intersection (nth seed edge_points' unclassified) = true
    /\ walk true EPSILON SCALED_EPSILON m_acos m_cos m_sin ceil_size vd lines
         (S (num_edges vd)) offset_distance angle_step cos_threshold edge_points'
         seed seed (nth seed edge_points' unclassified) []
       = Some (Open partial).
Proof.
  intros Hl Hn Hrun.
  destruct (for_edges_first_failure _ _ _ Hrun) as (i & [eps out] & Hi & Hpre & Hb).
  pose proof (trace_rounds_keep_length _ _ _ _ _ _ _ Hpre) as Hlen.
  unfold trace_seed in Hb.
  destruct (edge_offset_has_intersection (nth i eps unclassified)) eqn:Hhas;
    [|discriminate].
  pose proof (@walk_returns offset_distance angle_step cos_threshold i
                (S (num_edges vd)) eps i (nth i eps unclassified) []) as Hw.
  destruct (walk true EPSILON SCALED_EPSILON m_acos m_cos m_sin ceil_size vd lines
              (S (num_edges vd)) offset_distance angle_step cos_threshold eps i i
              (nth i eps unclassified) []) as [[poly eps2|partial]|] eqn:Ew.
  - discriminate.
  - exists i, eps, out, partial. repeat (split; [assumption|]). exact Ew.
  - exfalso. apply Hw; [| lia | lia | reflexivity].
    pose proof (count_le_length eps). lia.
Qed.

End TracerReturns.

Lemma tracing_fails_only_on_open_walk_witness :
  exists seed edge_points' polygons partial,
    seed < num_edges (lshape_vd (T := PrimFloat.float))
    /\ for_edges
         (trace_seed (T := PrimFloat.float) true EPSILON SCALED_EPSILON
            (fun x => x) (fun x => x) (fun x => x) (fun _ => 0) lshape_vd lshape_lines
            (of_coord 1000) (lit 2) (lit 2)) seed 0 (lshape_edge_points, [])
       = Some (edge_points', polygons)
    /\ edge_offset_has_intersection (nth seed edge_points' unclassified) = true
    /\ walk (T := PrimFloat.float) true EPSILON SCALED_EPSILON
         (fun x => x) (fun x => x) (fun x => x) (fun _ => 0) lshape_vd lshape_lines
         (S (num_edges (lshape_vd (T := PrimFloat.float)))) (of_coord 1000) (lit 2) (lit 2)
         edge_points' seed seed (nth seed edge_points' unclassified) []
       = Some (Open partial).
Proof.
  apply (@tracing_fails_only_on_open_walk PrimFloat.float F64.scalar EPSILON SCALED_EPSILON
           (fun x => x) (fun x => x) (fun x => x) (fun _ => 0) lshape_vd lshape_lines
           ltac:(vm_compute; reflexivity) ltac:(vm_compute; reflexivity)
           (of_coord 1000) (lit 2) (lit 2) lshape_edge_points
           (num_edges (lshape_vd (T := PrimFloat.float)))).
  - vm_compute. lia.
  - lia.
  - vm_compute. reflexivity.
Defined.
